(** * ETRM trade capture: the server's ingestion, query and valuation core

    A shallow embedding of [supabase/functions/server/index.tsx]: the CSV
    parser, the trade validator, the upload handlers, the trade query
    handler and the P&L handler, then the handlers that add one trade,
    list the prices, the instruments and the traders, clear the
    collections and compute the statistics; followed by the properties
    the specification states about them and by further properties of the
    code.

    Conventions of the embedding.
    - A JavaScript string is a Rocq [string]; its characters are read as
      ASCII code units (case conversion and white space are the ASCII
      ones).  A property that depends on the case conversion of a text
      beyond the stored ones assumes that text to be ASCII.
    - A row object built by [parseCSV] is a finite map from property names
      to values, a value being a string or [undefined] ([None]); property
      names are plain data names (the prototype accessor [__proto__] is not
      a data name).
    - A JavaScript Number that holds a parsed decimal is an IEEE 754
      binary64 value, [spec_float] at precision 53; a Number that only ever
      holds an integer, NaN or an infinity (what [parseInt] returns, array
      lengths and offsets) is an [intnum], with the rounding to 53 bits
      written out.
    - [Array.prototype.sort] gives the stable order that ECMAScript
      prescribes when the comparator is consistent on the array; when it
      is not, the order is the engine's, a parameter of the embedding.
    - The text fields of a stored trade are strings, as every uploaded
      trade has them.
    - The key-value store is threaded explicitly, together with the list of
      calls made to it. *)

From Stdlib Require Import ZArith List Ascii String Bool Lia.
From Stdlib Require Import Sorting.Permutation Sorting.Sorted.
From Stdlib Require Import Floats.SpecFloat Numbers.DecimalString Numbers.DecimalNat.
From stdpp Require Import gmap strings.

Import ListNotations.
Local Open Scope string_scope.
Local Open Scope list_scope.
Local Open Scope Z_scope.

(** ** JavaScript strings *)

Module JsString.

(** White space and line terminators removed by [String.prototype.trim]
    (TAB, LF, VT, FF, CR, SP). *)
Definition isWhiteSpace (c : ascii) : bool :=
  let n := nat_of_ascii c in
  ((9 <=? n)%nat && (n <=? 13)%nat) || (n =? 32)%nat.

Fixpoint trimStart (s : string) : string :=
  match s with
  | EmptyString => EmptyString
  | String c s' => if isWhiteSpace c then trimStart s' else s
  end.

Fixpoint trimEnd (s : string) : string :=
  match s with
  | EmptyString => EmptyString
  | String c s' =>
      match trimEnd s' with
      | EmptyString => if isWhiteSpace c then EmptyString else String c EmptyString
      | t => String c t
      end
  end.

(** [s.trim()] *)
Definition trim (s : string) : string := trimEnd (trimStart s).

(** [s.split(sep)] for a one-character separator: n separators give
    n + 1 pieces, and the empty string gives one empty piece. *)
Fixpoint split (sep : ascii) (s : string) : list string :=
  match s with
  | EmptyString => [EmptyString]
  | String c s' =>
      if Ascii.eqb c sep then EmptyString :: split sep s'
      else match split sep s' with
           | piece :: rest => String c piece :: rest
           | [] => [String c EmptyString]
           end
  end.

Definition upperChar (c : ascii) : ascii :=
  let n := nat_of_ascii c in
  if ((97 <=? n)%nat && (n <=? 122)%nat) then ascii_of_nat (n - 32) else c.

Definition lowerChar (c : ascii) : ascii :=
  let n := nat_of_ascii c in
  if ((65 <=? n)%nat && (n <=? 90)%nat) then ascii_of_nat (n + 32) else c.

Fixpoint mapChars (f : ascii -> ascii) (s : string) : string :=
  match s with
  | EmptyString => EmptyString
  | String c s' => String (f c) (mapChars f s')
  end.

(** [s.toUpperCase()] and [s.toLowerCase()] *)
Definition toUpperCase : string -> string := mapChars upperChar.
Definition toLowerCase : string -> string := mapChars lowerChar.

Fixpoint startsWith (s prefix : string) : bool :=
  match prefix, s with
  | EmptyString, _ => true
  | String a p', String b s' => Ascii.eqb a b && startsWith s' p'
  | String _ _, EmptyString => false
  end.

(** [s.includes(sub)] *)
Fixpoint includes (s sub : string) : bool :=
  startsWith s sub ||
  match s with
  | EmptyString => false
  | String _ s' => includes s' sub
  end.

(** The relational operators on two strings compare code units
    lexicographically. *)
Definition ge (a b : string) : bool := String.leb b a.
Definition le (a b : string) : bool := String.leb a b.

(** Truthiness of a value that is a string or [undefined]. *)
Definition truthy (v : option string) : bool :=
  match v with
  | Some s => negb (String.eqb s "")
  | None => false
  end.

(** [v || dflt] for such a value. *)
Definition orDefault (v : option string) (dflt : string) : string :=
  match v with
  | Some s => if String.eqb s "" then dflt else s
  | None => dflt
  end.

Definition isDigit (c : ascii) : bool :=
  let n := nat_of_ascii c in (48 <=? n)%nat && (n <=? 57)%nat.

(** [s.replace(/\D/g, '')]: every non-digit is deleted. *)
Fixpoint stripNonDigits (s : string) : string :=
  match s with
  | EmptyString => EmptyString
  | String c s' =>
      if isDigit c then String c (stripNonDigits s') else stripNonDigits s'
  end.

End JsString.

(** ** JavaScript Numbers that hold integers *)

Module IntNum.

(** An integral Number: NaN, an infinity, negative zero, or an integer
    that binary64 represents ([IInt 0] is positive zero). *)
Inductive intnum : Type :=
  | INaN
  | IInf (neg : bool)
  | INegZero
  | IInt (z : Z).

(** The Number for a mathematical integer: round to nearest, ties to even,
    at 53 significant bits; overflow gives an infinity. *)
Definition round53 (z : Z) : intnum :=
  let a := Z.abs z in
  let k := Z.log2 a - 52 in
  if k <=? 0 then IInt z
  else
    let q := Z.shiftr a k in
    let r := Z.land a (Z.ones k) in
    let half := Z.shiftl 1 (k - 1) in
    let q' := if r <? half then q
              else if half <? r then q + 1
              else if Z.even q then q else q + 1 in
    let m := Z.shiftl q' k in
    if 2 ^ 1024 <=? m then IInf (z <? 0) else IInt (Z.sgn z * m).

Definition isNaN (x : intnum) : bool :=
  match x with INaN => true | _ => false end.

Definition isZero (x : intnum) : bool :=
  match x with INegZero | IInt 0 => true | _ => false end.

Definition isNegative (x : intnum) : bool :=
  match x with
  | INaN => false
  | IInf s => s
  | INegZero => true
  | IInt z => z <? 0
  end.

Definition signedZero (neg : bool) : intnum :=
  if neg then INegZero else IInt 0.

Definition neg (x : intnum) : intnum :=
  match x with
  | INaN => INaN
  | IInf s => IInf (negb s)
  | INegZero => IInt 0
  | IInt 0 => INegZero
  | IInt z => IInt (- z)
  end.

(** [x + y] *)
Definition add (x y : intnum) : intnum :=
  match x, y with
  | INaN, _ | _, INaN => INaN
  | IInf s, IInf t => if Bool.eqb s t then IInf s else INaN
  | IInf s, _ => IInf s
  | _, IInf t => IInf t
  | INegZero, INegZero => INegZero
  | INegZero, IInt z => IInt z
  | IInt z, INegZero => IInt z
  | IInt a, IInt b => round53 (a + b)
  end.

(** [x - y] *)
Definition sub (x y : intnum) : intnum := add x (neg y).

(** [x * y] *)
Definition mul (x y : intnum) : intnum :=
  match x, y with
  | INaN, _ | _, INaN => INaN
  | IInf s, _ =>
      if isZero y then INaN else IInf (xorb s (isNegative y))
  | _, IInf t =>
      if isZero x then INaN else IInf (xorb (isNegative x) t)
  | IInt a, IInt b =>
      if isZero x || isZero y then signedZero (xorb (isNegative x) (isNegative y))
      else round53 (a * b)
  | _, _ => signedZero (xorb (isNegative x) (isNegative y))
  end.

(** [Math.ceil(total / limit)] for an array length [total] (a non-negative
    integer below 2^32).  The quotient of such a length by an integral
    Number is far enough from the next integer for the rounded quotient
    to have the ceiling of the exact one. *)
Definition ceilDiv (total : Z) (limit : intnum) : intnum :=
  match limit with
  | INaN => INaN
  | IInf s => signedZero s
  | INegZero => if total =? 0 then INaN else IInf true
  | IInt 0 => if total =? 0 then INaN else IInf false
  | IInt l =>
      if 0 <? l then IInt ((total + l - 1) / l)
      else
        let q := total / (- l) in
        if q =? 0 then INegZero else IInt (- q)
  end.

(** How [Array.prototype.sort] reads a comparator result: NaN counts as
    zero, and only the sign matters. *)
Definition sortSign (v : intnum) : comparison :=
  match v with
  | INaN | INegZero => Eq
  | IInf s => if s then Lt else Gt
  | IInt z => z ?= 0
  end.

(** The relative index that [Array.prototype.slice] derives from an
    argument, for an array of length [len]: ToIntegerOrInfinity, then
    counting from the end when negative and clamping to [0, len]. *)
Definition relativeIndex (len : Z) (v : intnum) : Z :=
  match v with
  | INaN | INegZero => 0
  | IInf s => if s then 0 else len
  | IInt z => if z <? 0 then Z.max (len + z) 0 else Z.min z len
  end.

(** The value of a digit in the given radix, if it is one. *)
Definition digitValue (radix : Z) (c : ascii) : option Z :=
  let n := Z.of_nat (nat_of_ascii c) in
  let v := if (48 <=? n) && (n <=? 57) then Some (n - 48)
           else if (97 <=? n) && (n <=? 122) then Some (n - 87)
           else if (65 <=? n) && (n <=? 90) then Some (n - 55)
           else None in
  match v with
  | Some d => if d <? radix then Some d else None
  | None => None
  end.

(** The value of the longest prefix made of digits; [acc] is [None] until a
    digit has been read. *)
Fixpoint digitsPrefix (radix : Z) (s : string) (acc : option Z) : option Z :=
  match s with
  | EmptyString => acc
  | String c s' =>
      match digitValue radix c with
      | Some d =>
          digitsPrefix radix s'
            (Some (radix * (match acc with Some a => a | None => 0 end) + d))
      | None => acc
      end
  end.

(** A leading sign, and the text behind it. *)
Definition splitSign (t : string) : bool * string :=
  match t with
  | String "-" r => (true, r)
  | String "+" r => (false, r)
  | _ => (false, t)
  end.

(** The radix announced by a [0x] or [0X] prefix, else ten, and the text
    that holds the digits. *)
Definition splitRadix (t : string) : Z * string :=
  match t with
  | String "0" (String "x" r) => (16, r)
  | String "0" (String "X" r) => (16, r)
  | _ => (10, t)
  end.

(** [parseInt(s)] with no radix argument.  The digits are converted
    exactly before rounding. *)
Definition parseInt (s : string) : intnum :=
  let t := JsString.trimStart s in
  let '(negative, t1) := splitSign t in
  let '(radix, t2) := splitRadix t1 in
  match digitsPrefix radix t2 None with
  | None => INaN
  | Some 0 => signedZero negative
  | Some v => round53 (if negative then - v else v)
  end.

End IntNum.

(** ** JavaScript Numbers that hold decimals: binary64 *)

Module Num.

Definition number : Type := spec_float.

Definition prec : Z := 53.
Definition emax : Z := 1024.

Definition NaN : number := S754_nan.
Definition zero : number := S754_zero false.

Definition add : number -> number -> number := SFadd prec emax.
Definition sub : number -> number -> number := SFsub prec emax.
Definition mul : number -> number -> number := SFmul prec emax.

Definition isNaN (x : number) : bool :=
  match x with S754_nan => true | _ => false end.

Definition isFinite (x : number) : bool :=
  match x with S754_nan | S754_infinity _ => false | _ => true end.

(** Truthiness of a Number: NaN and both zeros are falsy. *)
Definition truthy (x : number) : bool :=
  match x with S754_nan | S754_zero _ => false | _ => true end.

(** SameValueZero: equal as Numbers, the two zeros identified and NaN
    equal to itself. *)
Definition dropZeroSign (x : number) : number :=
  match x with S754_zero _ => S754_zero false | _ => x end.

Definition sameValueZero (x y : number) : Prop :=
  dropZeroSign x = dropZeroSign y.

(** The binary64 value nearest to (-1)^negative * m * 10^e10 (ties to
    even).  For a negative exponent the quotient is computed with more
    than 64 bits and a sticky bit, which rounds as the exact value
    does. *)
Definition ofDecimal (negative : bool) (m : Z) (e10 : Z) : number :=
  let signed (v : Z) := if negative then - v else v in
  if m <=? 0 then S754_zero negative
  else if 0 <=? e10 then
    binary_normalize prec emax (signed (m * 10 ^ e10)) 0 negative
  else
    let d := 10 ^ (- e10) in
    let k := Z.max 0 (Z.log2 d + 66 - Z.log2 m) in
    let n := m * 2 ^ k in
    let q := n / d in
    let sticky := if n mod d =? 0 then 0 else 1 in
    binary_normalize prec emax (signed (2 * q + sticky)) (- k - 1) negative.

(** The longest prefix of decimal digits, and what follows it. *)
Fixpoint spanDigits (s : string) : string * string :=
  match s with
  | EmptyString => (EmptyString, EmptyString)
  | String c s' =>
      if JsString.isDigit c
      then let '(ds, rest) := spanDigits s' in (String c ds, rest)
      else (EmptyString, s)
  end.

Fixpoint digitsValueFrom (acc : Z) (ds : string) : Z :=
  match ds with
  | EmptyString => acc
  | String c ds' =>
      digitsValueFrom (10 * acc + (Z.of_nat (nat_of_ascii c) - 48)) ds'
  end.

Definition digitsValue : string -> Z := digitsValueFrom 0.

(** The exponent part [e], [e+] or [e-] followed by digits; 0 when the
    text does not continue with a complete exponent part. *)
Definition exponentPart (s : string) : Z :=
  let digitsOf (neg : bool) (r : string) :=
    let '(ds, _) := spanDigits r in
    match ds with
    | EmptyString => 0
    | _ => if neg then - digitsValue ds else digitsValue ds
    end in
  let afterE (r : string) :=
    match r with
    | String "+" r' => digitsOf false r'
    | String "-" r' => digitsOf true r'
    | _ => digitsOf false r
    end in
  match s with
  | String "e" r => afterE r
  | String "E" r => afterE r
  | _ => 0
  end.

(** [parseFloat(s)] on a string: leading white space is skipped and the
    longest prefix that is a decimal literal (or a signed [Infinity]) is
    converted; NaN when there is none. *)
Definition parseFloat (s : string) : number :=
  let t := JsString.trimStart s in
  let '(negative, u) :=
    match t with
    | String "-" r => (true, r)
    | String "+" r => (false, r)
    | _ => (false, t)
    end in
  if JsString.startsWith u "Infinity" then S754_infinity negative
  else
    let '(ip, r1) := spanDigits u in
    let '(fp, r2) :=
      match r1 with
      | String "." r => spanDigits r
      | _ => (EmptyString, r1)
      end in
    match ip, fp with
    | EmptyString, EmptyString => NaN
    | _, _ =>
        ofDecimal negative (digitsValue (String.append ip fp))
          (exponentPart r2 - Z.of_nat (String.length fp))
    end.

(** [parseFloat(v)] on a value that is a string or [undefined]. *)
Definition parseFloatValue (v : option string) : number :=
  match v with
  | Some s => parseFloat s
  | None => NaN
  end.

(** [parseFloat(x)] on a Number: the Number is printed and read back,
    which returns it, except that negative zero prints as [0]. *)
Definition parseFloatNumber (x : number) : number := dropZeroSign x.

End Num.

(** ** Built-ins whose results the engine decides *)

(** [dateTime s] is the time value of [new Date(s)] in milliseconds, [None]
    for an invalid date; [localeCompare a b] is [a.localeCompare(b)].
    [arrange n answers] is the order in which [Array.prototype.sort]
    leaves the [n] elements of an array whose comparator is not a
    consistent one, as the list of their former positions: ECMAScript
    leaves that order to the implementation.  A sort sees the elements
    only through the comparator; [answers i j] is how it ranks the element
    at position [i] against the one at position [j]. *)
Class Runtime : Type := {
  dateTime : string -> option Z;
  localeCompare : string -> string -> IntNum.intnum;
  arrange : nat -> (nat -> nat -> comparison) -> list nat
}.

(** ** JavaScript arrays *)

Module JsArray.

Import IntNum.

(** [arr.slice(start, end)] *)
Definition slice {A : Type} (arr : list A) (start finish : intnum) : list A :=
  let len := Z.of_nat (length arr) in
  let k := relativeIndex len start in
  let final := relativeIndex len finish in
  firstn (Z.to_nat (final - k)) (skipn (Z.to_nat k) arr).

(** Insertion of [x] behind every element it is not strictly below. *)
Fixpoint insertSorted {A : Type} (compareFn : A -> A -> intnum)
    (x : A) (sorted : list A) : list A :=
  match sorted with
  | [] => [x]
  | y :: rest =>
      match sortSign (compareFn x y) with
      | Lt => x :: y :: rest
      | _ => y :: insertSorted compareFn x rest
      end
  end.

(** The elements in ascending order of the comparator, those it ranks
    alike in the order they had: what a stable sort returns. *)
Definition stableSort {A : Type} (compareFn : A -> A -> intnum) (arr : list A) : list A :=
  fold_left (fun sorted x => insertSorted compareFn x sorted) arr [].

Definition isLt (c : comparison) : bool := match c with Lt => true | _ => false end.
Definition isEq (c : comparison) : bool := match c with Eq => true | _ => false end.
Definition isGt (c : comparison) : bool := match c with Gt => true | _ => false end.

(** What ECMAScript requires of a consistent comparator, read at three
    elements: [a] ties with itself, a tie of [a] with [b] is one of [b]
    with [a], and ties, "below" and "above" are each transitive.  The
    answers are read as the sort reads them, by their sign, NaN being a
    tie. *)
Definition consistentAt {A : Type} (compareFn : A -> A -> intnum) (a b c : A) : bool :=
  let ab := sortSign (compareFn a b) in
  isEq (sortSign (compareFn a a))
  && implb (isEq ab) (isEq (sortSign (compareFn b a)))
  && match ab, sortSign (compareFn b c) with
     | Eq, Eq => isEq (sortSign (compareFn a c))
     | Lt, Lt => isLt (sortSign (compareFn a c))
     | Gt, Gt => isGt (sortSign (compareFn a c))
     | _, _ => true
     end.

(** The comparator is a consistent comparator for the elements of the
    array. *)
Definition consistent {A : Type} (compareFn : A -> A -> intnum) (arr : list A) : bool :=
  forallb (fun a =>
    forallb (fun b => forallb (fun c => consistentAt compareFn a b c) arr) arr) arr.

(** The elements found at the given positions, in that order. *)
Definition pick {A : Type} (arr : list A) (positions : list nat) : list A :=
  flat_map (fun i => match nth_error arr i with Some x => [x] | None => [] end)
    positions.

(** The list names each of the positions [0 .. n - 1] once. *)
Definition isArrangement (n : nat) (positions : list nat) : bool :=
  Nat.eqb (length positions) n
  && forallb (fun i => existsb (Nat.eqb i) positions) (seq 0 n).

(** How the comparator ranks the element at position [i] against the one
    at position [j]. *)
Definition answerAt {A : Type} (compareFn : A -> A -> intnum) (arr : list A)
    (i j : nat) : comparison :=
  match nth_error arr i, nth_error arr j with
  | Some x, Some y => sortSign (compareFn x y)
  | _, _ => Eq
  end.

(** [arr.sort(compareFn)].  With a consistent comparator the result is the
    one ECMAScript prescribes: ascending, and stable.  With any other
    comparator the order is the engine's, [arrange]; the result is still
    a rearrangement of the array (positions that are no arrangement are
    read as the order the array had). *)
Definition sort {runtime : Runtime} {A : Type} (compareFn : A -> A -> intnum)
    (arr : list A) : list A :=
  if consistent compareFn arr then stableSort compareFn arr
  else
    let positions := arrange (length arr) (answerAt compareFn arr) in
    if isArrangement (length arr) positions then pick arr positions else arr.

End JsArray.

(** ** The server *)

Module MarketPrice.

(** A stored market price.  Nothing is checked on upload, so the two text
    fields may be [undefined]. *)
Record t : Type := {
  instrument : option string;
  price_date : option string;
  close_price : Num.number
}.

End MarketPrice.

Module Server.

Import JsString IntNum Num.

(** A row object as [parseCSV] builds it: property name to value, the
    value being a string or [undefined]. *)
Abbreviation RawRow := (gmap string (option string)).

(** [row.name]: an absent property reads as [undefined]. *)
Definition field (row : RawRow) (name : string) : option string :=
  match row !! name with
  | Some v => v
  | None => None
  end.

Definition LF : ascii := ascii_of_nat 10.
Definition COMMA : ascii := ascii_of_nat 44.

(** [headers.forEach((header, index) => { row[header] = values[index]; })],
    from position [index] on. *)
Fixpoint assignFields (headers : list string) (index : nat)
    (values : list string) (row : RawRow) : RawRow :=
  match headers with
  | [] => row
  | header :: rest =>
      assignFields rest (S index) values (<[header := values !! index]> row)
  end.

Definition parseLine (headers : list string) (line : string) : RawRow :=
  let values := map trim (split COMMA line) in
  assignFields headers 0 values ∅.

Definition parseCSV (csvText : string) : list RawRow :=
  let lines := split LF (trim csvText) in
  if (length lines <? 2)%nat then []
  else
    match lines with
    | [] => []
    | headerLine :: dataLines =>
        let headers := map trim (split COMMA headerLine) in
        map (parseLine headers) dataLines
    end.

Record Validation : Type := { valid : bool; errors : list string }.

(** [if (cond) errors.push(msg)] *)
Definition pushIf (cond : bool) (msg : string) (errors : list string) : list string :=
  if cond then errors ++ [msg] else errors.

(** [['BUY', 'SELL'].includes(v.toUpperCase())] *)
Definition sideListed (v : option string) : bool :=
  match v with
  | Some s => existsb (String.eqb (toUpperCase s)) ["BUY"; "SELL"]
  | None => false
  end.

Definition validateTrade (trade : RawRow) : Validation :=
  let errors := [] in
  let errors := pushIf (negb (JsString.truthy (field trade "trade_id")))
                  "trade_id is required" errors in
  let errors := pushIf (negb (JsString.truthy (field trade "trade_date")))
                  "trade_date is required" errors in
  let errors := pushIf (negb (JsString.truthy (field trade "instrument")))
                  "instrument is required" errors in
  let errors := pushIf (negb (JsString.truthy (field trade "side"))
                        || negb (sideListed (field trade "side")))
                  "side must be BUY or SELL" errors in
  let errors := pushIf (negb (JsString.truthy (field trade "quantity"))
                        || Num.isNaN (parseFloatValue (field trade "quantity")))
                  "quantity must be a valid number" errors in
  let errors := pushIf (negb (JsString.truthy (field trade "trade_price"))
                        || Num.isNaN (parseFloatValue (field trade "trade_price")))
                  "trade_price must be a valid number" errors in
  {| valid := (length errors =? 0)%nat; errors := errors |}.

(** A stored trade, as the upload handler builds it: the text fields are
    strings, the two amounts are Numbers. *)
Record Trade : Type := {
  trade_id : string;
  trade_date : string;
  trader : string;
  instrument : string;
  side : string;
  quantity : number;
  trade_price : number;
  currency : string
}.

(** The string held by a property that validation found present. *)
Definition present (v : option string) : string :=
  match v with
  | Some s => s
  | None => EmptyString
  end.

(** The object pushed on [validTrades] for a row that passed validation. *)
Definition normalizeTrade (row : RawRow) : Trade :=
  {| trade_id := present (field row "trade_id");
     trade_date := present (field row "trade_date");
     trader := orDefault (field row "trader") "Unknown";
     instrument := present (field row "instrument");
     side := toUpperCase (present (field row "side"));
     quantity := parseFloatValue (field row "quantity");
     trade_price := parseFloatValue (field row "trade_price");
     currency := orDefault (field row "currency") "USD" |}.

Record InvalidTrade : Type := { row : RawRow; row_errors : list string }.

(** The loop over the parsed rows: [(validTrades, invalidTrades)]. *)
Definition classifyRow (acc : list Trade * list InvalidTrade) (r : RawRow)
    : list Trade * list InvalidTrade :=
  let '(validTrades, invalidTrades) := acc in
  let validation := validateTrade r in
  if valid validation
  then (validTrades ++ [normalizeTrade r], invalidTrades)
  else (validTrades, invalidTrades ++ [{| row := r; row_errors := errors validation |}]).

Definition classifyRows (rows : list RawRow) : list Trade * list InvalidTrade :=
  fold_left classifyRow rows ([], []).

(** *** The record store *)

(** Modelled from the spec: the record store adapter [kv_store.tsx], which
    the server imports and whose source is not among the files: [get(key)]
    returns the value last [set] under the key, or nothing, and
    [set(key, value)] replaces it.  Two keys are used, [trades] and
    [market_prices].  A call always succeeds here, so the handlers'
    [catch] branches (status 500) are not part of the model. *)
Record Store : Type := {
  kv_trades : option (list Trade);
  kv_market_prices : option (list MarketPrice.t)
}.

Inductive KvCall : Type :=
  | KvGet (key : string)
  | KvSet (key : string).

(** A handler step: the result, the store it leaves and the store calls it
    made, oldest first. *)
Definition Kv (A : Type) : Type := Store -> A * Store * list KvCall.

Definition ret {A : Type} (a : A) : Kv A := fun s => (a, s, []).

Definition bind {A B : Type} (m : Kv A) (f : A -> Kv B) : Kv B :=
  fun s =>
    let '(a, s1, calls1) := m s in
    let '(b, s2, calls2) := f a s1 in
    (b, s2, calls1 ++ calls2).

Notation "'await' x ':=' m 'in' k" := (bind m (fun x => k))
  (at level 10, x name, m at level 100, k at level 200).
Notation "'run' m 'in' k" := (bind m (fun _ => k))
  (at level 10, m at level 100, k at level 200).

(** [await kv.get('trades') || []] *)
Definition getTrades : Kv (list Trade) :=
  fun s => (match kv_trades s with Some l => l | None => [] end, s, [KvGet "trades"]).

(** [await kv.get('market_prices') || []] *)
Definition getMarketPrices : Kv (list MarketPrice.t) :=
  fun s => (match kv_market_prices s with Some l => l | None => [] end, s,
            [KvGet "market_prices"]).

(** [await kv.set('trades', value)] *)
Definition setTrades (value : list Trade) : Kv unit :=
  fun s => (tt, {| kv_trades := Some value; kv_market_prices := kv_market_prices s |},
            [KvSet "trades"]).

(** [await kv.set('market_prices', value)] *)
Definition setMarketPrices (value : list MarketPrice.t) : Kv unit :=
  fun s => (tt, {| kv_trades := kv_trades s; kv_market_prices := Some value |},
            [KvSet "market_prices"]).

(** What a handler sends: [c.json(body)] or [c.json({ error }, status)]. *)
Inductive Reply (A : Type) : Type :=
  | Json (body : A)
  | Failure (status : Z) (error : string).
Arguments Json {A} body.
Arguments Failure {A} status error.

(** The decimal text of a count, as a template literal prints it. *)
Definition showCount (n : nat) : string :=
  NilEmpty.string_of_uint (Nat.to_uint n).

(** *** POST /trades/upload *)

Record UploadTradesBody : Type := {
  success : bool;
  message : string;
  validCount : nat;
  invalidCount : nat;
  invalidTrades : list InvalidTrade
}.

(** [file] is the text of the uploaded file (or the string sent in its
    place), [None] when the request carries none. *)
Definition uploadTrades (file : option string) : Kv (Reply UploadTradesBody) :=
  match file with
  | None => ret (Failure 400 "No file provided")
  | Some csvText =>
      let rows := parseCSV csvText in
      if (length rows =? 0)%nat
      then ret (Failure 400 "CSV file is empty or invalid")
      else
        let '(validTrades, invalidTrades) := classifyRows rows in
        run (if (0 <? length validTrades)%nat
             then await existingTrades := getTrades in
                  setTrades (existingTrades ++ validTrades)
             else ret tt) in
        ret (Json {| success := true;
                     message := String.append "Uploaded "
                                  (String.append (showCount (length validTrades))
                                     " trades successfully");
                     validCount := length validTrades;
                     invalidCount := length invalidTrades;
                     invalidTrades :=
                       JsArray.slice invalidTrades (IInt 0) (IInt 10) |})
  end.

(** *** POST /market-prices/upload *)

Record UploadPricesBody : Type := {
  prices_success : bool;
  prices_message : string;
  count : nat
}.

Definition priceOfRow (r : RawRow) : MarketPrice.t :=
  {| MarketPrice.instrument := field r "instrument";
     MarketPrice.price_date := field r "price_date";
     MarketPrice.close_price := parseFloatValue (field r "close_price") |}.

Definition uploadMarketPrices (file : option string) : Kv (Reply UploadPricesBody) :=
  match file with
  | None => ret (Failure 400 "No file provided")
  | Some csvText =>
      let rows := parseCSV csvText in
      if (length rows =? 0)%nat
      then ret (Failure 400 "CSV file is empty or invalid")
      else
        let prices := map priceOfRow rows in
        run setMarketPrices prices in
        ret (Json {| prices_success := true;
                     prices_message :=
                       String.append "Uploaded "
                         (String.append (showCount (length prices))
                            " market prices successfully");
                     count := length prices |})
  end.

(** *** GET /trades *)

Section Queries.

Context {runtime : Runtime}.

(** [if (param) list = list.filter(keep)]: an absent or empty query
    parameter applies no filter. *)
Definition filterIf {A : Type} (param : option string)
    (keep : string -> A -> bool) (l : list A) : list A :=
  if JsString.truthy param then List.filter (keep (present param)) l else l.

(** The query parameters of GET /trades, each a string or absent. *)
Record TradesQuery : Type := {
  q_from : option string;
  q_to : option string;
  q_instrument : option string;
  q_trader : option string;
  q_page : option string;
  q_limit : option string
}.

Definition filterTrades (q : TradesQuery) (trades : list Trade) : list Trade :=
  let trades := filterIf (q_from q)
                  (fun fromDate t => JsString.ge (trade_date t) fromDate) trades in
  let trades := filterIf (q_to q)
                  (fun toDate t => JsString.le (trade_date t) toDate) trades in
  let trades := filterIf (q_instrument q)
                  (fun instr t =>
                     includes (toLowerCase (instrument t)) (toLowerCase instr))
                  trades in
  let trades := filterIf (q_trader q)
                  (fun trdr t =>
                     includes (toLowerCase (trader t)) (toLowerCase trdr))
                  trades in
  trades.

(** [parseInt(id.replace(/\D/g, ''))] *)
Definition numericPart (id : string) : intnum :=
  parseInt (stripNonDigits id).

(** The comparator handed to [trades.sort]. *)
Definition compareTrades (a b : Trade) : intnum :=
  let aNum := numericPart (trade_id a) in
  let bNum := numericPart (trade_id b) in
  if negb (IntNum.isNaN aNum) && negb (IntNum.isNaN bNum)
  then IntNum.sub aNum bNum
  else localeCompare (trade_id a) (trade_id b).

Record Pagination : Type := {
  page : intnum;
  limit : intnum;
  total : nat;
  totalPages : intnum
}.

Record TradesBody : Type := {
  trades : list Trade;
  pagination : Pagination
}.

Definition listTrades (q : TradesQuery) : Kv (Reply TradesBody) :=
  let page := parseInt (orDefault (q_page q) "1") in
  let limit := parseInt (orDefault (q_limit q) "50") in
  await trades := getTrades in
  let trades := filterTrades q trades in
  let trades := JsArray.sort compareTrades trades in
  let total := length trades in
  let start := IntNum.mul (IntNum.sub page (IInt 1)) limit in
  let finish := IntNum.add start limit in
  let paginatedTrades := JsArray.slice trades start finish in
  ret (Json {| trades := paginatedTrades;
               pagination := {| page := page;
                                limit := limit;
                                total := total;
                                totalPages := ceilDiv (Z.of_nat total) limit |} |}).

(** *** GET /pnl *)

(** The query parameters of GET /pnl. *)
Record PnLQuery : Type := {
  p_from : option string;
  p_to : option string;
  p_instrument : option string
}.

Definition filterForPnL (q : PnLQuery) (trades : list Trade) : list Trade :=
  let filteredTrades := trades in
  let filteredTrades := filterIf (p_from q)
                          (fun fromDate t => JsString.ge (trade_date t) fromDate)
                          filteredTrades in
  let filteredTrades := filterIf (p_to q)
                          (fun toDate t => JsString.le (trade_date t) toDate)
                          filteredTrades in
  let filteredTrades := filterIf (p_instrument q)
                          (fun instr t => String.eqb (instrument t) instr)
                          filteredTrades in
  filteredTrades.

(** [new Date(v).getTime()]: NaN for [undefined], for an invalid date and
    for a time value outside the range of Date. *)
Definition getTime (v : option string) : intnum :=
  match v with
  | Some s =>
      match dateTime s with
      | Some ms => if Z.abs ms <=? 8640000000000000 then IInt ms else INaN
      | None => INaN
      end
  | None => INaN
  end.

(** [p.instrument === name] *)
Definition priceIsFor (name : string) (p : MarketPrice.t) : bool :=
  match MarketPrice.instrument p with
  | Some s => String.eqb s name
  | None => false
  end.

(** Latest first. *)
Definition comparePrices (a b : MarketPrice.t) : intnum :=
  IntNum.sub (getTime (MarketPrice.price_date b)) (getTime (MarketPrice.price_date a)).

Definition instrumentPrices (marketPrices : list MarketPrice.t) (t : Trade)
    : list MarketPrice.t :=
  JsArray.sort comparePrices (List.filter (priceIsFor (instrument t)) marketPrices).

(** [instrumentPrices[0]] *)
Definition latestPrice (marketPrices : list MarketPrice.t) (t : Trade)
    : option MarketPrice.t :=
  hd_error (instrumentPrices marketPrices t).

(** [{ ...trade, market_price, mtm }] *)
Record ValuedTrade : Type := {
  trade : Trade;
  market_price : number;
  mtm : number
}.

(** The names that a plain object such as [dailyPnL] inherits from
    [Object.prototype]. *)
Definition inheritedNames : list string :=
  [ "constructor"; "hasOwnProperty"; "isPrototypeOf"; "propertyIsEnumerable";
    "toLocaleString"; "toString"; "valueOf"; "__proto__";
    "__defineGetter__"; "__defineSetter__"; "__lookupGetter__"; "__lookupSetter__" ].

Definition inheritedName (key : string) : bool :=
  existsb (String.eqb key) inheritedNames.

(** The object [dailyPnL], keyed by trade date: its own properties in
    creation order.  [lookupProp] is the read [obj[key]] for a key that is
    no inherited name; at an inherited name the read finds the inherited
    property where the object has none of its own, which is no Number:
    the figure of a day so named is outside this embedding. *)
Definition lookupProp (obj : list (string * number)) (key : string) : option number :=
  match List.find (fun kv => String.eqb (fst kv) key) obj with
  | Some kv => Some (snd kv)
  | None => None
  end.

(** [obj[key] = v]: an existing property keeps its place. *)
Fixpoint assignProp (obj : list (string * number)) (key : string) (v : number)
    : list (string * number) :=
  match obj with
  | [] => [(key, v)]
  | (k, w) :: rest =>
      if String.eqb k key then (k, v) :: rest else (k, w) :: assignProp rest key v
  end.

(** [x || 0] for a Number or [undefined]. *)
Definition orZero (x : option number) : number :=
  match x with
  | Some v => if Num.truthy v then v else Num.zero
  | None => Num.zero
  end.

Record PnLState : Type := {
  st_totalPnL : number;
  st_dailyPnL : list (string * number);
  st_tradesPnL : list ValuedTrade
}.

(** The body of the loop over the filtered trades. *)
Definition valueTrade (marketPrices : list MarketPrice.t) (st : PnLState) (t : Trade)
    : PnLState :=
  match latestPrice marketPrices t with
  | Some latest =>
      let marketPrice := parseFloatNumber (MarketPrice.close_price latest) in
      let tradePrice := parseFloatNumber (trade_price t) in
      let qty := parseFloatNumber (quantity t) in
      let mtm := Num.mul (Num.sub marketPrice tradePrice) qty in
      let date := trade_date t in
      {| st_totalPnL := Num.add (st_totalPnL st) mtm;
         st_dailyPnL :=
           assignProp (st_dailyPnL st) date
             (Num.add (orZero (lookupProp (st_dailyPnL st) date)) mtm);
         st_tradesPnL :=
           st_tradesPnL st ++ [{| trade := t; market_price := marketPrice; mtm := mtm |}] |}
  | None => st
  end.

(** The array index a property name denotes, if it is one: the canonical
    decimal text of an integer below 2^32 - 1. *)
Definition arrayIndex (key : string) : option Z :=
  match key with
  | EmptyString => None
  | String c rest =>
      if forallb isDigit (list_ascii_of_string key)
         && (negb (Ascii.eqb c "0") || String.eqb rest "")
         && (digitsValue key <? 4294967295)
      then Some (digitsValue key)
      else None
  end.

Definition isIndexEntry (kv : string * number) : bool :=
  match arrayIndex (fst kv) with Some _ => true | None => false end.

Definition compareIndexEntries (a b : string * number) : intnum :=
  match arrayIndex (fst a), arrayIndex (fst b) with
  | Some i, Some j => IInt (i - j)
  | _, _ => IInt 0
  end.

(** [Object.entries(obj)]: array-index names in ascending order, then the
    other names in creation order. *)
Definition entries (obj : list (string * number)) : list (string * number) :=
  JsArray.sort compareIndexEntries (List.filter isIndexEntry obj)
  ++ List.filter (fun kv => negb (isIndexEntry kv)) obj.

Record DailyPnL : Type := { date : string; pnl : number }.

Definition compareDaily (a b : DailyPnL) : intnum :=
  IntNum.sub (getTime (Some (date a))) (getTime (Some (date b))).

Record PnLBody : Type := {
  totalPnL : number;
  dailyPnL : list DailyPnL;
  tradeCount : nat;
  valuedTradeCount : nat;
  pnl_trades : list ValuedTrade
}.

Definition computePnL (q : PnLQuery) : Kv (Reply PnLBody) :=
  await trades := getTrades in
  await marketPrices := getMarketPrices in
  let filteredTrades := filterForPnL q trades in
  let st := fold_left (valueTrade marketPrices) filteredTrades
              {| st_totalPnL := Num.zero; st_dailyPnL := []; st_tradesPnL := [] |} in
  let dailyPnLArray :=
    JsArray.sort compareDaily
      (map (fun kv => {| date := fst kv; pnl := snd kv |}) (entries (st_dailyPnL st))) in
  ret (Json {| totalPnL := st_totalPnL st;
               dailyPnL := dailyPnLArray;
               tradeCount := length filteredTrades;
               valuedTradeCount := length (st_tradesPnL st);
               pnl_trades := st_tradesPnL st |}).

End Queries.

End Server.

(** ** A concrete engine for worked examples *)

Module Engine.

Import JsString IntNum Num.

(** Days from 1970-01-01 to the given civil date (proleptic Gregorian). *)
Definition daysFromCivil (y m d : Z) : Z :=
  let y' := if m <=? 2 then y - 1 else y in
  let era := y' / 400 in
  let yoe := y' - era * 400 in
  let mp := (m + 9) mod 12 in
  let doy := (153 * mp + 2) / 5 + d - 1 in
  let doe := yoe * 365 + yoe / 4 - yoe / 100 + doy in
  era * 146097 + doe - 719468.

Definition daysInMonth (y m : Z) : Z :=
  if m =? 2 then
    (if ((y mod 4 =? 0) && negb (y mod 100 =? 0)) || (y mod 400 =? 0) then 29 else 28)
  else if (m =? 4) || (m =? 6) || (m =? 9) || (m =? 11) then 30
  else 31.

(** The date-only ISO form [YYYY-MM-DD], read as midnight UTC; any other
    text is an invalid date here. *)
Definition isoDateTime (s : string) : option Z :=
  match list_ascii_of_string s with
  | [y1; y2; y3; y4; "-"%char; m1; m2; "-"%char; d1; d2] =>
      if forallb isDigit [y1; y2; y3; y4; m1; m2; d1; d2] then
        let y := digitsValue (string_of_list_ascii [y1; y2; y3; y4]) in
        let m := digitsValue (string_of_list_ascii [m1; m2]) in
        let d := digitsValue (string_of_list_ascii [d1; d2]) in
        if (1 <=? m) && (m <=? 12) && (1 <=? d) && (d <=? daysInMonth y m)
        then Some (daysFromCivil y m d * 86400000)
        else None
      else None
  | _ => None
  end.

(** Comparison by code units. *)
Definition codeUnitCompare (a b : string) : intnum :=
  match String.compare a b with
  | Lt => IInt (-1)
  | Eq => IInt 0
  | Gt => IInt 1
  end.

(** Lines joined by line feeds: the text of a file. *)
Fixpoint joinLines (lines : list string) : string :=
  match lines with
  | [] => EmptyString
  | [l] => l
  | l :: rest => String.append l (String Server.LF (joinLines rest))
  end.

Definition tradesHeader : string :=
  "trade_id,trade_date,trader,instrument,side,quantity,trade_price,currency".

(** One valid row (lower-case side, no currency) and one invalid row. *)
Definition mixedTradesCsv : string :=
  joinLines [ tradesHeader;
              "T001,2025-01-15,John Smith,WTI-CRUDE,buy,1000,75.50";
              "T002,2025-01-15,,BRENT,HOLD,abc,78.25,USD" ].

(** Two rows that both fail validation. *)
Definition invalidTradesCsv : string :=
  joinLines [ tradesHeader;
              "T001,,John Smith,WTI-CRUDE,BUY,1000,75.50,USD";
              ",2025-01-15,,BRENT,HOLD,abc,,USD" ].

Definition pricesCsv : string :=
  joinLines [ "instrument,price_date,close_price";
              "WTI-CRUDE,2025-01-16,76.00";
              "BRENT,2025-01-16,n/a" ].

Definition emptyStore : Server.Store :=
  {| Server.kv_trades := None; Server.kv_market_prices := None |}.

(** A purchase of 1000 at 75.50 with the given identifier and
    instrument. *)
Definition tradeOf (id instr : string) : Server.Trade :=
  {| Server.trade_id := id;
     Server.trade_date := "2025-01-15";
     Server.trader := "Unknown";
     Server.instrument := instr;
     Server.side := "BUY";
     Server.quantity := parseFloat "1000";
     Server.trade_price := parseFloat "75.50";
     Server.currency := "USD" |}.

Definition tradeWithId (id : string) : Server.Trade := tradeOf id "WTI-CRUDE".

(** A listing request with an instrument and a trader filter. *)
Definition nameQuery (instr name : string) : Server.TradesQuery :=
  {| Server.q_from := None; Server.q_to := None;
     Server.q_instrument := Some instr; Server.q_trader := Some name;
     Server.q_page := None; Server.q_limit := None |}.

(** A store that holds forty-five trades, T1 to T45. *)
Definition fortyFiveTrades : Server.Store :=
  {| Server.kv_trades :=
       Some (map (fun n => tradeWithId (String.append "T" (Server.showCount n)))
               (seq 1 45));
     Server.kv_market_prices := None |}.

(** A store whose identifiers mix numbered and unnumbered ones. *)
Definition mixedIds : Server.Store :=
  {| Server.kv_trades :=
       Some (map tradeWithId ["T10"; "B"; "T9"; "A"; "X2"]);
     Server.kv_market_prices := None |}.

Definition numberedIds : Server.Store :=
  {| Server.kv_trades := Some (map tradeWithId ["T10"; "T9"; "X2"; "T010"]);
     Server.kv_market_prices := None |}.

(** A store whose identifiers hold no digit. *)
Definition namedIds : Server.Store :=
  {| Server.kv_trades := Some (map tradeWithId ["B"; "AZ"; "A"]);
     Server.kv_market_prices := None |}.

(** A store on whose identifiers the comparison of the listing goes round
    in a circle. *)
Definition circleIds : Server.Store :=
  {| Server.kv_trades := Some (map tradeWithId ["A2"; "AZ"; "B1"]);
     Server.kv_market_prices := None |}.

(** The length of the run that goes on from [previous] through [rest]:
    strictly descending, or not descending. *)
Fixpoint runLength (answers : nat -> nat -> comparison) (descending : bool)
    (previous : nat) (rest : list nat) : nat :=
  match rest with
  | [] => 0
  | current :: rest' =>
      let below := JsArray.isLt (answers current previous) in
      if Bool.eqb below descending
      then S (runLength answers descending current rest')
      else 0
  end.

(** The place a binary search gives [pivot] among [work], between [left]
    and [right]: behind every element it is not strictly below. *)
Fixpoint searchPlace (answers : nat -> nat -> comparison) (fuel : nat)
    (work : list nat) (pivot left right : nat) : nat :=
  match fuel with
  | O => left
  | S fuel' =>
      if (left <? right)%nat then
        let mid := (left + (right - left) / 2)%nat in
        match nth_error work mid with
        | Some m =>
            if JsArray.isLt (answers pivot m)
            then searchPlace answers fuel' work pivot left mid
            else searchPlace answers fuel' work pivot (S mid) right
        | None => left
        end
      else left
  end.

Definition insertAt (work : list nat) (pivot place : nat) : list nat :=
  firstn place work ++ pivot :: skipn place work.

(** The order in which V8 leaves an array of fewer than 64 elements: the
    run the array starts with is kept, reversed when it descends, and
    each further element is inserted at the place a binary search gives
    it. *)
Definition binaryInsertion (n : nat) (answers : nat -> nat -> comparison) : list nat :=
  match seq 0 n with
  | first :: second :: others =>
      let descending := JsArray.isLt (answers second first) in
      let run := (2 + runLength answers descending second others)%nat in
      let initial := firstn run (seq 0 n) in
      fold_left
        (fun work pivot =>
           insertAt work pivot
             (searchPlace answers (S (length work)) work pivot 0 (length work)))
        (skipn run (seq 0 n))
        (if descending then rev initial else initial)
  | short => short
  end.

Definition engine : Runtime :=
  {| dateTime := isoDateTime;
     localeCompare := codeUnitCompare;
     arrange := binaryInsertion |}.

Definition tradeRecord (id day instr sd qty price : string) : Server.Trade :=
  {| Server.trade_id := id;
     Server.trade_date := day;
     Server.trader := "Unknown";
     Server.instrument := instr;
     Server.side := sd;
     Server.quantity := parseFloat qty;
     Server.trade_price := parseFloat price;
     Server.currency := "USD" |}.

Definition priceRecord (instr day close : string) : MarketPrice.t :=
  {| MarketPrice.instrument := Some instr;
     MarketPrice.price_date := Some day;
     MarketPrice.close_price := parseFloat close |}.

(** Two trades in WTI crude, a purchase and a sale of 1000 at 75.50, and a
    purchase of an instrument that has no price; three closes of WTI
    crude, the latest one, of 16 January, being 76.00. *)
Definition crudeStore : Server.Store :=
  {| Server.kv_trades :=
       Some [ tradeRecord "T001" "2025-01-15" "WTI-CRUDE" "BUY" "1000" "75.50";
              tradeRecord "T002" "2025-01-15" "WTI-CRUDE" "SELL" "1000" "75.50";
              tradeRecord "T003" "2025-01-15" "NATGAS" "BUY" "500" "3.10" ];
     Server.kv_market_prices :=
       Some [ priceRecord "WTI-CRUDE" "2025-01-10" "70.00";
              priceRecord "WTI-CRUDE" "2025-01-16" "76.00";
              priceRecord "WTI-CRUDE" "2025-01-12" "80.00" ] |}.

(** Three closes of WTI crude, the second one without a date. *)
Definition undatedBetween : list MarketPrice.t :=
  [ priceRecord "WTI-CRUDE" "2025-01-10" "70.00";
    {| MarketPrice.instrument := Some "WTI-CRUDE";
       MarketPrice.price_date := None;
       MarketPrice.close_price := parseFloat "73.00" |};
    priceRecord "WTI-CRUDE" "2025-01-16" "76.00" ].

(** A price file whose first data line stops before the date. *)
Definition undatedPriceCsv : string :=
  joinLines [ "instrument,close_price,price_date";
              "WTI-CRUDE,70.00";
              "WTI-CRUDE,76.00,2025-01-16" ].

(** One purchase of 1000 WTI crude at 75.50, and the prices of that
    file. *)
Definition undatedPriceStore : Server.Store :=
  snd (fst (Server.uploadMarketPrices (Some undatedPriceCsv)
              {| Server.kv_trades :=
                   Some [ tradeRecord "T001" "2025-01-15" "WTI-CRUDE" "BUY"
                            "1000" "75.50" ];
                 Server.kv_market_prices := None |})).

(** Prices as uploaded from a file whose BRENT close is not a number. *)
Definition unpricedBrentCsv : string :=
  joinLines [ "instrument,price_date,close_price";
              "BRENT,2025-01-16,n/a";
              "WTI-CRUDE,2025-01-16,76.00" ].

(** Two trades of the same day, the first in BRENT, the second in WTI
    crude. *)
Definition sameDayTrades : Server.Store :=
  {| Server.kv_trades :=
       Some [ tradeRecord "T001" "2025-01-15" "BRENT" "BUY" "500" "78.25";
              tradeRecord "T002" "2025-01-15" "WTI-CRUDE" "BUY" "1000" "75.50" ];
     Server.kv_market_prices := None |}.

(** The store after the upload of those prices. *)
Definition unpricedBrentStore : Server.Store :=
  snd (fst (Server.uploadMarketPrices (Some unpricedBrentCsv) sameDayTrades)).

(** GET /pnl with no filter. *)
Definition allPnL : Server.PnLQuery :=
  {| Server.p_from := None; Server.p_to := None; Server.p_instrument := None |}.

(** GET /trades with the given [page] and [limit] and no filter. *)
Definition pageQuery (page limit : option string) : Server.TradesQuery :=
  {| Server.q_from := None; Server.q_to := None;
     Server.q_instrument := None; Server.q_trader := None;
     Server.q_page := page; Server.q_limit := limit |}.

End Engine.

(** ** Vocabulary of the specification *)

Module Spec.

Import JsString Num Server.

(** A required property is missing when it is absent or empty. *)
Definition missing (r : RawRow) (name : string) : bool :=
  negb (JsString.truthy (field r name)).

(** The six rules of the validator with their messages, a rule being
    paired with whether the row violates it: a number must be present and
    must not parse to NaN. *)
Definition ruleChecks (r : RawRow) : list (bool * string) :=
  [ (missing r "trade_id", "trade_id is required");
    (missing r "trade_date", "trade_date is required");
    (missing r "instrument", "instrument is required");
    (missing r "side" || negb (sideListed (field r "side")),
     "side must be BUY or SELL");
    (missing r "quantity" || Num.isNaN (parseFloatValue (field r "quantity")),
     "quantity must be a valid number");
    (missing r "trade_price" || Num.isNaN (parseFloatValue (field r "trade_price")),
     "trade_price must be a valid number") ].

Definition isValidRow (r : RawRow) : bool := valid (validateTrade r).

Definition invalidOf (r : RawRow) : InvalidTrade :=
  {| row := r; row_errors := errors (validateTrade r) |}.

(** The trade collection as a handler reads it. *)
Definition storedTrades (s : Store) : list Trade :=
  match kv_trades s with Some l => l | None => [] end.

Definition storedPrices (s : Store) : list MarketPrice.t :=
  match kv_market_prices s with Some l => l | None => [] end.

(** The identifier holds at least one digit. *)
Definition hasDigit (id : string) : bool :=
  negb (String.eqb (stripNonDigits id) EmptyString).

(** The integer written by the digits of the identifier. *)
Definition digitsOf (id : string) : Z := digitsValue (stripNonDigits id).

Fixpoint digitsOnly (s : string) : bool :=
  match s with
  | EmptyString => true
  | String c s' => isDigit c && digitsOnly s'
  end.

(** A query parameter is given when it is present and not empty. *)
Definition given (param : option string) (x : string) : Prop :=
  param = Some x /\ x <> EmptyString.


(** The state in which the valuation loop starts. *)
Definition initialState : PnLState :=
  {| st_totalPnL := Num.zero; st_dailyPnL := []; st_tradesPnL := [] |}.

(** What one turn of the valuation loop pushes for a trade: nothing, or
    the trade with its market price and its MtM. *)
Definition valuation {runtime : Runtime} (marketPrices : list MarketPrice.t)
    (t : Trade) : list ValuedTrade :=
  st_tradesPnL (valueTrade marketPrices initialState t).

(** The prices recorded for an instrument. *)
Definition pricesFor (marketPrices : list MarketPrice.t) (t : Trade)
    : list MarketPrice.t :=
  List.filter (priceIsFor (instrument t)) marketPrices.

(** The time value of a price date, 0 when it has none. *)
Definition priceTime {runtime : Runtime} (p : MarketPrice.t) : Z :=
  match getTime (MarketPrice.price_date p) with
  | IntNum.IInt ms => ms
  | _ => 0
  end.

Definition hasValidDate {runtime : Runtime} (p : MarketPrice.t) : Prop :=
  exists ms : Z, getTime (MarketPrice.price_date p) = IntNum.IInt ms.

(** The same trade on the other side of the market, or any side. *)
Definition withSide (t : Trade) (sd : string) : Trade :=
  {| trade_id := trade_id t; trade_date := trade_date t; trader := trader t;
     instrument := instrument t; side := sd; quantity := quantity t;
     trade_price := trade_price t; currency := currency t |}.

(** The sum of a list of Numbers, added from the left to zero. *)
Definition sumNumbers (l : list number) : number :=
  fold_left Num.add l Num.zero.

(** The figure the valuation loop keeps for a day whose valued trades have
    the given MtM values, in order: each value is added to the figure so
    far read through [|| 0]; no figure when the day has no valued
    trade. *)
Definition dailyFigure (ms : list number) : option number :=
  fold_left (fun acc m => Some (Num.add (orZero acc) m)) ms None.

(** The running sums of a list of Numbers, from [acc] on. *)
Fixpoint runningSums (acc : number) (ms : list number) : list number :=
  match ms with
  | [] => []
  | m :: rest => Num.add acc m :: runningSums (Num.add acc m) rest
  end.

(** A running sum that [|| 0] leaves as it is: any Number but NaN and
    negative zero. *)
Definition keptByOrZero (x : number) : Prop := orZero (Some x) = x.

(** The MtM values of the entries dated [day]. *)
Definition mtmOfDay (day : string) (entries : list ValuedTrade) : list number :=
  map mtm (List.filter (fun v => String.eqb (trade_date (trade v)) day) entries).

(** The time value of a day, 0 when the text is no valid date. *)
Definition dayTime {runtime : Runtime} (d : DailyPnL) : Z :=
  match getTime (Some (date d)) with
  | IntNum.IInt ms => ms
  | _ => 0
  end.

(** A row that passes every rule although its quantity is no finite
    number. *)
Definition infinityRow : RawRow :=
  list_to_map
    [ ("trade_id", Some "T001"); ("trade_date", Some "2025-01-15");
      ("instrument", Some "WTI-CRUDE"); ("side", Some "buy");
      ("quantity", Some "Infinity"); ("trade_price", Some "75.50") ].

(** The integral Number [v] is the offset [x] into an array: [x] itself
    below 2^53, where every integer is a Number, and from there on some
    Number from 2^53 up or infinity, which every array ends before, as it
    does before [x]. *)
Definition isOffset (x : Z) (v : IntNum.intnum) : Prop :=
  if x <? 2 ^ 53 then v = IntNum.IInt x
  else v = IntNum.IInf false \/ exists m : Z, v = IntNum.IInt m /\ 2 ^ 53 <= m.

End Spec.

(** ** The other handlers of the server *)

Module Handlers.

Import JsString IntNum Num Server.

(** *** POST /trades *)

(** An amount in the JSON body of the request: a string or a Number. *)
Inductive Amount : Type :=
  | AmountText (s : string)
  | AmountNumber (x : number).

(** The JSON body of POST /trades, read at the eight properties the
    handler uses.  A text property is a string, or [None] when it is
    absent or [null]; an amount is a string or a Number, or [None].  A
    body that gives a text property another type is outside this record:
    the handler throws on a [side] that has no [toUpperCase], and it
    stores an identifier that is a Number as it is, after which GET
    /trades throws on the [replace] that the identifier lacks.  What is
    proved of the trade that POST /trades creates is proved of bodies
    whose text properties are strings. *)
Record TradeJson : Type := {
  json_trade_id : option string;
  json_trade_date : option string;
  json_trader : option string;
  json_instrument : option string;
  json_side : option string;
  json_quantity : option Amount;
  json_trade_price : option Amount;
  json_currency : option string
}.

(** Truthiness of an amount: the empty string, both zeros and NaN are
    falsy. *)
Definition amountTruthy (v : option Amount) : bool :=
  match v with
  | Some (AmountText s) => negb (String.eqb s "")
  | Some (AmountNumber x) => Num.truthy x
  | None => false
  end.

(** [parseFloat(v)] on an amount. *)
Definition parseFloatAmount (v : option Amount) : number :=
  match v with
  | Some (AmountText s) => parseFloat s
  | Some (AmountNumber x) => parseFloatNumber x
  | None => NaN
  end.

(** [validateTrade(trade)] where [trade] is the JSON body. *)
Definition validateJson (trade : TradeJson) : Validation :=
  let errors := [] in
  let errors := pushIf (negb (JsString.truthy (json_trade_id trade)))
                  "trade_id is required" errors in
  let errors := pushIf (negb (JsString.truthy (json_trade_date trade)))
                  "trade_date is required" errors in
  let errors := pushIf (negb (JsString.truthy (json_instrument trade)))
                  "instrument is required" errors in
  let errors := pushIf (negb (JsString.truthy (json_side trade))
                        || negb (sideListed (json_side trade)))
                  "side must be BUY or SELL" errors in
  let errors := pushIf (negb (amountTruthy (json_quantity trade))
                        || Num.isNaN (parseFloatAmount (json_quantity trade)))
                  "quantity must be a valid number" errors in
  let errors := pushIf (negb (amountTruthy (json_trade_price trade))
                        || Num.isNaN (parseFloatAmount (json_trade_price trade)))
                  "trade_price must be a valid number" errors in
  {| valid := (length errors =? 0)%nat; errors := errors |}.

(** The object [newTrade]. *)
Definition newTradeOf (trade : TradeJson) : Trade :=
  {| trade_id := present (json_trade_id trade);
     trade_date := present (json_trade_date trade);
     trader := orDefault (json_trader trade) "Unknown";
     instrument := present (json_instrument trade);
     side := toUpperCase (present (json_side trade));
     quantity := parseFloatAmount (json_quantity trade);
     trade_price := parseFloatAmount (json_trade_price trade);
     currency := orDefault (json_currency trade) "USD" |}.

(** What POST /trades sends: [{ success: true, trade }], or status 400
    with [{ error: 'Invalid trade data', errors }]. *)
Inductive CreateReply : Type :=
  | Created (trade : Trade)
  | Rejected (status : Z) (error : string) (errors : list string).

Definition createTrade (trade : TradeJson) : Kv CreateReply :=
  let validation := validateJson trade in
  if negb (valid validation)
  then ret (Rejected 400 "Invalid trade data" (errors validation))
  else
    let newTrade := newTradeOf trade in
    await existingTrades := getTrades in
    run setTrades (existingTrades ++ [newTrade]) in
    ret (Created newTrade).

(** *** GET /market-prices *)

Definition listMarketPrices : Kv (Reply (list MarketPrice.t)) :=
  await prices := getMarketPrices in
  ret (Json prices).

(** *** GET /instruments and GET /traders *)

(** [set.add(x)] on the elements of a Set of strings in insertion
    order. *)
Definition setAdd (elements : list string) (x : string) : list string :=
  if existsb (String.eqb x) elements then elements else elements ++ [x].

(** [new Set(values)], as the list of its elements in insertion order,
    which is also what spreading the Set gives. *)
Definition newSet (values : list string) : list string :=
  fold_left setAdd values [].

Definition listInstruments : Kv (Reply (list string)) :=
  await trades := getTrades in
  let instruments := newSet (map instrument trades) in
  ret (Json instruments).

Definition listTraders : Kv (Reply (list string)) :=
  await trades := getTrades in
  let traders := newSet (map trader trades) in
  ret (Json traders).

(** *** DELETE /trades, /market-prices and /all-data *)

(** [{ success: true, message }] *)
Record Cleared : Type := { cleared_success : bool; cleared_message : string }.

Definition clearTrades : Kv (Reply Cleared) :=
  run setTrades [] in
  ret (Json {| cleared_success := true; cleared_message := "All trades cleared" |}).

Definition clearMarketPrices : Kv (Reply Cleared) :=
  run setMarketPrices [] in
  ret (Json {| cleared_success := true;
               cleared_message := "All market prices cleared" |}).

Definition clearAllData : Kv (Reply Cleared) :=
  run setTrades [] in
  run setMarketPrices [] in
  ret (Json {| cleared_success := true;
               cleared_message := "All data cleared successfully" |}).

(** *** GET /stats *)

Record Stats : Type := {
  totalTrades : nat;
  uniqueInstruments : nat;
  uniqueTraders : nat;
  totalVolume : number;
  totalNotional : number;
  marketPricesCount : nat
}.

Definition getStats : Kv (Reply Stats) :=
  await trades := getTrades in
  await marketPrices := getMarketPrices in
  let totalTrades := length trades in
  let uniqueInstruments := length (newSet (map instrument trades)) in
  let uniqueTraders := length (newSet (map trader trades)) in
  let totalVolume :=
    fold_left (fun sum t => Num.add sum (parseFloatNumber (quantity t))) trades Num.zero in
  let totalNotional :=
    fold_left (fun sum t =>
                 Num.add sum (Num.mul (parseFloatNumber (quantity t))
                                      (parseFloatNumber (trade_price t))))
      trades Num.zero in
  ret (Json {| totalTrades := totalTrades;
               uniqueInstruments := uniqueInstruments;
               uniqueTraders := uniqueTraders;
               totalVolume := totalVolume;
               totalNotional := totalNotional;
               marketPricesCount := length marketPrices |}).

End Handlers.

(** ** Vocabulary of the further properties *)

Module Terms.

Import JsString Num Server Handlers Spec.

(** The string holds the character. *)
Fixpoint hasChar (c : ascii) (s : string) : bool :=
  match s with
  | EmptyString => false
  | String d s' => Ascii.eqb d c || hasChar c s'
  end.

(** The string is made of white space only. *)
Fixpoint allWhiteSpace (s : string) : bool :=
  match s with
  | EmptyString => true
  | String c s' => isWhiteSpace c && allWhiteSpace s'
  end.

(** The pieces with [w] appended to the last one. *)
Fixpoint appendLast (pieces : list string) (w : string) : list string :=
  match pieces with
  | [] => []
  | [p] => [String.append p w]
  | p :: rest => p :: appendLast rest w
  end.

(** The pieces with [w] appended to each one but the last. *)
Fixpoint appendInner (pieces : list string) (w : string) : list string :=
  match pieces with
  | [] => []
  | [p] => [p]
  | p :: rest => String.append p w :: appendInner rest w
  end.

Definition CR : ascii := ascii_of_nat 13.

(** The text with a carriage return put before every line feed: the same
    lines with Windows line ends. *)
Fixpoint toCRLF (s : string) : string :=
  match s with
  | EmptyString => EmptyString
  | String c s' =>
      if Ascii.eqb c LF then String CR (String LF (toCRLF s'))
      else String c (toCRLF s')
  end.

(** What validation and normalisation guarantee of a stored trade. *)
Definition wellFormed (t : Trade) : bool :=
  negb (String.eqb (trade_id t) "")
  && negb (String.eqb (trade_date t) "")
  && negb (String.eqb (instrument t) "")
  && (String.eqb (side t) "BUY" || String.eqb (side t) "SELL")
  && negb (Num.isNaN (quantity t))
  && negb (Num.isNaN (trade_price t))
  && negb (String.eqb (trader t) "")
  && negb (String.eqb (currency t) "").

(** The JSON body whose properties are the fields of a CSV row. *)
Definition jsonOfRow (r : RawRow) : TradeJson :=
  {| json_trade_id := field r "trade_id";
     json_trade_date := field r "trade_date";
     json_trader := field r "trader";
     json_instrument := field r "instrument";
     json_side := field r "side";
     json_quantity := option_map AmountText (field r "quantity");
     json_trade_price := option_map AmountText (field r "trade_price");
     json_currency := field r "currency" |}.

(** The trades an upload adds to the collection: the normalised valid
    rows of the file, in file order. *)
Definition uploadedTrades (file : option string) : list Trade :=
  match file with
  | Some csvText => map normalizeTrade (List.filter isValidRow (parseCSV csvText))
  | None => []
  end.

(** The same JSON body with another quantity. *)
Definition withQuantity (trade : TradeJson) (q : Amount) : TradeJson :=
  {| json_trade_id := json_trade_id trade;
     json_trade_date := json_trade_date trade;
     json_trader := json_trader trade;
     json_instrument := json_instrument trade;
     json_side := json_side trade;
     json_quantity := Some q;
     json_trade_price := json_trade_price trade;
     json_currency := json_currency trade |}.

(** The six rules of the validator as it reads a JSON body. *)
Definition jsonChecks (trade : TradeJson) : list (bool * string) :=
  [ (negb (JsString.truthy (json_trade_id trade)), "trade_id is required");
    (negb (JsString.truthy (json_trade_date trade)), "trade_date is required");
    (negb (JsString.truthy (json_instrument trade)), "instrument is required");
    (negb (JsString.truthy (json_side trade)) || negb (sideListed (json_side trade)),
     "side must be BUY or SELL");
    (negb (amountTruthy (json_quantity trade))
     || Num.isNaN (parseFloatAmount (json_quantity trade)),
     "quantity must be a valid number");
    (negb (amountTruthy (json_trade_price trade))
     || Num.isNaN (parseFloatAmount (json_trade_price trade)),
     "trade_price must be a valid number") ].



(** The P&L request for a single day. *)
Definition dayQuery (day : string) (instr : option string) : PnLQuery :=
  {| p_from := Some day; p_to := Some day; p_instrument := instr |}.

(** The P&L request for every day. *)
Definition undated (instr : option string) : PnLQuery :=
  {| p_from := None; p_to := None; p_instrument := instr |}.

(** The amounts of a trade and the close of a price are finite. *)
Definition finiteTrade (t : Trade) : bool :=
  Num.isFinite (quantity t) && Num.isFinite (trade_price t).

Definition finitePrice (p : MarketPrice.t) : bool :=
  Num.isFinite (MarketPrice.close_price p).

(** The store a handler leaves, and the body it sends. *)
Definition storeAfter {A : Type} (m : Kv A) (s : Store) : Store := snd (fst (m s)).

Definition replyOf {A : Type} (m : Kv A) (s : Store) : A := fst (fst (m s)).

Definition callsOf {A : Type} (m : Kv A) (s : Store) : list KvCall := snd (m s).

(** The trades on the page a listing request returns. *)
Definition pageOf {runtime : Runtime} (q : TradesQuery) (s : Store) : list Trade :=
  match replyOf (listTrades q) s with
  | Json body => trades body
  | Failure _ _ => []
  end.

(** The same listing request for another page. *)
Definition withPage (q : TradesQuery) (pg : option string) : TradesQuery :=
  {| q_from := q_from q; q_to := q_to q; q_instrument := q_instrument q;
     q_trader := q_trader q; q_page := pg; q_limit := q_limit q |}.

(** The same listing request with the instrument and the trader filter
    rewritten by [f]. *)
Definition mapNameFilters (f : string -> string) (q : TradesQuery) : TradesQuery :=
  {| q_from := q_from q; q_to := q_to q;
     q_instrument := option_map f (q_instrument q);
     q_trader := option_map f (q_trader q);
     q_page := q_page q; q_limit := q_limit q |}.

(** A filter text made of ASCII characters, if there is one: on such a
    text the case conversions of [JsString] are the engine's. *)
Definition isAsciiText (text : option string) : bool :=
  match text with
  | Some t => forallb (fun c => (nat_of_ascii c <? 128)%nat) (list_ascii_of_string t)
  | None => true
  end.

(** The listing request with the filters of a P&L request and no trader
    filter. *)
Definition listingOf (q : PnLQuery) (pg lim : option string) : TradesQuery :=
  {| q_from := p_from q; q_to := p_to q; q_instrument := p_instrument q;
     q_trader := None; q_page := pg; q_limit := lim |}.

(** The volume and the notional that GET /stats adds for one trade. *)
Definition volumeOf (t : Trade) : number := parseFloatNumber (quantity t).

Definition notionalOf (t : Trade) : number :=
  Num.mul (parseFloatNumber (quantity t)) (parseFloatNumber (trade_price t)).

End Terms.

(** * Properties *)

Import JsString Server Spec.

(** ** The CSV parser *)

Section ParseCSV.

Lemma split_nonempty (sep : ascii) (s : string) : split sep s <> [].
Proof.
  induction s as [|c s IH]; simpl; [discriminate|].
  destruct (Ascii.eqb c sep); [discriminate|].
  destruct (split sep s); discriminate.
Qed.

Lemma split_length (sep : ascii) (s : string) : (1 <= length (split sep s))%nat.
Proof.
  pose proof (split_nonempty sep s) as H.
  destruct (split sep s); [congruence | simpl; lia].
Qed.

Lemma assignFields_other (headers : list string) (index : nat)
    (values : list string) (r : RawRow) (k : string) :
  k ∉ headers -> assignFields headers index values r !! k = r !! k.
Proof.
  revert index r. induction headers as [|h rest IH]; intros index r Hk; simpl; [done|].
  apply not_elem_of_cons in Hk as [Hne Hrest].
  rewrite IH by done. by rewrite lookup_insert_ne.
Qed.

Lemma assignFields_last (headers : list string) (index : nat)
    (values : list string) (r : RawRow) (j : nat) (h : string) :
  headers !! j = Some h ->
  (forall j', (j < j')%nat -> headers !! j' <> Some h) ->
  assignFields headers index values r !! h = Some (values !! (index + j)%nat).
Proof.
  revert index r j. induction headers as [|h0 rest IH]; intros index r j Hj Hlast; [done|].
  destruct j as [|j]; simpl in *.
  - injection Hj as ->.
    rewrite assignFields_other.
    + rewrite lookup_insert_eq. by rewrite Nat.add_0_r.
    + intros Hin. apply list_elem_of_lookup in Hin as [i Hi].
      apply (Hlast (S i)); [lia | done].
  - rewrite (IH (S index) _ j Hj).
    + f_equal. f_equal. lia.
    + intros j' Hlt. apply (Hlast (S j')). lia.
Qed.

Lemma assignFields_keys (headers : list string) (index : nat)
    (values : list string) (r : RawRow) (k : string) :
  is_Some (assignFields headers index values r !! k) <-> k ∈ headers \/ is_Some (r !! k).
Proof.
  revert index r. induction headers as [|h rest IH]; intros index r; simpl.
  - split; [by right | intros [Hin | H]; [by apply elem_of_nil in Hin | done]].
  - rewrite IH. rewrite elem_of_cons.
    destruct (decide (k = h)) as [->|Hne].
    + rewrite lookup_insert_eq. split; [intros _; by left; left | eauto].
    + rewrite lookup_insert_ne by done.
      split; [intros [H | H]; [left; by right | by right]
             | intros [[H | H] | H]; [done | by left | by right]].
Qed.

Lemma parseLine_keys (headers : list string) (line : string) (k : string) :
  is_Some (parseLine headers line !! k) <-> k ∈ headers.
Proof.
  unfold parseLine. rewrite assignFields_keys, lookup_empty.
  split; [intros [H | [x Hx]]; [done | discriminate] | by left].
Qed.

Lemma parseLine_value (headers : list string) (line : string) (j : nat) (h : string) :
  headers !! j = Some h ->
  (forall j', (j < j')%nat -> headers !! j' <> Some h) ->
  parseLine headers line !! h = Some (map trim (split COMMA line) !! j).
Proof.
  intros Hj Hlast. unfold parseLine.
  by rewrite (assignFields_last _ 0 _ _ j h Hj Hlast).
Qed.

Lemma parseCSV_unfold (csvText : string) :
  parseCSV csvText =
  match split LF (trim csvText) with
  | headerLine :: line1 :: rest =>
      map (parseLine (map trim (split COMMA headerLine))) (line1 :: rest)
  | _ => []
  end.
Proof.
  unfold parseCSV. destruct (split LF (trim csvText)) as [|l0 [|l1 rest]]; reflexivity.
Qed.

End ParseCSV.

Section ParseCSVClaim.

(** C8, as the code has it.  The lines are those of the text with its
    leading and trailing white space removed, line breaks included, and
    not those of the text as it came.  With [lines] the lines of the
    trimmed text: fewer than two lines give no row; otherwise there is one
    row per line after the header line, the row of a line has exactly the
    trimmed header fields as keys, a header field holds the trimmed value
    found at its position in the line (the last position, should the name
    occur twice), and that value is [undefined] when the line is too short
    to have one. *)
Theorem parseCSV_rows (csvText : string) :
  let lines := split LF (trim csvText) in
  let headers := map trim (split COMMA (hd EmptyString lines)) in
  ((length lines < 2)%nat -> parseCSV csvText = []) /\
  ((2 <= length lines)%nat ->
     length (parseCSV csvText) = (length lines - 1)%nat /\
     forall (i : nat) (line : string),
       lines !! S i = Some line ->
       exists r : RawRow,
         parseCSV csvText !! i = Some r /\
         (forall k, is_Some (r !! k) <-> k ∈ headers) /\
         (forall (j : nat) (h : string),
            headers !! j = Some h ->
            (forall j', (j < j')%nat -> headers !! j' <> Some h) ->
            r !! h = Some (map trim (split COMMA line) !! j) /\
            ((length (split COMMA line) <= j)%nat -> field r h = None))).
Proof.
  intros lines headers. subst headers. rewrite parseCSV_unfold. fold lines.
  destruct lines as [|l0 [|l1 rest]] eqn:E; simpl.
  - split; [done | lia].
  - split; [done | lia].
  - split; [lia | intros _].
    split; [by rewrite length_map; simpl; lia |].
    intros i line Hline.
    exists (parseLine (map trim (split COMMA l0)) line).
    split.
    { change (map (parseLine (map trim (split COMMA l0))) (l1 :: rest) !! i
              = Some (parseLine (map trim (split COMMA l0)) line)).
      rewrite list_lookup_fmap. by rewrite Hline. }
    split; [apply parseLine_keys |].
    intros j h Hj Hlast.
    pose proof (parseLine_value _ line j h Hj Hlast) as Hv.
    split; [exact Hv |].
    intros Hshort. unfold field. rewrite Hv.
    apply lookup_ge_None_2. by rewrite length_map.
Qed.

End ParseCSVClaim.

Lemma parseCSV_rows_witness :
  parseCSV "trade_id,side" = []
  /\ length (parseCSV (Engine.joinLines ["a,b"; "1,2"; "3"])) = 2%nat.
Proof.
  split.
  - apply (proj1 (parseCSV_rows "trade_id,side")). vm_compute. lia.
  - destruct (proj2 (parseCSV_rows (Engine.joinLines ["a,b"; "1,2"; "3"]))) as [Hlen _].
    + vm_compute. lia.
    + rewrite Hlen. reflexivity.
Defined.

(** C8, counterexample: a text that ends with a line break has one line
    more than its trimmed text.  Here a header line and a data line are
    followed by an empty third line; the text has three lines and gives
    one row, not two.  A text that is a blank line followed by a header
    line has two lines and gives no row. *)
Lemma parseCSV_counts_trimmed_lines :
  length (split LF (Engine.joinLines ["a,b"; "1,2"; ""])) = 3%nat
  /\ length (parseCSV (Engine.joinLines ["a,b"; "1,2"; ""])) = 1%nat
  /\ length (split LF (Engine.joinLines [""; "a,b"])) = 2%nat
  /\ parseCSV (Engine.joinLines [""; "a,b"]) = [].
Proof. repeat split; vm_compute; reflexivity. Qed.

(** ** The trade validator *)

Section ValidateTrade.

Lemma pushIf_app (cond : bool) (msg : string) (errs : list string) :
  pushIf cond msg errs = errs ++ (if cond then [msg] else []).
Proof. destruct cond; simpl; [reflexivity | by rewrite app_nil_r]. Qed.

Lemma validateTrade_errors_eq (r : RawRow) :
  errors (validateTrade r) = map snd (List.filter fst (ruleChecks r)).
Proof.
  unfold validateTrade, ruleChecks, missing. cbn [errors].
  generalize (negb (JsString.truthy (field r "trade_id"))),
             (negb (JsString.truthy (field r "trade_date"))),
             (negb (JsString.truthy (field r "instrument"))),
             (negb (JsString.truthy (field r "side"))
              || negb (sideListed (field r "side"))),
             (negb (JsString.truthy (field r "quantity"))
              || Num.isNaN (Num.parseFloatValue (field r "quantity"))),
             (negb (JsString.truthy (field r "trade_price"))
              || Num.isNaN (Num.parseFloatValue (field r "trade_price"))).
  intros b1 b2 b3 b4 b5 b6.
  destruct b1, b2, b3, b4, b5, b6; reflexivity.
Qed.

Lemma validateTrade_valid_eq (r : RawRow) :
  valid (validateTrade r) = (length (errors (validateTrade r)) =? 0)%nat.
Proof. reflexivity. Qed.

Lemma sideListed_iff (v : option string) :
  sideListed v = true <->
  exists s, v = Some s /\ (toUpperCase s = "BUY" \/ toUpperCase s = "SELL").
Proof.
  destruct v as [s|]; simpl.
  - rewrite !orb_true_iff, !String.eqb_eq.
    split.
    + intros [H | [H | H]]; [| | discriminate]; exists s; split; auto.
    + intros (s' & [= <-] & [H | H]); auto.
  - split; [discriminate | intros (s & H & _); discriminate].
Qed.

Lemma no_violation_iff (checks : list (bool * string)) :
  map snd (List.filter fst checks) = [] <-> List.Forall (fun c => fst c = false) checks.
Proof.
  induction checks as [|[b msg] rest IH]; simpl.
  - split; [constructor | reflexivity].
  - destruct b; simpl.
    + split; [discriminate | intros H; inversion H; discriminate].
    + rewrite IH. split; [by constructor | intros H; by inversion H].
Qed.

Lemma sideListed_truthy (v : option string) :
  sideListed v = true -> JsString.truthy v = true.
Proof. destruct v as [[|c x]|]; [discriminate | reflexivity | discriminate]. Qed.

Lemma valid_iff_rules (r : RawRow) :
  valid (validateTrade r) = true <->
  JsString.truthy (field r "trade_id") = true
  /\ JsString.truthy (field r "trade_date") = true
  /\ JsString.truthy (field r "instrument") = true
  /\ sideListed (field r "side") = true
  /\ (JsString.truthy (field r "quantity") = true
      /\ Num.isNaN (Num.parseFloatValue (field r "quantity")) = false)
  /\ (JsString.truthy (field r "trade_price") = true
      /\ Num.isNaN (Num.parseFloatValue (field r "trade_price")) = false).
Proof.
  rewrite validateTrade_valid_eq, Nat.eqb_eq, length_zero_iff_nil.
  rewrite validateTrade_errors_eq, no_violation_iff.
  unfold ruleChecks, missing.
  rewrite !List.Forall_cons_iff. cbn [fst].
  rewrite !orb_false_iff, !negb_false_iff.
  pose proof (sideListed_truthy (field r "side")) as Hside.
  split; intros H; decompose [and] H; repeat split; auto using List.Forall_nil.
Qed.

(** C6, as the code has it.  The error list is made of the messages of the
    violated rules, one each and in rule order, whatever the other rules
    say; the row is valid exactly when the list is empty, that is when no
    rule is violated.  The three identifiers must be present, the side
    must be BUY or SELL once upper-cased, and a number must be present and
    parse to something other than NaN. *)
Theorem validateTrade_reports_each_violation (r : RawRow) :
  errors (validateTrade r) = map snd (List.filter fst (ruleChecks r))
  /\ length (errors (validateTrade r)) = length (List.filter fst (ruleChecks r))
  /\ (valid (validateTrade r) = true <-> errors (validateTrade r) = [])
  /\ (valid (validateTrade r) = true <->
      JsString.truthy (field r "trade_id") = true
      /\ JsString.truthy (field r "trade_date") = true
      /\ JsString.truthy (field r "instrument") = true
      /\ (exists s, field r "side" = Some s
                    /\ (toUpperCase s = "BUY" \/ toUpperCase s = "SELL"))
      /\ (JsString.truthy (field r "quantity") = true
          /\ Num.isNaN (Num.parseFloatValue (field r "quantity")) = false)
      /\ (JsString.truthy (field r "trade_price") = true
          /\ Num.isNaN (Num.parseFloatValue (field r "trade_price")) = false)).
Proof.
  pose proof (validateTrade_errors_eq r) as He.
  split; [exact He |].
  split; [by rewrite He, length_map |].
  assert (Hv : valid (validateTrade r) = true <-> errors (validateTrade r) = []).
  { rewrite validateTrade_valid_eq, Nat.eqb_eq. apply length_zero_iff_nil. }
  split; [exact Hv |].
  rewrite <- sideListed_iff. apply valid_iff_rules.
Qed.

(** C6, counterexample: a row whose quantity is the text [Infinity] is
    valid, with no error, although that text is not a finite number. *)
Lemma validateTrade_accepts_Infinity :
  valid (validateTrade infinityRow) = true
  /\ errors (validateTrade infinityRow) = []
  /\ Num.isFinite (Num.parseFloatValue (field infinityRow "quantity")) = false.
Proof. vm_compute. repeat split. Qed.

End ValidateTrade.

(** ** The upload handlers *)

Section Uploads.

Lemma firstn_min_length {A : Type} (n : nat) (l : list A) :
  firstn (Nat.min n (length l)) l = firstn n l.
Proof.
  destruct (Nat.le_ge_cases n (length l)) as [H | H].
  - by rewrite Nat.min_l.
  - rewrite Nat.min_r by done. by rewrite firstn_all, firstn_all2.
Qed.

Lemma slice_first {A : Type} (l : list A) (n : Z) :
  0 <= n -> JsArray.slice l (IntNum.IInt 0) (IntNum.IInt n) = firstn (Z.to_nat n) l.
Proof.
  intros Hn. unfold JsArray.slice, IntNum.relativeIndex.
  replace (0 <? 0) with false by reflexivity.
  replace (n <? 0) with false by (symmetry; apply Z.ltb_ge; lia).
  rewrite (Z.min_l 0) by lia. simpl skipn.
  rewrite Z.sub_0_r, Z2Nat.inj_min, Nat2Z.id.
  apply firstn_min_length.
Qed.

Lemma classifyRows_from (rows : list RawRow) (vs : list Trade) (ivs : list InvalidTrade) :
  fold_left classifyRow rows (vs, ivs) =
  (vs ++ map normalizeTrade (List.filter isValidRow rows),
   ivs ++ map invalidOf (List.filter (fun r => negb (isValidRow r)) rows)).
Proof.
  revert vs ivs. induction rows as [|r rows IH]; intros vs ivs.
  - simpl. by rewrite !app_nil_r.
  - cbn [fold_left List.filter].
    destruct (isValidRow r) eqn:Hv; unfold isValidRow in Hv.
    + replace (classifyRow (vs, ivs) r) with (vs ++ [normalizeTrade r], ivs)
        by (unfold classifyRow; by rewrite Hv).
      rewrite IH. cbn [negb map]. rewrite <- !app_assoc. reflexivity.
    + replace (classifyRow (vs, ivs) r) with (vs, ivs ++ [invalidOf r])
        by (unfold classifyRow; by rewrite Hv).
      rewrite IH. cbn [negb map]. rewrite <- !app_assoc. reflexivity.
Qed.

Lemma classifyRows_eq (rows : list RawRow) :
  classifyRows rows =
  (map normalizeTrade (List.filter isValidRow rows),
   map invalidOf (List.filter (fun r => negb (isValidRow r)) rows)).
Proof. unfold classifyRows. by rewrite classifyRows_from. Qed.

Lemma filter_partition_length {A : Type} (f : A -> bool) (l : list A) :
  (length (List.filter f l) + length (List.filter (fun x => negb (f x)) l)
   = length l)%nat.
Proof.
  induction l as [|x l IH]; simpl; [reflexivity|].
  destruct (f x); simpl; lia.
Qed.

(** What an upload of at least one parsed row returns and leaves. *)
Lemma uploadTrades_run (csvText : string) (s : Store) :
  (0 < length (parseCSV csvText))%nat ->
  let validTrades := map normalizeTrade (List.filter isValidRow (parseCSV csvText)) in
  let invalid := map invalidOf
                   (List.filter (fun r => negb (isValidRow r)) (parseCSV csvText)) in
  uploadTrades (Some csvText) s =
  (Json {| success := true;
           message := String.append "Uploaded "
                        (String.append (showCount (length validTrades))
                           " trades successfully");
           validCount := length validTrades;
           invalidCount := length invalid;
           invalidTrades := firstn 10 invalid |},
   match validTrades with
   | [] => s
   | _ => {| kv_trades := Some (storedTrades s ++ validTrades);
             kv_market_prices := kv_market_prices s |}
   end,
   match validTrades with
   | [] => []
   | _ => [KvGet "trades"; KvSet "trades"]
   end).
Proof.
  intros Hrows validTrades invalid. unfold uploadTrades.
  destruct (parseCSV csvText) as [|r0 rows] eqn:E; [simpl in Hrows; lia|].
  replace (length (r0 :: rows) =? 0)%nat with false by reflexivity.
  rewrite classifyRows_eq. fold validTrades invalid.
  rewrite (slice_first invalid 10) by lia.
  destruct validTrades as [|t ts]; reflexivity.
Qed.

Lemma uploadMarketPrices_run (csvText : string) (s : Store) :
  (0 < length (parseCSV csvText))%nat ->
  let prices := map priceOfRow (parseCSV csvText) in
  uploadMarketPrices (Some csvText) s =
  (Json {| prices_success := true;
           prices_message :=
             String.append "Uploaded "
               (String.append (showCount (length prices))
                  " market prices successfully");
           count := length prices |},
   {| kv_trades := kv_trades s; kv_market_prices := Some prices |},
   [KvSet "market_prices"]).
Proof.
  intros Hrows prices. unfold uploadMarketPrices.
  destruct (parseCSV csvText) as [|r0 rows] eqn:E; [simpl in Hrows; lia|].
  reflexivity.
Qed.

Lemma parseCSV_nonempty (csvText : string) :
  (2 <= length (split LF (trim csvText)))%nat -> (0 < length (parseCSV csvText))%nat.
Proof.
  intros H. rewrite parseCSV_unfold.
  destruct (split LF (trim csvText)) as [|l0 [|l1 rest]]; simpl in *; lia.
Qed.

Lemma valid_row_fields (r : RawRow) :
  isValidRow r = true ->
  JsString.truthy (field r "trade_id") = true
  /\ JsString.truthy (field r "trade_date") = true
  /\ JsString.truthy (field r "instrument") = true
  /\ sideListed (field r "side") = true
  /\ Num.isNaN (Num.parseFloatValue (field r "quantity")) = false
  /\ Num.isNaN (Num.parseFloatValue (field r "trade_price")) = false.
Proof.
  unfold isValidRow. rewrite valid_iff_rules.
  intros H; decompose [and] H; repeat split; assumption.
Qed.

Lemma truthy_present (v : option string) :
  JsString.truthy v = true -> v = Some (present v) /\ present v <> "".
Proof.
  destruct v as [x|]; simpl; [|discriminate].
  intros H. split; [reflexivity|]. intros ->. discriminate.
Qed.

Lemma orDefault_spec (v : option string) (dflt : string) :
  orDefault v dflt = if JsString.truthy v then present v else dflt.
Proof. destruct v as [x|]; simpl; [|reflexivity]. by destruct (String.eqb x ""). Qed.

End Uploads.

Section UploadClaims.

(** C7.  An upload that parses at least one row answers with the counts of
    the rows that pass and fail validation, every row being validated on
    its own, and with the first ten failing rows and their errors.  The
    passing rows are stored normalized, after the trades already there:
    identifiers as given, side in upper case, quantity and price as
    Numbers, trader and currency defaulted.  The prices are untouched. *)
Theorem uploadTrades_partitions (csvText : string) (s : Store) :
  let rows := parseCSV csvText in
  let validRows := List.filter isValidRow rows in
  let invalidRows := List.filter (fun r => negb (isValidRow r)) rows in
  (0 < length rows)%nat ->
  exists (body : UploadTradesBody) (s' : Store) (calls : list KvCall),
    uploadTrades (Some csvText) s = (Json body, s', calls)
    /\ validCount body = length validRows
    /\ invalidCount body = length invalidRows
    /\ (validCount body + invalidCount body = length rows)%nat
    /\ invalidTrades body = firstn 10 (map invalidOf invalidRows)
    /\ (length (invalidTrades body) <= 10)%nat
    /\ (validRows <> [] ->
        kv_trades s' = Some (storedTrades s ++ map normalizeTrade validRows))
    /\ kv_market_prices s' = kv_market_prices s
    /\ Forall (fun r =>
         let t := normalizeTrade r in
         field r "trade_id" = Some (trade_id t)
         /\ field r "trade_date" = Some (trade_date t)
         /\ field r "instrument" = Some (instrument t)
         /\ side t = toUpperCase (present (field r "side"))
         /\ (side t = "BUY" \/ side t = "SELL")
         /\ quantity t = Num.parseFloatValue (field r "quantity")
         /\ Num.isNaN (quantity t) = false
         /\ trade_price t = Num.parseFloatValue (field r "trade_price")
         /\ Num.isNaN (trade_price t) = false
         /\ trader t = (if JsString.truthy (field r "trader")
                        then present (field r "trader") else "Unknown")
         /\ currency t = (if JsString.truthy (field r "currency")
                          then present (field r "currency") else "USD"))
       validRows.
Proof.
  intros rows validRows invalidRows Hrows.
  pose proof (uploadTrades_run csvText s Hrows) as Hrun. cbv zeta in Hrun.
  fold rows in Hrun. fold validRows invalidRows in Hrun.
  eexists _, _, _. split; [exact Hrun |]. cbn [validCount invalidCount invalidTrades].
  rewrite !length_map.
  split; [reflexivity |]. split; [reflexivity |].
  split; [apply filter_partition_length |].
  split; [reflexivity |].
  split; [rewrite length_firstn; lia |].
  split.
  { intros Hne. destruct validRows as [|r0 rest]; [congruence | reflexivity]. }
  split; [by destruct (map normalizeTrade validRows) |].
  apply List.Forall_forall. intros r Hin.
  apply filter_In in Hin as [_ Hvalid].
  apply valid_row_fields in Hvalid as (Hid & Hdate & Hinstr & Hside & Hq & Hp).
  apply truthy_present in Hid as [Hid _].
  apply truthy_present in Hdate as [Hdate _].
  apply truthy_present in Hinstr as [Hinstr _].
  apply sideListed_iff in Hside as (x & Hx & Hup).
  cbn [normalizeTrade trade_id trade_date instrument side quantity trade_price trader currency].
  rewrite !orDefault_spec. rewrite Hx. cbn [present].
  repeat split; auto.
Qed.

Lemma uploadTrades_partitions_witness :
  exists (body : UploadTradesBody) (s' : Store),
    fst (fst (uploadTrades (Some Engine.mixedTradesCsv) Engine.emptyStore)) = Json body
    /\ validCount body = 1%nat /\ invalidCount body = 1%nat.
Proof.
  destruct (uploadTrades_partitions Engine.mixedTradesCsv Engine.emptyStore)
    as (body & s' & calls & Hrun & Hv & Hi & _).
  - vm_compute. lia.
  - exists body, s'. rewrite Hrun. split; [reflexivity |].
    split; [rewrite Hv | rewrite Hi]; vm_compute; reflexivity.
Defined.

(** C10.  When every parsed row fails validation, the handler makes no
    call to the store at all and leaves it as it was; and when there is
    at least one such row it still answers with the success body: no
    valid row, all rows counted invalid, the first ten of them listed. *)
Theorem uploadTrades_all_invalid (csvText : string) (s : Store) :
  let rows := parseCSV csvText in
  forallb (fun r => negb (valid (validateTrade r))) rows = true ->
  exists reply : Reply UploadTradesBody,
    uploadTrades (Some csvText) s = (reply, s, [])
    /\ ((0 < length rows)%nat ->
        exists body : UploadTradesBody,
          reply = Json body
          /\ success body = true
          /\ validCount body = 0%nat
          /\ invalidCount body = length rows
          /\ invalidTrades body = firstn 10 (map invalidOf rows)).
Proof.
  intros rows Hall.
  destruct (Nat.eq_dec (length rows) 0%nat) as [Hzero | Hpos].
  { exists (Failure 400 "CSV file is empty or invalid"). split; [| lia].
    unfold uploadTrades. fold rows. by rewrite Hzero. }
  assert (Hrows : (0 < length rows)%nat) by lia.
  pose proof (uploadTrades_run csvText s Hrows) as Hrun. cbv zeta in Hrun.
  fold rows in Hrun.
  assert (Hv : List.filter isValidRow rows = []).
  { clear Hrun Hrows Hpos. induction rows as [|r rest IH]; [reflexivity|].
    cbn [forallb] in Hall. apply andb_true_iff in Hall as [Hr Hrest].
    apply negb_true_iff in Hr. cbn [List.filter].
    unfold isValidRow at 1. rewrite Hr. by apply IH. }
  assert (Hi : List.filter (fun r => negb (isValidRow r)) rows = rows).
  { clear Hrun Hrows Hpos Hv. induction rows as [|r rest IH]; [reflexivity|].
    cbn [forallb] in Hall. apply andb_true_iff in Hall as [Hr Hrest].
    apply negb_true_iff in Hr. cbn [List.filter].
    unfold isValidRow at 1. rewrite Hr. cbn [negb]. f_equal. by apply IH. }
  rewrite Hv, Hi in Hrun. cbn [map length] in Hrun.
  eexists. split; [exact Hrun |]. intros _.
  eexists. split; [reflexivity |].
  cbn [success validCount invalidCount invalidTrades].
  rewrite length_map. auto.
Qed.

Lemma uploadTrades_all_invalid_witness :
  exists body : UploadTradesBody,
    uploadTrades (Some Engine.invalidTradesCsv) Engine.emptyStore
      = (Json body, Engine.emptyStore, [])
    /\ validCount body = 0%nat
    /\ invalidCount body = 2%nat.
Proof.
  destruct (uploadTrades_all_invalid Engine.invalidTradesCsv Engine.emptyStore)
    as (reply & Hrun & Hbody).
  - vm_compute. reflexivity.
  - destruct Hbody as (body & -> & _ & Hv & Hi & _).
    + vm_compute. lia.
    + exists body. split; [exact Hrun |]. split; [exact Hv |].
      rewrite Hi. vm_compute. reflexivity.
Defined.

(** C9.  An upload of market prices whose text has a header line and at
    least one more line succeeds; afterwards the price collection is the
    list of the parsed rows, each turned into its instrument, its price
    date and its close price read by [parseFloat], whatever was stored
    before and whatever the fields hold; the trade collection is the one
    from before, and the only call to the store is that write. *)
Theorem uploadMarketPrices_replaces (csvText : string) (s : Store) :
  (2 <= length (split LF (trim csvText)))%nat ->
  exists (body : UploadPricesBody) (prices : list MarketPrice.t),
    uploadMarketPrices (Some csvText) s =
      (Json body,
       {| kv_trades := kv_trades s; kv_market_prices := Some prices |},
       [KvSet "market_prices"])
    /\ count body = length prices
    /\ length prices = (length (split LF (trim csvText)) - 1)%nat
    /\ Forall2 (fun r p =>
         MarketPrice.instrument p = field r "instrument"
         /\ MarketPrice.price_date p = field r "price_date"
         /\ MarketPrice.close_price p = Num.parseFloatValue (field r "close_price"))
       (parseCSV csvText) prices.
Proof.
  intros Hlines.
  pose proof (uploadMarketPrices_run csvText s (parseCSV_nonempty _ Hlines)) as Hrun.
  cbv zeta in Hrun.
  eexists _, _. split; [exact Hrun |]. cbn [count].
  split; [reflexivity |].
  split.
  { rewrite length_map. rewrite parseCSV_unfold.
    destruct (split LF (trim csvText)) as [|l0 [|l1 rest]]; simpl in *; try lia.
    rewrite length_map. lia. }
  clear Hrun Hlines.
  induction (parseCSV csvText) as [|r rows IH]; cbn [map];
    [constructor | constructor; [repeat split | exact IH]].
Qed.

Lemma uploadMarketPrices_replaces_witness :
  exists prices : list MarketPrice.t,
    kv_market_prices
      (snd (fst (uploadMarketPrices (Some Engine.pricesCsv) Engine.emptyStore)))
      = Some prices
    /\ length prices = 2%nat
    /\ kv_trades
         (snd (fst (uploadMarketPrices (Some Engine.pricesCsv) Engine.emptyStore)))
       = None.
Proof.
  destruct (uploadMarketPrices_replaces Engine.pricesCsv Engine.emptyStore)
    as (body & prices & Hrun & _ & Hlen & _).
  - vm_compute. lia.
  - exists prices. rewrite Hrun. cbn [fst snd kv_market_prices kv_trades].
    split; [reflexivity |]. split; [rewrite Hlen; vm_compute; reflexivity | reflexivity].
Defined.

End UploadClaims.

(** ** Integral Numbers *)

Section IntNumFacts.

Import IntNum.

Lemma round53_small (z : Z) : Z.abs z < 2 ^ 53 -> round53 z = IInt z.
Proof.
  intros Hz. unfold round53.
  assert (Hlog : Z.log2 (Z.abs z) - 52 <= 0).
  { destruct (Z.eq_dec (Z.abs z) 0) as [-> | Hne]; [simpl; lia|].
    assert (Z.log2 (Z.abs z) < 53) by (apply Z.log2_lt_pow2; lia). lia. }
  apply Z.leb_le in Hlog. by rewrite Hlog.
Qed.

Lemma round53_sign (z : Z) : sortSign (round53 z) = (z ?= 0).
Proof.
  unfold round53.
  destruct (Z.log2 (Z.abs z) - 52 <=? 0) eqn:Hk; [reflexivity|].
  apply Z.leb_gt in Hk.
  pose proof (Z.abs_nonneg z) as Hnonneg.
  assert (Hsgn : z < 0 /\ Z.abs z = - z \/ 0 <= z /\ Z.abs z = z) by lia.
  set (a := Z.abs z) in *. set (k := Z.log2 a - 52) in *.
  assert (Ha : 0 < a).
  { destruct (Z.eq_dec a 0) as [E | E]; [|lia].
    subst k. rewrite E in Hk. simpl in Hk. lia. }
  assert (Hq : 1 <= Z.shiftr a k).
  { rewrite Z.shiftr_div_pow2 by lia.
    assert (2 ^ k <= a).
    { transitivity (2 ^ Z.log2 a).
      - apply Z.pow_le_mono_r; lia.
      - apply Z.log2_spec; lia. }
    assert (0 < 2 ^ k) by (apply Z.pow_pos_nonneg; lia).
    apply Z.div_le_lower_bound; lia. }
  set (q := Z.shiftr a k) in *.
  set (q' := if Z.land a (Z.ones k) <? Z.shiftl 1 (k - 1) then q
             else if Z.shiftl 1 (k - 1) <? Z.land a (Z.ones k) then q + 1
                  else if Z.even q then q else q + 1).
  assert (Hq' : 1 <= q').
  { subst q'. repeat match goal with |- context [if ?b then _ else _] => destruct b end; lia. }
  assert (Hm : 0 < Z.shiftl q' k).
  { rewrite Z.shiftl_mul_pow2 by lia.
    assert (0 < 2 ^ k) by (apply Z.pow_pos_nonneg; lia). nia. }
  clearbody q' a.
  destruct (2 ^ 1024 <=? Z.shiftl q' k); cbn [sortSign].
  - destruct (z <? 0) eqn:Hz.
    + apply Z.ltb_lt in Hz. symmetry. by apply Z.compare_lt_iff.
    + apply Z.ltb_ge in Hz. symmetry. apply Z.compare_gt_iff. lia.
  - destruct (Z.lt_total z 0) as [Hz | [Hz | Hz]]; [| lia |].
    + rewrite (proj2 (Z.compare_lt_iff z 0)) by lia.
      apply Z.compare_lt_iff. rewrite Z.sgn_neg by lia. lia.
    + rewrite (proj2 (Z.compare_gt_iff z 0)) by lia.
      apply Z.compare_gt_iff. rewrite Z.sgn_pos by lia. lia.
Qed.

(** The sign of a difference of two integers is the sign the sort reads,
    rounded or not. *)
Lemma sortSign_sub (a b : Z) : sortSign (sub (IInt a) (IInt b)) = (a ?= b).
Proof.
  unfold sub. destruct b as [|b|b]; cbn [neg add].
  - cbn [sortSign]. reflexivity.
  - rewrite round53_sign. rewrite (Z.compare_sub a (Z.pos b)). reflexivity.
  - rewrite round53_sign. rewrite (Z.compare_sub a (Z.neg b)). reflexivity.
Qed.

End IntNumFacts.

(** ** The sort *)

Section SortFacts.

Context {runtime : Runtime} {A : Type} (compareFn : A -> A -> IntNum.intnum).

Lemma insertSorted_perm (x : A) (sorted : list A) :
  Permutation (x :: sorted) (JsArray.insertSorted compareFn x sorted).
Proof.
  induction sorted as [|y rest IH]; simpl; [reflexivity|].
  destruct (IntNum.sortSign (compareFn x y)); try reflexivity.
  - rewrite perm_swap. by constructor.
  - rewrite perm_swap. by constructor.
Qed.

Lemma sort_from_perm (arr acc : list A) :
  Permutation (acc ++ arr)
    (fold_left (fun sorted x => JsArray.insertSorted compareFn x sorted) arr acc).
Proof.
  revert acc. induction arr as [|x arr IH]; intros acc; simpl.
  - by rewrite app_nil_r.
  - rewrite <- IH. rewrite <- insertSorted_perm.
    rewrite <- Permutation_middle. reflexivity.
Qed.

Lemma stableSort_perm (arr : list A) : Permutation arr (JsArray.stableSort compareFn arr).
Proof. apply (sort_from_perm arr []). Qed.

Lemma pick_from (front arr : list A) :
  JsArray.pick (front ++ arr) (seq (length front) (length arr)) = arr.
Proof.
  revert front. induction arr as [|x arr IH]; intros front; [reflexivity|].
  cbn [length seq]. unfold JsArray.pick in *. cbn [flat_map].
  rewrite nth_error_app2 by lia. rewrite Nat.sub_diag. cbn [nth_error app].
  f_equal. specialize (IH (front ++ [x])).
  rewrite <- app_assoc, length_app in IH. cbn [length app] in IH.
  rewrite Nat.add_1_r in IH. exact IH.
Qed.

Lemma pick_all (arr : list A) : JsArray.pick arr (seq 0 (length arr)) = arr.
Proof. apply (pick_from [] arr). Qed.

Lemma isArrangement_perm (n : nat) (positions : list nat) :
  JsArray.isArrangement n positions = true -> Permutation (seq 0 n) positions.
Proof.
  unfold JsArray.isArrangement. intros H. apply andb_true_iff in H as [Hlen Hall].
  apply Nat.eqb_eq in Hlen. rewrite forallb_forall in Hall.
  apply NoDup_Permutation_bis.
  - apply seq_NoDup.
  - rewrite length_seq. lia.
  - intros i Hi. specialize (Hall i Hi). apply existsb_exists in Hall as (j & Hj & Hij).
    apply Nat.eqb_eq in Hij. by subst j.
Qed.

Lemma sort_consistent (arr : list A) :
  JsArray.consistent compareFn arr = true ->
  JsArray.sort compareFn arr = JsArray.stableSort compareFn arr.
Proof. intros H. unfold JsArray.sort. by rewrite H. Qed.

Lemma sort_perm (arr : list A) : Permutation arr (JsArray.sort compareFn arr).
Proof.
  unfold JsArray.sort. destruct (JsArray.consistent compareFn arr); [apply stableSort_perm |].
  cbv zeta.
  destruct (JsArray.isArrangement (length arr) _) eqn:E; [|reflexivity].
  apply isArrangement_perm in E. rewrite <- (pick_all arr) at 1.
  unfold JsArray.pick. by apply Permutation_flat_map.
Qed.

Lemma sort_length (arr : list A) : length (JsArray.sort compareFn arr) = length arr.
Proof. symmetry. apply Permutation_length, sort_perm. Qed.

Lemma sort_In (arr : list A) (x : A) : In x (JsArray.sort compareFn arr) <-> In x arr.
Proof.
  split; apply Permutation_in; [symmetry |]; apply sort_perm.
Qed.

(** A comparator that answers as a key does, on the elements at hand. *)
Definition agreesWith (key : A -> Z) (l : list A) : Prop :=
  forall x y, In x l -> In y l -> IntNum.sortSign (compareFn x y) = (key x ?= key y).

Lemma insertSorted_sorted (key : A -> Z) (x : A) (sorted : list A) :
  agreesWith key (x :: sorted) ->
  StronglySorted (fun a b => key a <= key b) sorted ->
  StronglySorted (fun a b => key a <= key b) (JsArray.insertSorted compareFn x sorted).
Proof.
  intros Hag Hs. induction Hs as [|y rest Hrest IH Hy]; simpl.
  - repeat constructor.
  - rewrite (Hag x y) by (simpl; auto).
    destruct (Z.compare_spec (key x) (key y)) as [Hc | Hc | Hc].
    + constructor.
      * apply IH. intros a b Ha Hb. apply Hag; simpl in *; tauto.
      * apply List.Forall_forall. intros z Hz.
        apply (Permutation_in _ (Permutation_sym (insertSorted_perm x rest))) in Hz.
        destruct Hz as [<- | Hz]; [cbn beta; lia |].
        rewrite List.Forall_forall in Hy. by apply Hy.
    + constructor; [by constructor |].
      constructor; [cbn beta; lia |].
      rewrite List.Forall_forall in Hy. apply List.Forall_forall.
      intros z Hz. specialize (Hy z Hz). cbn beta in *. lia.
    + constructor.
      * apply IH. intros a b Ha Hb. apply Hag; simpl in *; tauto.
      * apply List.Forall_forall. intros z Hz.
        apply (Permutation_in _ (Permutation_sym (insertSorted_perm x rest))) in Hz.
        destruct Hz as [<- | Hz]; [cbn beta; lia |].
        rewrite List.Forall_forall in Hy. by apply Hy.
Qed.

Lemma sort_from_sorted (key : A -> Z) (arr acc : list A) :
  agreesWith key (acc ++ arr) ->
  StronglySorted (fun a b => key a <= key b) acc ->
  StronglySorted (fun a b => key a <= key b)
    (fold_left (fun sorted x => JsArray.insertSorted compareFn x sorted) arr acc).
Proof.
  revert acc. induction arr as [|x arr IH]; intros acc Hag Hs; simpl; [exact Hs|].
  apply IH.
  - intros a b Ha Hb. apply Hag.
    + apply in_app_or in Ha as [Ha | Ha].
      * apply (Permutation_in _ (Permutation_sym (insertSorted_perm x acc))) in Ha.
        destruct Ha as [<- | Ha]; apply in_or_app; simpl; auto.
      * apply in_or_app; simpl; auto.
    + apply in_app_or in Hb as [Hb | Hb].
      * apply (Permutation_in _ (Permutation_sym (insertSorted_perm x acc))) in Hb.
        destruct Hb as [<- | Hb]; apply in_or_app; simpl; auto.
      * apply in_or_app; simpl; auto.
  - apply insertSorted_sorted; [|exact Hs].
    intros a b Ha Hb. apply Hag; apply in_or_app; simpl in *.
    + destruct Ha as [<- | Ha]; auto.
    + destruct Hb as [<- | Hb]; auto.
Qed.

(** A comparator that answers as a key does is a consistent one. *)
Lemma agreesWith_consistent (key : A -> Z) (arr : list A) :
  agreesWith key arr -> JsArray.consistent compareFn arr = true.
Proof.
  intros Hag. unfold JsArray.consistent.
  apply forallb_forall. intros a Ha. apply forallb_forall. intros b Hb.
  apply forallb_forall. intros c Hc. unfold JsArray.consistentAt.
  rewrite (Hag a a Ha Ha), (Hag a b Ha Hb), (Hag b a Hb Ha), (Hag b c Hb Hc),
    (Hag a c Ha Hc).
  rewrite Z.compare_refl. cbn [JsArray.isEq andb].
  destruct (Z.compare_spec (key a) (key b)) as [Hab | Hab | Hab];
    destruct (Z.compare_spec (key b) (key a)); try lia;
    destruct (Z.compare_spec (key b) (key c)) as [Hbc | Hbc | Hbc];
    try reflexivity;
    destruct (Z.compare_spec (key a) (key c)); try reflexivity; lia.
Qed.

(** With a comparator that answers as a key does, the sort orders by the
    key. *)
Lemma sort_sorted (key : A -> Z) (arr : list A) :
  agreesWith key arr ->
  StronglySorted (fun a b => key a <= key b) (JsArray.sort compareFn arr).
Proof.
  intros Hag. rewrite (sort_consistent arr (agreesWith_consistent key arr Hag)).
  apply sort_from_sorted; [exact Hag | constructor].
Qed.

(** The first element of the sorted array has the least key. *)
Lemma sort_head_least (key : A -> Z) (arr : list A) (x : A) :
  agreesWith key arr ->
  hd_error (JsArray.sort compareFn arr) = Some x ->
  In x arr /\ forall y, In y arr -> key x <= key y.
Proof.
  intros Hag Hhd. pose proof (sort_sorted key arr Hag) as Hs.
  destruct (JsArray.sort compareFn arr) as [|h rest] eqn:E; [discriminate|].
  injection Hhd as ->.
  assert (Hin : forall y, In y arr <-> In y (x :: rest)).
  { intros y. rewrite <- E. symmetry. apply sort_In. }
  split; [apply Hin; simpl; auto |].
  intros y Hy. apply Hin in Hy as [<- | Hy]; [lia |].
  inversion Hs as [|? ? _ Hall]; subst.
  rewrite List.Forall_forall in Hall. by apply Hall.
Qed.

Lemma sort_head_none (arr : list A) :
  hd_error (JsArray.sort compareFn arr) = None <-> arr = [].
Proof.
  pose proof (sort_length arr) as Hlen.
  destruct (JsArray.sort compareFn arr), arr; simpl in *; try lia; split; congruence.
Qed.

(** A comparator that is consistent on the elements at hand: every triple
    of them passes [JsArray.consistentAt]. *)
Definition consistentOn (l : list A) : Prop :=
  forall a b c, In a l -> In b l -> In c l -> JsArray.consistentAt compareFn a b c = true.

Lemma consistent_spec (arr : list A) :
  JsArray.consistent compareFn arr = true <-> consistentOn arr.
Proof.
  unfold JsArray.consistent, consistentOn. split.
  - intros H a b c Ha Hb Hc.
    rewrite forallb_forall in H. specialize (H a Ha).
    rewrite forallb_forall in H. specialize (H b Hb).
    rewrite forallb_forall in H. exact (H c Hc).
  - intros H. apply forallb_forall. intros a Ha. apply forallb_forall. intros b Hb.
    apply forallb_forall. intros c Hc. by apply H.
Qed.

Lemma consistentOn_incl (l l' : list A) :
  (forall x, In x l' -> In x l) -> consistentOn l -> consistentOn l'.
Proof. intros Hincl H a b c Ha Hb Hc. apply H; by apply Hincl. Qed.

Lemma consistentOn_refl (l : list A) (x : A) :
  consistentOn l -> In x l -> IntNum.sortSign (compareFn x x) = Eq.
Proof.
  intros H Hx. specialize (H x x x Hx Hx Hx). unfold JsArray.consistentAt in H.
  destruct (IntNum.sortSign (compareFn x x)); [reflexivity | discriminate | discriminate].
Qed.

(** The answer for a pair read backwards is the opposite one. *)
Lemma consistentOn_flip (l : list A) (x y : A) :
  consistentOn l -> In x l -> In y l ->
  IntNum.sortSign (compareFn y x) = CompOpp (IntNum.sortSign (compareFn x y)).
Proof.
  intros H Hx Hy.
  pose proof (H x y x Hx Hy Hx) as Hxy. pose proof (H y x y Hy Hx Hy) as Hyx.
  unfold JsArray.consistentAt in Hxy, Hyx.
  rewrite (consistentOn_refl l x H Hx) in Hxy.
  rewrite (consistentOn_refl l y H Hy) in Hyx.
  destruct (IntNum.sortSign (compareFn x y)), (IntNum.sortSign (compareFn y x));
    cbn in Hxy, Hyx |- *; congruence.
Qed.

(** Not being above is transitive. *)
Lemma consistentOn_trans (l : list A) (x y z : A) :
  consistentOn l -> In x l -> In y l -> In z l ->
  IntNum.sortSign (compareFn x y) <> Gt ->
  IntNum.sortSign (compareFn y z) <> Gt ->
  IntNum.sortSign (compareFn x z) <> Gt.
Proof.
  intros H Hx Hy Hz Hxy Hyz.
  pose proof (H x y z Hx Hy Hz) as H1.
  pose proof (H z x y Hz Hx Hy) as H2.
  pose proof (H y z x Hy Hz Hx) as H3.
  unfold JsArray.consistentAt in H1, H2, H3.
  rewrite (consistentOn_refl l x H Hx) in H1.
  rewrite (consistentOn_refl l z H Hz) in H2.
  rewrite (consistentOn_refl l y H Hy) in H3.
  rewrite (consistentOn_flip l x y H Hx Hy) in H1, H3.
  rewrite (consistentOn_flip l x z H Hx Hz) in H2, H3.
  rewrite (consistentOn_flip l y z H Hy Hz) in H2.
  destruct (IntNum.sortSign (compareFn x y)), (IntNum.sortSign (compareFn y z)),
    (IntNum.sortSign (compareFn x z)); cbn in H1, H2, H3 |- *; congruence.
Qed.

Lemma insertSorted_ascending (x : A) (sorted : list A) :
  consistentOn (x :: sorted) ->
  StronglySorted (fun a b => IntNum.sortSign (compareFn a b) <> Gt) sorted ->
  StronglySorted (fun a b => IntNum.sortSign (compareFn a b) <> Gt)
    (JsArray.insertSorted compareFn x sorted).
Proof.
  intros Hcons Hs. induction Hs as [|y rest Hrest IH Hy]; simpl.
  - repeat constructor.
  - assert (Hincl : consistentOn (x :: rest)).
    { apply (consistentOn_incl (x :: y :: rest)); [|exact Hcons].
      intros a Ha. simpl in *. tauto. }
    pose proof (consistentOn_flip (x :: y :: rest) x y Hcons
                  ltac:(simpl; auto) ltac:(simpl; auto)) as Hflip.
    pose proof (proj1 (List.Forall_forall _ _) Hy) as Hrests.
    destruct (IntNum.sortSign (compareFn x y)) eqn:Hxy.
    + constructor; [by apply IH |].
      apply List.Forall_forall. intros z Hz.
      apply (Permutation_in _ (Permutation_sym (insertSorted_perm x rest))) in Hz.
      destruct Hz as [<- | Hz]; [cbn beta; rewrite Hflip; discriminate | by apply Hrests].
    + constructor; [by constructor |].
      constructor; [cbn beta; rewrite Hxy; discriminate |].
      apply List.Forall_forall. intros z Hz. cbn beta.
      apply (consistentOn_trans (x :: y :: rest) x y z Hcons);
        [simpl; auto | simpl; auto | simpl; auto | rewrite Hxy; discriminate
        | by apply Hrests].
    + constructor; [by apply IH |].
      apply List.Forall_forall. intros z Hz.
      apply (Permutation_in _ (Permutation_sym (insertSorted_perm x rest))) in Hz.
      destruct Hz as [<- | Hz]; [cbn beta; rewrite Hflip; discriminate | by apply Hrests].
Qed.

Lemma sort_from_ascending (arr acc : list A) :
  consistentOn (acc ++ arr) ->
  StronglySorted (fun a b => IntNum.sortSign (compareFn a b) <> Gt) acc ->
  StronglySorted (fun a b => IntNum.sortSign (compareFn a b) <> Gt)
    (fold_left (fun sorted x => JsArray.insertSorted compareFn x sorted) arr acc).
Proof.
  revert acc. induction arr as [|x arr IH]; intros acc Hcons Hs; simpl; [exact Hs|].
  apply IH.
  - apply (consistentOn_incl (acc ++ x :: arr)); [|exact Hcons].
    intros a Ha. apply in_app_or in Ha as [Ha | Ha].
    + apply (Permutation_in _ (Permutation_sym (insertSorted_perm x acc))) in Ha.
      destruct Ha as [<- | Ha]; apply in_or_app; simpl; auto.
    + apply in_or_app; simpl; auto.
  - apply insertSorted_ascending; [|exact Hs].
    apply (consistentOn_incl (acc ++ x :: arr)); [|exact Hcons].
    intros a [<- | Ha]; apply in_or_app; simpl; auto.
Qed.

(** With a comparator that is consistent on the array, the sort leaves no
    element before one the comparator puts strictly below it. *)
Lemma sort_ascending (arr : list A) :
  JsArray.consistent compareFn arr = true ->
  StronglySorted (fun a b => IntNum.sortSign (compareFn a b) <> Gt)
    (JsArray.sort compareFn arr).
Proof.
  intros H. rewrite (sort_consistent arr H).
  apply sort_from_ascending; [by apply consistent_spec | constructor].
Qed.


Lemma consistent_ext (other : A -> A -> IntNum.intnum) (arr : list A) :
  (forall x y, In x arr -> In y arr -> compareFn x y = other x y) ->
  JsArray.consistent other arr = true -> JsArray.consistent compareFn arr = true.
Proof.
  unfold JsArray.consistent. intros Hsame H.
  apply forallb_forall. intros a Ha. apply forallb_forall. intros b Hb.
  apply forallb_forall. intros c Hc.
  rewrite forallb_forall in H. specialize (H a Ha).
  rewrite forallb_forall in H. specialize (H b Hb).
  rewrite forallb_forall in H. specialize (H c Hc).
  unfold JsArray.consistentAt in *.
  by rewrite (Hsame a a Ha Ha), (Hsame a b Ha Hb), (Hsame b a Hb Ha), (Hsame b c Hb Hc),
    (Hsame a c Ha Hc).
Qed.

Lemma StronglySorted_weaken (R R' : A -> A -> Prop) (l : list A) :
  StronglySorted R l ->
  (forall a b, In a l -> In b l -> R a b -> R' a b) ->
  StronglySorted R' l.
Proof.
  intros Hs. induction Hs as [|x l Hl IH Hx]; intros Himp; constructor.
  - apply IH. intros a b Ha Hb. apply Himp; simpl; auto.
  - rewrite List.Forall_forall in Hx. apply List.Forall_forall. intros y Hy.
    apply Himp; simpl; auto.
Qed.

End SortFacts.

(** ** The filters *)

Section Filters.

Context {runtime : Runtime}.



Lemma filterIf_In {A : Type} (param : option string) (keep : string -> A -> bool)
    (l : list A) (x : A) :
  In x (filterIf param keep l) <->
  In x l /\ (forall p, given param p -> keep p x = true).
Proof.
  unfold filterIf, given. destruct param as [p|]; simpl.
  - destruct (String.eqb_spec p "") as [-> | Hne]; simpl.
    + split; [intros H; split; [done | intros p [[= <-] Hp]; congruence] | tauto].
    + rewrite filter_In. split.
      * intros [Hin Hk]. split; [done | intros p' [[= <-] _]; done].
      * intros [Hin Hk]. split; [done | by apply Hk].
  - split; [intros H; split; [done | intros p [H' _]; discriminate] | tauto].
Qed.

Lemma filterTrades_In (q : TradesQuery) (stored : list Trade) (t : Trade) :
  In t (filterTrades q stored) <->
  In t stored
  /\ (forall d, given (q_from q) d -> JsString.ge (trade_date t) d = true)
  /\ (forall d, given (q_to q) d -> JsString.le (trade_date t) d = true)
  /\ (forall i, given (q_instrument q) i ->
        includes (toLowerCase (instrument t)) (toLowerCase i) = true)
  /\ (forall n, given (q_trader q) n ->
        includes (toLowerCase (trader t)) (toLowerCase n) = true).
Proof.
  unfold filterTrades. rewrite !filterIf_In. tauto.
Qed.

Lemma filterForPnL_In (q : PnLQuery) (stored : list Trade) (t : Trade) :
  In t (filterForPnL q stored) <->
  In t stored
  /\ (forall d, given (p_from q) d -> JsString.ge (trade_date t) d = true)
  /\ (forall d, given (p_to q) d -> JsString.le (trade_date t) d = true)
  /\ (forall i, given (p_instrument q) i -> String.eqb (instrument t) i = true).
Proof.
  unfold filterForPnL. rewrite !filterIf_In. tauto.
Qed.

Lemma listTrades_run (q : TradesQuery) (s : Store) :
  let page := IntNum.parseInt (orDefault (q_page q) "1") in
  let limit := IntNum.parseInt (orDefault (q_limit q) "50") in
  let sorted := JsArray.sort compareTrades (filterTrades q (storedTrades s)) in
  let start := IntNum.mul (IntNum.sub page (IntNum.IInt 1)) limit in
  listTrades q s =
  (Json {| trades := JsArray.slice sorted start (IntNum.add start limit);
           pagination := {| page := page;
                            limit := limit;
                            total := length sorted;
                            totalPages :=
                              IntNum.ceilDiv (Z.of_nat (length sorted)) limit |} |},
   s, [KvGet "trades"]).
Proof. reflexivity. Qed.


End Filters.

Section FilterClaim.

Context {runtime : Runtime}.

Lemma computePnL_run (q : PnLQuery) (s : Store) :
  let filteredTrades := filterForPnL q (storedTrades s) in
  let st := fold_left (valueTrade (storedPrices s)) filteredTrades initialState in
  computePnL q s =
  (Json {| totalPnL := st_totalPnL st;
           dailyPnL :=
             JsArray.sort compareDaily
               (map (fun kv => {| date := fst kv; pnl := snd kv |})
                  (entries (st_dailyPnL st)));
           tradeCount := length filteredTrades;
           valuedTradeCount := length (st_tradesPnL st);
           pnl_trades := st_tradesPnL st |},
   s, [KvGet "trades"; KvGet "market_prices"]).
Proof. reflexivity. Qed.


End FilterClaim.

(** ** Numeric parts of identifiers *)

Section NumericPart.

Import IntNum.

Lemma digit_not_space (c : ascii) : isDigit c = true -> isWhiteSpace c = false.
Proof. destruct c as [[] [] [] [] [] [] [] []]; intros H; vm_compute in H |- *; congruence. Qed.

Lemma splitSign_digit (c : ascii) (r : string) :
  isDigit c = true -> splitSign (String c r) = (false, String c r).
Proof. destruct c as [[] [] [] [] [] [] [] []]; intros H; vm_compute in H; try discriminate H; reflexivity. Qed.

Lemma digitValue_digit (c : ascii) :
  isDigit c = true -> digitValue 10 c = Some (Z.of_nat (nat_of_ascii c) - 48).
Proof. destruct c as [[] [] [] [] [] [] [] []]; intros H; vm_compute in H; try discriminate H; reflexivity. Qed.

Lemma splitRadix_digits (c : ascii) (r : string) :
  isDigit c = true -> digitsOnly r = true ->
  splitRadix (String c r) = (10, String c r).
Proof.
  intros Hc Hr. destruct r as [|c' r'].
  - destruct c as [[] [] [] [] [] [] [] []]; vm_compute in Hc; try discriminate Hc; reflexivity.
  - cbn [digitsOnly] in Hr. apply andb_true_iff in Hr as [Hc' _].
    destruct c as [[] [] [] [] [] [] [] []]; vm_compute in Hc; try discriminate Hc;
      try reflexivity.
    destruct c' as [[] [] [] [] [] [] [] []]; vm_compute in Hc'; try discriminate Hc';
      reflexivity.
Qed.

Lemma digitsPrefix_digits (ds : string) (a : Z) :
  digitsOnly ds = true -> digitsPrefix 10 ds (Some a) = Some (Num.digitsValueFrom a ds).
Proof.
  revert a. induction ds as [|c ds IH]; intros a H; [reflexivity|].
  cbn [digitsOnly] in H. apply andb_true_iff in H as [Hc Hds].
  cbn [digitsPrefix Num.digitsValueFrom]. rewrite (digitValue_digit c Hc).
  by rewrite IH.
Qed.

Lemma stripNonDigits_digitsOnly (id : string) : digitsOnly (stripNonDigits id) = true.
Proof.
  induction id as [|c id IH]; [reflexivity|]. cbn [stripNonDigits].
  destruct (isDigit c) eqn:Hc; [|exact IH].
  cbn [digitsOnly]. by rewrite Hc, IH.
Qed.

Lemma parseInt_digits (ds : string) :
  digitsOnly ds = true ->
  parseInt ds = if String.eqb ds "" then INaN else round53 (Num.digitsValue ds).
Proof.
  intros H. destruct ds as [|c r]; [reflexivity|].
  cbn [digitsOnly] in H. apply andb_true_iff in H as [Hc Hr].
  unfold parseInt. cbn [trimStart]. rewrite (digit_not_space c Hc).
  rewrite (splitSign_digit c r Hc), (splitRadix_digits c r Hc Hr).
  cbn [digitsPrefix]. rewrite (digitValue_digit c Hc).
  rewrite (digitsPrefix_digits r _ Hr).
  replace (String.eqb (String c r) "") with false by reflexivity.
  unfold Num.digitsValue. cbn [Num.digitsValueFrom].
  destruct (Num.digitsValueFrom (10 * 0 + (Z.of_nat (nat_of_ascii c) - 48)) r); reflexivity.
Qed.

(** The numeric part is NaN when the identifier has no digit, and the
    Number nearest to the integer its digits write otherwise. *)
Lemma numericPart_eq (id : string) :
  numericPart id = if hasDigit id then round53 (digitsOf id) else INaN.
Proof.
  unfold numericPart, hasDigit, digitsOf.
  rewrite (parseInt_digits _ (stripNonDigits_digitsOnly id)).
  by destruct (String.eqb (stripNonDigits id) "").
Qed.

Lemma round53_not_NaN (z : Z) : IntNum.isNaN (round53 z) = false.
Proof.
  unfold round53. destruct (Z.log2 (Z.abs z) - 52 <=? 0); [reflexivity|].
  cbv zeta. by destruct (2 ^ 1024 <=? _).
Qed.

End NumericPart.

(** ** Sorting and paging the listing *)

Section ListingClaims.

Context {runtime : Runtime}.

Import IntNum.

Lemma compareTrades_eq (a b : Trade) :
  compareTrades a b =
  if hasDigit (trade_id a) && hasDigit (trade_id b)
  then IntNum.sub (round53 (digitsOf (trade_id a))) (round53 (digitsOf (trade_id b)))
  else localeCompare (trade_id a) (trade_id b).
Proof.
  unfold compareTrades. rewrite !numericPart_eq.
  destruct (hasDigit (trade_id a)), (hasDigit (trade_id b)); cbn [negb andb IntNum.isNaN];
    rewrite ?round53_not_NaN; reflexivity.
Qed.

Lemma digitsValueFrom_nonneg (ds : string) (a : Z) :
  0 <= a -> digitsOnly ds = true -> 0 <= Num.digitsValueFrom a ds.
Proof.
  revert a. induction ds as [|c ds IH]; intros a Ha H; [exact Ha|].
  cbn [digitsOnly] in H. apply andb_true_iff in H as [Hc Hds].
  cbn [Num.digitsValueFrom]. apply IH; [|exact Hds].
  unfold isDigit in Hc. apply andb_true_iff in Hc as [Hlo _].
  apply Nat.leb_le in Hlo. lia.
Qed.

Lemma digitsOf_nonneg (id : string) : 0 <= digitsOf id.
Proof.
  unfold digitsOf, Num.digitsValue.
  apply digitsValueFrom_nonneg; [lia | apply stripNonDigits_digitsOnly].
Qed.

(** The comparator answers as the digits do on trades whose identifiers
    all hold digits that write an integer below 2^53. *)
Lemma compareTrades_numbered (l : list Trade) :
  (forall t, In t l ->
     hasDigit (trade_id t) = true /\ digitsOf (trade_id t) < 2 ^ 53) ->
  agreesWith compareTrades (fun t => digitsOf (trade_id t)) l.
Proof.
  intros Hall x y Hx Hy.
  destruct (Hall x Hx) as [Hdx Hbx]. destruct (Hall y Hy) as [Hdy Hby].
  rewrite compareTrades_eq, Hdx, Hdy. cbn [andb].
  pose proof (digitsOf_nonneg (trade_id x)).
  pose proof (digitsOf_nonneg (trade_id y)).
  rewrite !round53_small by lia.
  apply sortSign_sub.
Qed.

(** On such trades the order of the sort is the prescribed one. *)
Lemma sort_numbered (l : list Trade) :
  forallb (fun t => hasDigit (trade_id t) && (digitsOf (trade_id t) <? 2 ^ 53)) l = true ->
  JsArray.sort compareTrades l = JsArray.stableSort compareTrades l.
Proof.
  intros H. apply sort_consistent.
  apply (agreesWith_consistent _ (fun t => digitsOf (trade_id t))).
  apply compareTrades_numbered. intros t Ht.
  rewrite forallb_forall in H. specialize (H t Ht).
  apply andb_true_iff in H as [Hd Hb]. apply Z.ltb_lt in Hb. by split.
Qed.

(** C4.  The listing is the page of the filtered trades sorted with the
    comparator [compareTrades], which decides pair by pair: when both
    identifiers hold a digit it answers the difference of the Numbers
    their digits write, and otherwise the locale comparison of the two
    whole identifiers.  The sorted array is a rearrangement of the
    filtered one.  When the comparator is consistent on the filtered
    trades, as the sort requires for its order to be defined, the sorted
    array is ascending: no trade comes before one the comparator puts
    strictly below it.  So, when every identifier holds digits that write
    an integer below 2^53, it is in ascending order of those integers; and
    when no identifier holds a digit, it is in ascending order of the
    locale comparison of the identifiers, provided that one is
    consistent. *)
Theorem listTrades_sorts_pairwise (q : TradesQuery) (s : Store) :
  let filtered := filterTrades q (storedTrades s) in
  let sorted := JsArray.sort compareTrades filtered in
  let page := IntNum.parseInt (orDefault (q_page q) "1") in
  let limit := IntNum.parseInt (orDefault (q_limit q) "50") in
  let start := IntNum.mul (IntNum.sub page (IInt 1)) limit in
  (forall a b : Trade,
     let aNum := IntNum.parseInt (stripNonDigits (trade_id a)) in
     let bNum := IntNum.parseInt (stripNonDigits (trade_id b)) in
     (IntNum.isNaN aNum = negb (hasDigit (trade_id a)))
     /\ (hasDigit (trade_id a) = true -> aNum = round53 (digitsOf (trade_id a)))
     /\ (hasDigit (trade_id a) = true -> hasDigit (trade_id b) = true ->
         compareTrades a b = IntNum.sub aNum bNum)
     /\ (hasDigit (trade_id a) = false \/ hasDigit (trade_id b) = false ->
         compareTrades a b = localeCompare (trade_id a) (trade_id b)))
  /\ listTrades q s =
       (Json {| trades := JsArray.slice sorted start (IntNum.add start limit);
                pagination :=
                  {| page := page; limit := limit;
                     total := length filtered;
                     totalPages := IntNum.ceilDiv (Z.of_nat (length filtered)) limit |} |},
        s, [KvGet "trades"])
  /\ Permutation filtered sorted
  /\ (JsArray.consistent compareTrades filtered = true ->
      StronglySorted (fun a b => sortSign (compareTrades a b) <> Gt) sorted)
  /\ ((forall t, In t filtered ->
         hasDigit (trade_id t) = true /\ digitsOf (trade_id t) < 2 ^ 53) ->
      StronglySorted
        (fun a b => digitsOf (trade_id a) <= digitsOf (trade_id b)) sorted)
  /\ ((forall t, In t filtered -> hasDigit (trade_id t) = false) ->
      JsArray.consistent
        (fun a b : Trade => localeCompare (trade_id a) (trade_id b)) filtered = true ->
      StronglySorted
        (fun a b => sortSign (localeCompare (trade_id a) (trade_id b)) <> Gt) sorted).
Proof.
  intros filtered sorted page limit start.
  split; [| split; [| split; [| split; [| split]]]].
  - intros a b aNum bNum.
    pose proof (compareTrades_eq a b) as Hc.
    pose proof (numericPart_eq (trade_id a)) as Ha.
    pose proof (numericPart_eq (trade_id b)) as Hb.
    unfold numericPart in Ha, Hb. fold aNum in Ha. fold bNum in Hb.
    repeat split.
    + rewrite Ha. destruct (hasDigit (trade_id a)); [apply round53_not_NaN | reflexivity].
    + intros Hd. by rewrite Ha, Hd.
    + intros Hda Hdb. rewrite Hc, Ha, Hb, Hda, Hdb. reflexivity.
    + intros [Hd | Hd]; rewrite Hc, Hd; [reflexivity | by rewrite andb_false_r].
  - pose proof (listTrades_run q s) as Hrun. cbv zeta in Hrun.
    rewrite Hrun. subst sorted filtered. by rewrite !sort_length.
  - apply sort_perm.
  - apply sort_ascending.
  - intros Hall. apply sort_sorted. by apply compareTrades_numbered.
  - intros Hnone Hcons.
    assert (Hsame : forall x y, In x filtered -> In y filtered ->
              compareTrades x y = localeCompare (trade_id x) (trade_id y)).
    { intros x y Hx Hy. by rewrite compareTrades_eq, (Hnone x Hx). }
    assert (Hc : JsArray.consistent compareTrades filtered = true).
    { exact (consistent_ext compareTrades _ filtered Hsame Hcons). }
    apply (StronglySorted_weaken _ _ _ (sort_ascending compareTrades filtered Hc)).
    intros a b Ha Hb. cbn beta.
    apply sort_In in Ha, Hb. by rewrite (Hsame a b Ha Hb).
Qed.

End ListingClaims.

Section ListingWitnesses.

Import IntNum.

#[local] Existing Instance Engine.engine.

(** Identifiers with and without digits: the comparator is consistent on
    them and the listing is ascending; X2 sorts before T9 by number, while
    B sorts before X2 and T9 after A as text.  Identifiers that all hold
    digits are listed by number, and identifiers without digits as text. *)
Lemma listTrades_sorts_pairwise_witness :
  (exists body : TradesBody,
     listTrades (Engine.pageQuery None None) Engine.mixedIds
       = (Json body, Engine.mixedIds, [KvGet "trades"])
     /\ map trade_id (trades body) = ["A"; "B"; "X2"; "T9"; "T10"]
     /\ StronglySorted (fun a b => sortSign (compareTrades a b) <> Gt) (trades body))
  /\ (exists body : TradesBody,
        listTrades (Engine.pageQuery None None) Engine.numberedIds
          = (Json body, Engine.numberedIds, [KvGet "trades"])
        /\ map trade_id (trades body) = ["X2"; "T9"; "T10"; "T010"])
  /\ (exists body : TradesBody,
        listTrades (Engine.pageQuery None None) Engine.namedIds
          = (Json body, Engine.namedIds, [KvGet "trades"])
        /\ map trade_id (trades body) = ["A"; "AZ"; "B"]).
Proof.
  split; [| split].
  - destruct (listTrades_sorts_pairwise (Engine.pageQuery None None) Engine.mixedIds)
      as (_ & Hrun & _ & Hsorted & _).
    eexists. split; [exact Hrun |]. cbn [trades].
    split; [vm_compute; reflexivity |].
    specialize (Hsorted ltac:(vm_compute; reflexivity)).
    replace (JsArray.slice _ _ _)
      with (JsArray.sort compareTrades
              (filterTrades (Engine.pageQuery None None) (storedTrades Engine.mixedIds)))
      by (vm_compute; reflexivity).
    exact Hsorted.
  - destruct (listTrades_sorts_pairwise (Engine.pageQuery None None) Engine.numberedIds)
      as (_ & Hrun & _).
    eexists. split; [exact Hrun |]. vm_compute. reflexivity.
  - destruct (listTrades_sorts_pairwise (Engine.pageQuery None None) Engine.namedIds)
      as (_ & Hrun & _).
    eexists. split; [exact Hrun |]. vm_compute. reflexivity.
Defined.

(** The choice between numbers and text is made for each pair, and so the
    comparator can go round in a circle: A2 is below AZ and AZ below B1 as
    text, and B1 below A2 by number.  On such identifiers the order is the
    engine's; here it leaves the three as they came. *)
Example compareTrades_circle :
  map (fun '(a, b) => sortSign (compareTrades (Engine.tradeWithId a) (Engine.tradeWithId b)))
    [("A2", "AZ"); ("AZ", "B1"); ("B1", "A2")] = [Lt; Lt; Lt]
  /\ JsArray.consistent compareTrades (storedTrades Engine.circleIds) = false
  /\ map trade_id (JsArray.sort compareTrades (storedTrades Engine.circleIds))
     = ["A2"; "AZ"; "B1"].
Proof. repeat split; vm_compute; reflexivity. Qed.

End ListingWitnesses.

Section Pagination.

Context {runtime : Runtime}.

Import IntNum.

Lemma skipn_beyond {A : Type} (n : nat) (l : list A) :
  (length l <= n)%nat -> skipn n l = [].
Proof. intros H. by apply skipn_all2. Qed.

(** A window that starts at a non-negative offset. *)
Lemma slice_window {A : Type} (arr : list A) (s n : Z) :
  0 <= s -> 0 <= n ->
  JsArray.slice arr (IInt s) (IInt (s + n))
  = firstn (Z.to_nat n) (skipn (Z.to_nat s) arr).
Proof.
  intros Hs Hn. unfold JsArray.slice, relativeIndex.
  replace (s <? 0) with false by (symmetry; apply Z.ltb_ge; lia).
  replace (s + n <? 0) with false by (symmetry; apply Z.ltb_ge; lia).
  set (len := Z.of_nat (length arr)).
  destruct (Z.le_gt_cases s len) as [Hle | Hgt].
  - rewrite (Z.min_l s len) by lia.
    replace (Z.to_nat (Z.min (s + n) len - s))
      with (Nat.min (Z.to_nat n) (length (skipn (Z.to_nat s) arr))).
    + apply firstn_min_length.
    + rewrite length_skipn. subst len. lia.
  - rewrite (Z.min_r s len), (Z.min_r (s + n) len) by lia.
    rewrite Z.sub_diag. cbn [Z.to_nat firstn].
    rewrite (skipn_beyond (Z.to_nat s)) by (subst len; lia).
    by rewrite firstn_nil.
Qed.

(** The offsets computed from a page and a limit that are integers in
    the exact range. *)
Lemma page_offsets (p l : Z) :
  0 <= p -> 1 <= l -> l < 2 ^ 53 -> p * l < 2 ^ 53 ->
  mul (sub (IInt p) (IInt 1)) (IInt l) = IInt ((p - 1) * l)
  /\ add (IInt ((p - 1) * l)) (IInt l) = IInt (p * l).
Proof.
  intros Hp Hl Hl53 Hpl.
  assert (Hp53 : p < 2 ^ 53) by nia.
  assert (Hsub : sub (IInt p) (IInt 1) = IInt (p - 1)).
  { unfold sub. cbn [neg add]. rewrite round53_small by lia. f_equal. }
  rewrite Hsub. split.
  - unfold mul.
    destruct (Z.eq_dec (p - 1) 0) as [E | E].
    + rewrite E. cbn [isZero orb isNegative xorb].
      replace (l <? 0) with false by (symmetry; apply Z.ltb_ge; lia).
      reflexivity.
    + assert (Hz : isZero (IInt (p - 1)) || isZero (IInt l) = false).
      { destruct (p - 1) eqn:E1, l eqn:E2; try reflexivity; lia. }
      rewrite Hz. apply round53_small. nia.
  - cbn [add]. rewrite round53_small by nia. f_equal. lia.
Qed.

Lemma ceil_bounds (t l : Z) :
  0 <= t -> 1 <= l ->
  l * ((t + l - 1) / l - 1) < t <= l * ((t + l - 1) / l).
Proof.
  intros Ht Hl.
  pose proof (Z.div_mod (t + l - 1) l ltac:(lia)) as Hdm.
  pose proof (Z.mod_pos_bound (t + l - 1) l ltac:(lia)) as Hmod.
  nia.
Qed.

(** An integer from 2^53 up rounds to a Number from 2^53 up, or to
    infinity. *)
Lemma round53_large (z : Z) :
  2 ^ 53 <= z ->
  round53 z = IInf false \/ exists m, round53 z = IInt m /\ 2 ^ 53 <= m.
Proof.
  intros Hz. unfold round53.
  replace (Z.abs z) with z by lia.
  assert (Hlog : 53 <= Z.log2 z) by (apply Z.log2_le_pow2; lia).
  set (k := Z.log2 z - 52).
  replace (k <=? 0) with false by (symmetry; apply Z.leb_gt; lia).
  assert (Hk : 2 <= 2 ^ k).
  { change 2 with (2 ^ 1) at 1. apply Z.pow_le_mono_r; lia. }
  assert (Hq : 2 ^ 52 <= Z.shiftr z k).
  { rewrite Z.shiftr_div_pow2 by lia.
    apply Z.div_le_lower_bound; [lia |].
    rewrite <- Z.pow_add_r by lia. replace (k + 52) with (Z.log2 z) by lia.
    apply Z.log2_spec. lia. }
  set (q := Z.shiftr z k) in *.
  set (q' := if Z.land z (Z.ones k) <? Z.shiftl 1 (k - 1) then q
             else if Z.shiftl 1 (k - 1) <? Z.land z (Z.ones k) then q + 1
                  else if Z.even q then q else q + 1).
  assert (Hq' : 2 ^ 52 <= q').
  { subst q'. repeat match goal with |- context [if ?b then _ else _] => destruct b end; lia. }
  assert (Hm : 2 ^ 53 <= Z.shiftl q' k).
  { rewrite Z.shiftl_mul_pow2 by lia. nia. }
  clearbody q'.
  destruct (2 ^ 1024 <=? Z.shiftl q' k).
  - left. f_equal. apply Z.ltb_ge. lia.
  - right. exists (Z.shiftl q' k). split; [|exact Hm].
    rewrite Z.sgn_pos by lia. f_equal. lia.
Qed.

Lemma round53_isOffset (x : Z) : 0 <= x -> isOffset x (round53 x).
Proof.
  intros Hx. unfold isOffset. destruct (x <? 2 ^ 53) eqn:E.
  - apply Z.ltb_lt in E. apply round53_small. lia.
  - apply Z.ltb_ge in E. by apply round53_large.
Qed.

(** An offset is clamped to the length of the array. *)
Lemma isOffset_index (x n : Z) (v : intnum) :
  0 <= x -> 0 <= n < 2 ^ 53 -> isOffset x v -> relativeIndex n v = Z.min x n.
Proof.
  intros Hx Hn. unfold isOffset. destruct (x <? 2 ^ 53) eqn:E.
  - intros ->. cbn [relativeIndex].
    by replace (x <? 0) with false by (symmetry; apply Z.ltb_ge; lia).
  - apply Z.ltb_ge in E. intros [-> | (m & -> & Hm)]; cbn [relativeIndex]; [lia |].
    replace (m <? 0) with false by (symmetry; apply Z.ltb_ge; lia). lia.
Qed.

Lemma isOffset_mul (a l : Z) (v : intnum) :
  0 <= a -> 1 <= l -> isOffset a v -> isOffset (a * l) (mul v (IInt l)).
Proof.
  intros Ha Hl. unfold isOffset at 1. destruct (a <? 2 ^ 53) eqn:E.
  - intros ->. unfold mul.
    destruct (Z.eq_dec a 0) as [-> | Hne].
    + cbn [isZero orb isNegative xorb].
      replace (l <? 0) with false by (symmetry; apply Z.ltb_ge; lia).
      reflexivity.
    + assert (Hz : isZero (IInt a) || isZero (IInt l) = false).
      { destruct a, l; try reflexivity; lia. }
      rewrite Hz. apply round53_isOffset. nia.
  - apply Z.ltb_ge in E.
    assert (Hal : 2 ^ 53 <= a * l) by nia.
    assert (Hbig : (a * l <? 2 ^ 53) = false) by (apply Z.ltb_ge; lia).
    assert (Hl0 : isZero (IInt l) = false) by (destruct l; try reflexivity; lia).
    intros [-> | (m & -> & Hm)]; unfold isOffset; rewrite Hbig.
    + left. cbn [mul]. rewrite Hl0. cbn [isNegative xorb].
      f_equal. apply Z.ltb_ge. lia.
    + unfold mul.
      assert (Hz : isZero (IInt m) || isZero (IInt l) = false).
      { rewrite Hl0. destruct m; try reflexivity; lia. }
      rewrite Hz. apply round53_large. nia.
Qed.

Lemma isOffset_add (x l : Z) (v : intnum) :
  0 <= x -> 1 <= l -> isOffset x v -> isOffset (x + l) (add v (IInt l)).
Proof.
  intros Hx Hl. unfold isOffset at 1. destruct (x <? 2 ^ 53) eqn:E.
  - intros ->. cbn [add]. apply round53_isOffset. lia.
  - apply Z.ltb_ge in E.
    assert (Hbig : (x + l <? 2 ^ 53) = false) by (apply Z.ltb_ge; lia).
    intros [-> | (m & -> & Hm)]; unfold isOffset; rewrite Hbig.
    + left. reflexivity.
    + cbn [add]. apply round53_large. lia.
Qed.

(** The window between two offsets. *)
Lemma slice_offsets {A : Type} (arr : list A) (x l : Z) (start finish : intnum) :
  0 <= x -> 0 <= l -> Z.of_nat (length arr) < 2 ^ 53 ->
  isOffset x start -> isOffset (x + l) finish ->
  JsArray.slice arr start finish = firstn (Z.to_nat l) (skipn (Z.to_nat x) arr).
Proof.
  intros Hx Hl Hlen Hstart Hfinish. unfold JsArray.slice.
  rewrite (isOffset_index x _ start), (isOffset_index (x + l) _ finish) by (auto; lia).
  set (len := Z.of_nat (length arr)) in *.
  destruct (Z.le_gt_cases x len) as [Hle | Hgt].
  - rewrite (Z.min_l x len) by lia.
    replace (Z.to_nat (Z.min (x + l) len - x))
      with (Nat.min (Z.to_nat l) (length (skipn (Z.to_nat x) arr))).
    + apply firstn_min_length.
    + rewrite length_skipn. subst len. lia.
  - rewrite (Z.min_r x len), (Z.min_r (x + l) len) by lia.
    rewrite Z.sub_diag. cbn [Z.to_nat firstn].
    rewrite (skipn_beyond (Z.to_nat x)) by (subst len; lia).
    by rewrite firstn_nil.
Qed.

(** The Numbers are the integers that rounding leaves as they are; the
    opposite of one is one. *)
Lemma round53_opp (z : Z) : round53 z = IInt z -> round53 (- z) = IInt (- z).
Proof.
  unfold round53. rewrite Z.abs_opp.
  destruct (Z.log2 (Z.abs z) - 52 <=? 0); [reflexivity |]. cbv zeta.
  destruct (2 ^ 1024 <=? _); [discriminate |].
  intros H. injection H as H. f_equal. rewrite Z.sgn_opp. lia.
Qed.

(** What rounding gives is a Number. *)
Lemma round53_round53 (z m : Z) : round53 z = IInt m -> round53 m = IInt m.
Proof.
  unfold round53 at 1.
  destruct (Z.log2 (Z.abs z) - 52 <=? 0) eqn:Hk.
  { intros H. injection H as <-. unfold round53. by rewrite Hk. }
  apply Z.leb_gt in Hk. cbv zeta.
  set (a := Z.abs z) in *. set (k := Z.log2 a - 52) in *.
  assert (Ha : 0 < a).
  { destruct (Z.eq_dec a 0) as [E | E]; [| subst a; lia].
    subst k. rewrite E in Hk. simpl in Hk. lia. }
  assert (Hk2 : 0 < 2 ^ k) by (apply Z.pow_pos_nonneg; lia).
  assert (Hspec : 2 ^ Z.log2 a <= a < 2 ^ Z.succ (Z.log2 a)) by (apply Z.log2_spec; lia).
  assert (Hlo : 2 ^ 52 <= Z.shiftr a k).
  { rewrite Z.shiftr_div_pow2 by lia.
    apply Z.div_le_lower_bound; [lia |].
    rewrite <- Z.pow_add_r by lia. replace (k + 52) with (Z.log2 a) by lia. lia. }
  assert (Hhi : Z.shiftr a k < 2 ^ 53).
  { rewrite Z.shiftr_div_pow2 by lia.
    apply Z.div_lt_upper_bound; [lia |].
    rewrite <- Z.pow_add_r by lia. replace (k + 53) with (Z.succ (Z.log2 a)) by lia. lia. }
  set (q := Z.shiftr a k) in *.
  set (q' := if Z.land a (Z.ones k) <? Z.shiftl 1 (k - 1) then q
             else if Z.shiftl 1 (k - 1) <? Z.land a (Z.ones k) then q + 1
                  else if Z.even q then q else q + 1).
  assert (Hq' : 2 ^ 52 <= q' <= 2 ^ 53).
  { subst q'. repeat match goal with |- context [if ?b then _ else _] => destruct b end; lia. }
  clearbody q'.
  rewrite Z.shiftl_mul_pow2 by lia.
  destruct (2 ^ 1024 <=? q' * 2 ^ k) eqn:Hover; [discriminate |].
  intros H. injection H as <-.
  assert (Habs : Z.abs (Z.sgn z * (q' * 2 ^ k)) = q' * 2 ^ k).
  { subst a. destruct z; simpl Z.sgn; lia. }
  assert (Hsgn : Z.sgn (Z.sgn z * (q' * 2 ^ k)) = Z.sgn z).
  { subst a.
    destruct z; first [lia | rewrite Z.sgn_pos; simpl Z.sgn; lia
                      | rewrite Z.sgn_neg; simpl Z.sgn; lia]. }
  assert (Hexact : forall c j : Z,
            2 ^ 52 <= c < 2 ^ 53 -> 0 < j -> c * 2 ^ j = q' * 2 ^ k ->
            round53 (Z.sgn z * (q' * 2 ^ k)) = IInt (Z.sgn z * (q' * 2 ^ k))).
  { intros c j Hc Hj Hcj. unfold round53. rewrite Habs, Hsgn, <- Hcj.
    assert (Hj2 : 0 < 2 ^ j) by (apply Z.pow_pos_nonneg; lia).
    assert (Hlog : Z.log2 (c * 2 ^ j) = j + 52).
    { rewrite Z.log2_mul_pow2 by lia. f_equal. apply Z.log2_unique; lia. }
    rewrite Hlog. replace (j + 52 - 52) with j by lia.
    replace (j <=? 0) with false by (symmetry; apply Z.leb_gt; lia).
    rewrite Z.shiftr_div_pow2, Z.land_ones, !Z.shiftl_mul_pow2 by lia.
    rewrite Z.div_mul, Z.mod_mul by lia.
    assert (Hhalf : 0 < 1 * 2 ^ (j - 1)).
    { assert (0 < 2 ^ (j - 1)) by (apply Z.pow_pos_nonneg; lia). lia. }
    replace (0 <? 1 * 2 ^ (j - 1)) with true by (symmetry; apply Z.ltb_lt; lia).
    rewrite Hcj, Hover. reflexivity. }
  destruct (Z.eq_dec q' (2 ^ 53)) as [E | E].
  - apply (Hexact (2 ^ 52) (k + 1)); [lia | lia |].
    rewrite E, Z.pow_add_r by lia. lia.
  - apply (Hexact q' k); [lia | lia | reflexivity].
Qed.

(** [parseInt] answers Numbers. *)
Lemma parseInt_is_Number (text : string) (z : Z) :
  parseInt text = IInt z -> round53 z = IInt z.
Proof.
  unfold parseInt.
  destruct (splitSign (trimStart text)) as [negative t1].
  destruct (splitRadix t1) as [radix t2].
  destruct (digitsPrefix radix t2 None) as [[|v|v] |]; try discriminate.
  - destruct negative; [discriminate |]. intros H. injection H as <-. reflexivity.
  - apply round53_round53.
  - apply round53_round53.
Qed.

End Pagination.

Section PaginationClaim.

Context {runtime : Runtime}.

Import IntNum.

(** C5, as the code has it.  For a page [p >= 1] and a limit [l >= 1],
    the listing answers, with no error, the [l] trades that follow the
    first [(p - 1) * l] of the filtered and sorted trades, and the
    pagination record: the page, the limit, the number of filtered trades
    and the number of pages, which is the ceiling of that number over
    [l].  Every page beyond the last gives no trade, and so does page 0.
    The number of filtered trades is that of an array: below 2^32. *)
Theorem listTrades_paginates (q : TradesQuery) (s : Store) (p l : Z) :
  let sorted := JsArray.sort compareTrades (filterTrades q (storedTrades s)) in
  let n := Z.of_nat (length (filterTrades q (storedTrades s))) in
  let pages := (n + l - 1) / l in
  parseInt (orDefault (q_page q) "1") = IInt p ->
  parseInt (orDefault (q_limit q) "50") = IInt l ->
  0 <= p -> 1 <= l -> n < 2 ^ 32 ->
  exists body : TradesBody,
    listTrades q s = (Json body, s, [KvGet "trades"])
    /\ (1 <= p ->
        trades body = firstn (Z.to_nat l) (skipn (Z.to_nat ((p - 1) * l)) sorted))
    /\ pagination body =
         {| page := IInt p; limit := IInt l;
            total := length (filterTrades q (storedTrades s));
            totalPages := IInt pages |}
    /\ l * (pages - 1) < n <= l * pages
    /\ (p = 0 \/ pages < p -> trades body = []).
Proof.
  intros sorted n pages Hpage Hlimit Hp Hl Hn32.
  pose proof (listTrades_run q s) as Hrun. cbv zeta in Hrun.
  rewrite Hpage, Hlimit in Hrun. fold sorted in Hrun.
  assert (Hlen : length sorted = length (filterTrades q (storedTrades s)))
    by apply sort_length.
  assert (Hn : 0 <= n) by (subst n; lia).
  pose proof (ceil_bounds n l Hn Hl) as Hceil. fold pages in Hceil.
  eexists. split; [exact Hrun |]. cbn [trades pagination].
  set (start := mul (sub (IInt p) (IInt 1)) (IInt l)).
  assert (Hwin : 1 <= p ->
                 JsArray.slice sorted start (add start (IInt l))
                 = firstn (Z.to_nat l) (skipn (Z.to_nat ((p - 1) * l)) sorted)).
  { intros Hp1.
    assert (Hstart : isOffset ((p - 1) * l) start).
    { subst start. apply isOffset_mul; [lia | lia |].
      unfold sub. cbn [neg add]. replace (p + -1) with (p - 1) by lia.
      apply round53_isOffset. lia. }
    apply slice_offsets; [nia | lia | rewrite Hlen; fold n; lia | exact Hstart |].
    apply isOffset_add; [nia | lia | exact Hstart]. }
  split; [exact Hwin |].
  split.
  { rewrite Hlen. f_equal. unfold ceilDiv. fold n.
    destruct l as [|l'|l']; try lia.
    replace (0 <? Z.pos l') with true by reflexivity. reflexivity. }
  split; [exact Hceil |].
  intros [-> | Hbeyond].
  - pose proof (round53_opp l (parseInt_is_Number _ l Hlimit)) as Hopp.
    assert (Hstart : start = IInt (- l)).
    { subst start. change (sub (IInt 0) (IInt 1)) with (IInt (-1)). unfold mul.
      assert (Hz : isZero (IInt (-1)) || isZero (IInt l) = false).
      { destruct l; try reflexivity; lia. }
      rewrite Hz. replace (-1 * l) with (- l) by lia. exact Hopp. }
    rewrite Hstart. cbn [add]. replace (- l + l) with 0 by lia.
    unfold JsArray.slice, relativeIndex. change (round53 0) with (IInt 0).
    replace (- l <? 0) with true by (symmetry; apply Z.ltb_lt; lia).
    cbn [Z.ltb Z.compare].
    replace (Z.to_nat (Z.min 0 (Z.of_nat (length sorted))
                       - Z.max (Z.of_nat (length sorted) + - l) 0))
      with 0%nat by lia.
    reflexivity.
  - assert (Hpages : 0 <= pages) by nia.
    rewrite Hwin by lia.
    rewrite skipn_beyond; [by rewrite firstn_nil |].
    rewrite Hlen. subst n. nia.
Qed.

End PaginationClaim.

Section PaginationExamples.

Import IntNum.

#[local] Existing Instance Engine.engine.

(** The forty-five trades are numbered, so the order of the sort is the
    prescribed one. *)
Lemma fortyFive_sorted (q : TradesQuery) :
  JsArray.sort compareTrades (filterTrades q (storedTrades Engine.fortyFiveTrades))
  = JsArray.stableSort compareTrades
      (filterTrades q (storedTrades Engine.fortyFiveTrades)).
Proof.
  apply sort_numbered. apply forallb_forall. intros t Ht.
  apply filterTrades_In in Ht as [Ht _].
  revert t Ht. apply forallb_forall. vm_compute. reflexivity.
Qed.

(** Forty-five trades at twenty a page: page 3 holds the last five and
    there are three pages; page 4 holds none. *)
Lemma listTrades_paginates_witness :
  (exists body : TradesBody,
     @listTrades Engine.engine (Engine.pageQuery (Some "3") (Some "20"))
       Engine.fortyFiveTrades
       = (Json body, Engine.fortyFiveTrades, [KvGet "trades"])
     /\ length (trades body) = 5%nat
     /\ totalPages (pagination body) = IInt 3
     /\ total (pagination body) = 45%nat)
  /\ (exists body : TradesBody,
        @listTrades Engine.engine (Engine.pageQuery (Some "4") (Some "20"))
          Engine.fortyFiveTrades
          = (Json body, Engine.fortyFiveTrades, [KvGet "trades"])
        /\ trades body = []).
Proof.
  split.
  - destruct (@listTrades_paginates Engine.engine
                (Engine.pageQuery (Some "3") (Some "20")) Engine.fortyFiveTrades 3 20)
      as (body & Hrun & Htrades & Hpag & _ & _);
      [vm_compute; reflexivity | vm_compute; reflexivity | lia | lia
      | vm_compute; reflexivity |].
    exists body. split; [exact Hrun |].
    rewrite Htrades by lia. rewrite Hpag. cbn [totalPages total].
    rewrite fortyFive_sorted.
    split; [vm_compute; reflexivity |].
    split; [vm_compute; reflexivity | vm_compute; reflexivity].
  - destruct (@listTrades_paginates Engine.engine
                (Engine.pageQuery (Some "4") (Some "20")) Engine.fortyFiveTrades 4 20)
      as (body & Hrun & _ & _ & _ & Hempty);
      [vm_compute; reflexivity | vm_compute; reflexivity | lia | lia
      | vm_compute; reflexivity |].
    exists body. split; [exact Hrun |].
    apply Hempty. right. vm_compute. reflexivity.
Defined.

(** C5, counterexample: page -1 is outside the pages 1 to 3, and yet the
    listing answers twenty trades, those at offsets 5 to 24, because
    [slice] counts negative offsets from the end. *)
Lemma listTrades_negative_page :
  exists body : TradesBody,
    @listTrades Engine.engine (Engine.pageQuery (Some "-1") (Some "20"))
      Engine.fortyFiveTrades
      = (Json body, Engine.fortyFiveTrades, [KvGet "trades"])
    /\ page (pagination body) = IInt (-1)
    /\ totalPages (pagination body) = IInt 3
    /\ length (trades body) = 20%nat
    /\ map trade_id (firstn 2 (trades body)) = ["T6"; "T7"].
Proof.
  eexists. split; [apply listTrades_run |].
  cbn [pagination trades page totalPages].
  rewrite sort_length, fortyFive_sorted.
  repeat split; vm_compute; reflexivity.
Qed.

(** A limit below 1 is outside the claim: at page 1 with the limit -5 the
    listing answers the first forty trades and counts -9 pages. *)
Example listTrades_negative_limit :
  exists body : TradesBody,
    @listTrades Engine.engine (Engine.pageQuery (Some "1") (Some "-5"))
      Engine.fortyFiveTrades
      = (Json body, Engine.fortyFiveTrades, [KvGet "trades"])
    /\ totalPages (pagination body) = IInt (-9)
    /\ length (trades body) = 40%nat.
Proof.
  eexists. split; [apply listTrades_run |].
  cbn [pagination trades page totalPages].
  rewrite sort_length, fortyFive_sorted.
  repeat split; vm_compute; reflexivity.
Qed.

End PaginationExamples.

(** ** Numbers *)

Section NumFacts.

Import Num.

Lemma sub_dropZeroSign (x y : number) :
  dropZeroSign (sub (dropZeroSign x) (dropZeroSign y)) = dropZeroSign (sub x y).
Proof.
  destruct x as [sx|sx| |sx mx ex], y as [sy|sy| |sy my ey]; try reflexivity.
  destruct sx, sy; reflexivity.
Qed.

Lemma mul_dropZeroSign_r (x y : number) :
  dropZeroSign (mul x (dropZeroSign y)) = dropZeroSign (mul x y).
Proof.
  destruct x as [sx|sx| |sx mx ex], y as [sy|sy| |sy my ey]; reflexivity.
Qed.

Lemma mul_dropZeroSign_l (x x' y : number) :
  dropZeroSign x = dropZeroSign x' ->
  dropZeroSign (mul x y) = dropZeroSign (mul x' y).
Proof.
  intros H.
  destruct x as [sx|sx| |sx mx ex], x' as [sx'|sx'| |sx' mx' ex'];
    cbn [dropZeroSign] in H; try discriminate H.
  - destruct y as [sy|sy| |sy my ey]; reflexivity.
  - by injection H as <-.
  - reflexivity.
  - by injection H as <- <- <-.
Qed.

(** Reading the three Numbers back with [parseFloat] changes the product
    by the sign of a zero at most. *)
Lemma mtm_formula (close price qty : number) :
  sameValueZero
    (mul (sub (parseFloatNumber close) (parseFloatNumber price)) (parseFloatNumber qty))
    (mul (sub close price) qty).
Proof.
  unfold sameValueZero, parseFloatNumber.
  rewrite mul_dropZeroSign_r.
  apply mul_dropZeroSign_l, sub_dropZeroSign.
Qed.

End NumFacts.

(** ** The valuation loop *)

Section Valuation.

Context {runtime : Runtime}.

Import Num.

Lemma valuation_eq (marketPrices : list MarketPrice.t) (t : Trade) :
  valuation marketPrices t =
  match latestPrice marketPrices t with
  | Some latest =>
      [ {| trade := t;
           market_price := parseFloatNumber (MarketPrice.close_price latest);
           mtm := mul (sub (parseFloatNumber (MarketPrice.close_price latest))
                         (parseFloatNumber (trade_price t)))
                    (parseFloatNumber (quantity t)) |} ]
  | None => []
  end.
Proof.
  unfold valuation, valueTrade. by destruct (latestPrice marketPrices t).
Qed.

Lemma valueTrade_trades (marketPrices : list MarketPrice.t) (st : PnLState) (t : Trade) :
  st_tradesPnL (valueTrade marketPrices st t)
  = st_tradesPnL st ++ valuation marketPrices t.
Proof.
  rewrite valuation_eq. unfold valueTrade.
  destruct (latestPrice marketPrices t); cbn [st_tradesPnL]; [reflexivity|].
  by rewrite app_nil_r.
Qed.

Lemma valueTrade_total (marketPrices : list MarketPrice.t) (st : PnLState) (t : Trade) :
  st_totalPnL (valueTrade marketPrices st t)
  = fold_left add (map mtm (valuation marketPrices t)) (st_totalPnL st).
Proof.
  rewrite valuation_eq. unfold valueTrade.
  destruct (latestPrice marketPrices t); reflexivity.
Qed.

Lemma valuation_loop_trades (marketPrices : list MarketPrice.t)
    (ts : list Trade) (st : PnLState) :
  st_tradesPnL (fold_left (valueTrade marketPrices) ts st)
  = st_tradesPnL st ++ flat_map (valuation marketPrices) ts.
Proof.
  revert st. induction ts as [|t ts IH]; intros st; cbn [fold_left flat_map].
  - by rewrite app_nil_r.
  - rewrite IH, valueTrade_trades. by rewrite <- app_assoc.
Qed.

Lemma valuation_loop_total (marketPrices : list MarketPrice.t)
    (ts : list Trade) (st : PnLState) :
  st_totalPnL (fold_left (valueTrade marketPrices) ts st)
  = fold_left add (map mtm (flat_map (valuation marketPrices) ts)) (st_totalPnL st).
Proof.
  revert st. induction ts as [|t ts IH]; intros st; cbn [fold_left flat_map]; [reflexivity|].
  rewrite IH, valueTrade_total. by rewrite map_app, fold_left_app.
Qed.

Lemma priceIsFor_iff (name : string) (p : MarketPrice.t) :
  priceIsFor name p = true <-> MarketPrice.instrument p = Some name.
Proof.
  unfold priceIsFor. destruct (MarketPrice.instrument p) as [x|].
  - rewrite String.eqb_eq. split; congruence.
  - split; discriminate.
Qed.

Lemma pricesFor_In (marketPrices : list MarketPrice.t) (t : Trade) (p : MarketPrice.t) :
  In p (pricesFor marketPrices t) <->
  In p marketPrices /\ MarketPrice.instrument p = Some (instrument t).
Proof. unfold pricesFor. by rewrite filter_In, priceIsFor_iff. Qed.

Lemma latestPrice_none (marketPrices : list MarketPrice.t) (t : Trade) :
  latestPrice marketPrices t = None <-> pricesFor marketPrices t = [].
Proof. apply sort_head_none. Qed.

Lemma latestPrice_matches (marketPrices : list MarketPrice.t) (t : Trade)
    (latest : MarketPrice.t) :
  latestPrice marketPrices t = Some latest ->
  In latest marketPrices /\ MarketPrice.instrument latest = Some (instrument t).
Proof.
  unfold latestPrice, instrumentPrices. intros H.
  apply pricesFor_In. unfold pricesFor.
  apply (sort_In comparePrices).
  destruct (JsArray.sort comparePrices _) as [|h rest]; [discriminate|].
  injection H as ->. by left.
Qed.

Lemma getTime_cases (v : option string) :
  getTime v = IntNum.INaN \/ exists ms, getTime v = IntNum.IInt ms.
Proof.
  unfold getTime. destruct v as [x|]; [|by left].
  destruct (dateTime x) as [ms|]; [|by left].
  destruct (Z.abs ms <=? 8640000000000000); [right; eauto | by left].
Qed.

Lemma hasValidDate_intro (p : MarketPrice.t) :
  IntNum.isNaN (getTime (MarketPrice.price_date p)) = false -> hasValidDate p.
Proof.
  unfold hasValidDate.
  destruct (getTime_cases (MarketPrice.price_date p)) as [-> | H]; [discriminate | done].
Qed.

(** Among prices that all carry a valid date, the one taken has the
    greatest time value. *)
Lemma latestPrice_greatest (marketPrices : list MarketPrice.t) (t : Trade)
    (latest : MarketPrice.t) :
  (forall p, In p (pricesFor marketPrices t) -> hasValidDate p) ->
  latestPrice marketPrices t = Some latest ->
  forall p, In p (pricesFor marketPrices t) -> priceTime p <= priceTime latest.
Proof.
  intros Hvalid Hlatest p Hp.
  assert (Hag : agreesWith comparePrices (fun x => - priceTime x) (pricesFor marketPrices t)).
  { intros a b Ha Hb.
    destruct (Hvalid a Ha) as [ta Hta]. destruct (Hvalid b Hb) as [tb Htb].
    unfold comparePrices, priceTime. rewrite Hta, Htb.
    rewrite sortSign_sub. symmetry. apply Z.compare_opp. }
  destruct (sort_head_least comparePrices _ _ latest Hag Hlatest) as [_ Hleast].
  specialize (Hleast p Hp). cbn beta in Hleast. lia.
Qed.

End Valuation.

Section ValuationClaim.

Context {runtime : Runtime}.

Import Num.

(** C1, as the code has it.  The P&L handler values the filtered trades in
    order, each with at most one entry.  A trade whose instrument no stored price carries, as
    an equal string, gets no entry.  A trade for which such a price exists
    gets exactly one entry, made with one of those prices: when they all
    carry a valid date, one whose date is the greatest.  The entry holds
    the close of that price as market price and
    [(close - trade_price) * quantity] as MtM (the three Numbers being
    read back with [parseFloat], which changes the sign of a zero at
    most); the side of the trade plays no part in it. *)
Theorem computePnL_values_at_latest_price (q : PnLQuery) (s : Store) :
  let filtered := filterForPnL q (storedTrades s) in
  let prices := storedPrices s in
  exists body : PnLBody,
    computePnL q s = (Json body, s, [KvGet "trades"; KvGet "market_prices"])
    /\ pnl_trades body = flat_map (valuation prices) filtered
    /\ forall t : Trade,
         ((forall p, In p prices -> MarketPrice.instrument p <> Some (instrument t)) ->
          valuation prices t = [])
         /\ ((exists p, In p prices /\ MarketPrice.instrument p = Some (instrument t)) ->
             exists (latest : MarketPrice.t) (m : number),
               In latest prices
               /\ MarketPrice.instrument latest = Some (instrument t)
               /\ ((forall p, In p prices ->
                      MarketPrice.instrument p = Some (instrument t) -> hasValidDate p) ->
                   forall p, In p prices ->
                     MarketPrice.instrument p = Some (instrument t) ->
                     priceTime p <= priceTime latest)
               /\ valuation prices t
                  = [ {| trade := t;
                         market_price := parseFloatNumber (MarketPrice.close_price latest);
                         mtm := m |} ]
               /\ m = mul (sub (parseFloatNumber (MarketPrice.close_price latest))
                             (parseFloatNumber (trade_price t)))
                        (parseFloatNumber (quantity t))
               /\ sameValueZero m
                    (mul (sub (MarketPrice.close_price latest) (trade_price t))
                       (quantity t))
               /\ forall sd : string, map mtm (valuation prices (withSide t sd)) = [m]).
Proof.
  intros filtered prices.
  eexists. split; [apply computePnL_run |]. cbn [pnl_trades].
  split; [apply (valuation_loop_trades prices filtered initialState) |].
  intros t. split.
  - intros Hnone. rewrite valuation_eq.
    destruct (latestPrice prices t) as [latest|] eqn:E; [|reflexivity].
    apply latestPrice_matches in E as [Hin Hinstr]. by destruct (Hnone latest Hin).
  - intros (p0 & Hin0 & Hinstr0).
    destruct (latestPrice prices t) as [latest|] eqn:E.
    + exists latest. eexists.
      destruct (latestPrice_matches _ _ _ E) as [Hin Hinstr].
      split; [exact Hin |]. split; [exact Hinstr |].
      split.
      { intros Hvalid p Hp Hpi.
        apply (latestPrice_greatest prices t latest); [| exact E | by apply pricesFor_In].
        intros p' Hp'. apply pricesFor_In in Hp' as [H1 H2]. by apply Hvalid. }
      split; [by rewrite valuation_eq, E |].
      split; [reflexivity |].
      split; [apply mtm_formula |].
      intros sd. rewrite valuation_eq.
      change (latestPrice prices (withSide t sd)) with (latestPrice prices t).
      rewrite E. reflexivity.
    + apply latestPrice_none in E.
      assert (Hp0 : In p0 (pricesFor prices t)) by (by apply pricesFor_In).
      rewrite E in Hp0. destruct Hp0.
Qed.

End ValuationClaim.

Section ValuationExamples.

Import Num.

#[local] Existing Instance Engine.engine.

(** A purchase and a sale of 1000 at 75.50 against a latest close of 76.00
    are both valued at 500.00; the trade without a price is left out. *)
Lemma computePnL_values_at_latest_price_witness :
  (exists body : PnLBody,
     computePnL Engine.allPnL Engine.crudeStore
       = (Json body, Engine.crudeStore, [KvGet "trades"; KvGet "market_prices"])
     /\ map (fun v => (trade_id (trade v), side (trade v), mtm v)) (pnl_trades body)
        = [ ("T001", "BUY", parseFloat "500.00");
            ("T002", "SELL", parseFloat "500.00") ])
  /\ (exists latest : MarketPrice.t,
        (forall p, In p (storedPrices Engine.crudeStore) ->
                   priceTime p <= priceTime latest)
        /\ latest = Engine.priceRecord "WTI-CRUDE" "2025-01-16" "76.00")
  /\ valuation (storedPrices Engine.crudeStore)
       (Engine.tradeRecord "T003" "2025-01-15" "NATGAS" "BUY" "500" "3.10") = [].
Proof.
  destruct (computePnL_values_at_latest_price Engine.allPnL Engine.crudeStore)
    as (body & Hrun & Htrades & Hall).
  cbn [storedPrices Engine.crudeStore kv_market_prices] in *.
  split; [| split].
  - exists body. split; [exact Hrun |]. rewrite Htrades. vm_compute. reflexivity.
  - destruct (proj2 (Hall (Engine.tradeRecord "T001" "2025-01-15" "WTI-CRUDE"
                             "BUY" "1000" "75.50")))
      as (latest & m & Hin & Hinstr & Hmax & _).
    { eexists. split; [left; reflexivity | reflexivity]. }
    assert (Hvalid : forall p,
               In p [ Engine.priceRecord "WTI-CRUDE" "2025-01-10" "70.00";
                      Engine.priceRecord "WTI-CRUDE" "2025-01-16" "76.00";
                      Engine.priceRecord "WTI-CRUDE" "2025-01-12" "80.00" ] ->
               MarketPrice.instrument p = Some "WTI-CRUDE" /\ hasValidDate p).
    { intros p [<- | [<- | [<- | []]]]; (split; [reflexivity |]);
        apply hasValidDate_intro; vm_compute; reflexivity. }
    exists latest. split.
    + intros p Hp. apply Hmax; [| exact Hp | apply (Hvalid p Hp)].
      intros p' Hp' _. apply (Hvalid p' Hp').
    + assert (H16 : priceTime (Engine.priceRecord "WTI-CRUDE" "2025-01-16" "76.00")
                    <= priceTime latest).
      { apply Hmax; [| right; left; reflexivity | reflexivity].
        intros p' Hp' _. apply (Hvalid p' Hp'). }
      destruct Hin as [<- | [<- | [<- | []]]].
      * vm_compute in H16. exfalso. apply H16. reflexivity.
      * reflexivity.
      * vm_compute in H16. exfalso. apply H16. reflexivity.
  - apply (proj1 (Hall _)).
    intros p [<- | [<- | [<- | []]]]; discriminate.
Defined.

(** C1, counterexample: of two prices of the instrument, the one stored
    first has no date and the other is dated 16 January; the trade is
    valued with the first one, at 70.00, which is not the price with the
    greatest date.  A missing date makes the comparator answer NaN, which
    the sort reads as a tie, and the stored order stands. *)
Lemma computePnL_takes_undated_price :
  storedPrices Engine.undatedPriceStore
    = [ {| MarketPrice.instrument := Some "WTI-CRUDE";
           MarketPrice.price_date := None;
           MarketPrice.close_price := parseFloat "70.00" |};
        Engine.priceRecord "WTI-CRUDE" "2025-01-16" "76.00" ]
  /\ exists body : PnLBody,
       computePnL Engine.allPnL Engine.undatedPriceStore
         = (Json body, Engine.undatedPriceStore,
            [KvGet "trades"; KvGet "market_prices"])
       /\ map (fun v => (trade_id (trade v), market_price v, mtm v)) (pnl_trades body)
          = [ ("T001", parseFloat "70.00", parseFloat "-5500") ].
Proof.
  split; [vm_compute; reflexivity |].
  eexists. split; [apply computePnL_run |].
  cbn [pnl_trades]. vm_compute. reflexivity.
Qed.

(** A price without a date compares as equal to every other price, so the
    comparison of prices is not consistent on a list that holds one
    between two dated prices.  The order is then the engine's, which
    leaves these three as they came: the price taken is the first one, of
    10 January, and not the latest. *)
Example latestPrice_undated_between :
  JsArray.consistent comparePrices Engine.undatedBetween = false
  /\ option_map MarketPrice.price_date
       (latestPrice Engine.undatedBetween (Engine.tradeWithId "T1"))
     = Some (Some "2025-01-10").
Proof. split; vm_compute; reflexivity. Qed.

End ValuationExamples.

(** ** The rollups *)

Section Rollups.

Context {runtime : Runtime}.

Import Num.

(** X25.  The total is the sum of the MtM values of the valued trades,
    added in their order; the trade count is the number of filtered
    trades, the valued count the number of entries, and the entries are
    those of the filtered trades that have a price. *)
Theorem computePnL_totals (q : PnLQuery) (s : Store) :
  let filtered := filterForPnL q (storedTrades s) in
  let prices := storedPrices s in
  exists body : PnLBody,
    computePnL q s = (Json body, s, [KvGet "trades"; KvGet "market_prices"])
    /\ pnl_trades body = flat_map (valuation prices) filtered
    /\ totalPnL body = sumNumbers (map mtm (pnl_trades body))
    /\ tradeCount body = length filtered
    /\ valuedTradeCount body = length (pnl_trades body)
    /\ valuedTradeCount body
       = length (List.filter (fun t => negb (Nat.eqb (length (pricesFor prices t)) 0))
                   filtered).
Proof.
  intros filtered prices.
  pose proof (valuation_loop_trades prices filtered initialState) as Htrades.
  pose proof (valuation_loop_total prices filtered initialState) as Htotal.
  cbn [app initialState st_tradesPnL st_totalPnL] in Htrades, Htotal.
  eexists. split; [apply computePnL_run |].
  cbn [pnl_trades totalPnL tradeCount valuedTradeCount].
  fold prices filtered initialState.
  split; [exact Htrades |].
  split; [rewrite Htrades; exact Htotal |].
  split; [reflexivity |]. split; [reflexivity |].
  rewrite Htrades. clear Htrades Htotal.
  induction filtered as [|t ts IH]; [reflexivity|].
  cbn [flat_map List.filter]. rewrite length_app, IH.
  rewrite valuation_eq.
  destruct (latestPrice prices t) as [latest|] eqn:E.
  - assert (Hne : pricesFor prices t <> []).
    { intros Hnil. apply latestPrice_none in Hnil. congruence. }
    destruct (pricesFor prices t); [congruence | reflexivity].
  - apply latestPrice_none in E. rewrite E. reflexivity.
Qed.

End Rollups.

Section RollupExamples.

Import Num.

#[local] Existing Instance Engine.engine.

(** C2, at a failing input.  Two trades of 15 January; the price file gave
    the first one's instrument a close that is not a number.  Both trades
    are valued, with MtM NaN and 500; their sum, and the total the handler
    answers, is NaN; but the daily figure for 15 January is 500: the
    running daily sum is read with [|| 0], which takes the NaN it held
    for 0. *)
Theorem computePnL_daily_sum_restarts_after_NaN :
  exists body : PnLBody,
    computePnL Engine.allPnL Engine.unpricedBrentStore
      = (Json body, Engine.unpricedBrentStore, [KvGet "trades"; KvGet "market_prices"])
    /\ map (fun v => (trade_date (trade v), mtm v)) (pnl_trades body)
       = [ ("2025-01-15", NaN); ("2025-01-15", parseFloat "500") ]
    /\ sumNumbers (map mtm (pnl_trades body)) = NaN
    /\ totalPnL body = NaN
    /\ dailyPnL body = [ {| date := "2025-01-15"; pnl := parseFloat "500" |} ].
Proof.
  eexists. split; [apply computePnL_run |].
  cbn [pnl_trades totalPnL dailyPnL].
  repeat split; vm_compute; reflexivity.
Qed.

End RollupExamples.

(** ** The daily rollup *)

Section DailyRollup.

Context {runtime : Runtime}.

Import Num.

Lemma lookupProp_assignProp (obj : list (string * number)) (k k' : string) (v : number) :
  lookupProp (assignProp obj k v) k'
  = if String.eqb k k' then Some v else lookupProp obj k'.
Proof.
  unfold lookupProp. induction obj as [|[k0 w] rest IH]; cbn [assignProp List.find fst snd].
  - by destruct (String.eqb k k').
  - destruct (String.eqb_spec k0 k) as [-> | Hne]; cbn [List.find fst snd].
    + by destruct (String.eqb k k').
    + destruct (String.eqb_spec k0 k') as [-> | Hne'].
      * destruct (String.eqb_spec k k'); [congruence | reflexivity].
      * exact IH.
Qed.

Lemma assignProp_keys (obj : list (string * number)) (k : string) (v : number) :
  map fst (assignProp obj k v)
  = if existsb (String.eqb k) (map fst obj) then map fst obj else map fst obj ++ [k].
Proof.
  induction obj as [|[k0 w] rest IH]; cbn [assignProp map fst existsb]; [reflexivity|].
  rewrite (String.eqb_sym k k0).
  destruct (String.eqb_spec k0 k) as [-> | Hne]; cbn [orb map fst]; [reflexivity|].
  rewrite IH. by destruct (existsb (String.eqb k) (map fst rest)).
Qed.

Lemma assignProp_NoDup (obj : list (string * number)) (k : string) (v : number) :
  List.NoDup (map fst obj) -> List.NoDup (map fst (assignProp obj k v)).
Proof.
  intros Hnd. rewrite assignProp_keys.
  destruct (existsb (String.eqb k) (map fst obj)) eqn:E; [exact Hnd|].
  apply List.NoDup_app; [exact Hnd | repeat constructor; by intros [] |].
  intros x Hx [<- | []].
  assert (existsb (String.eqb k) (map fst obj) = true); [|congruence].
  apply existsb_exists. exists k. split; [exact Hx | apply String.eqb_refl].
Qed.

Lemma lookupProp_In (obj : list (string * number)) (k : string) (v : number) :
  List.NoDup (map fst obj) -> (In (k, v) obj <-> lookupProp obj k = Some v).
Proof.
  unfold lookupProp. induction obj as [|[k0 w] rest IH]; intros Hnd; cbn [List.find fst snd].
  - split; [intros [] | discriminate].
  - inversion Hnd as [|? ? Hnotin Hrest]; subst.
    destruct (String.eqb_spec k0 k) as [-> | Hne].
    + split.
      * intros [[= ->] | Hin]; [reflexivity|].
        destruct Hnotin. apply in_map_iff. by exists (k, v).
      * intros [= ->]. by left.
    + rewrite <- (IH Hrest). split.
      * intros [[= -> _] | Hin]; [congruence | exact Hin].
      * intros Hin. by right.
Qed.

Lemma valueTrade_daily (marketPrices : list MarketPrice.t) (st : PnLState)
    (t : Trade) (day : string) :
  lookupProp (st_dailyPnL (valueTrade marketPrices st t)) day
  = fold_left (fun acc m => Some (add (orZero acc) m))
      (mtmOfDay day (valuation marketPrices t))
      (lookupProp (st_dailyPnL st) day).
Proof.
  unfold mtmOfDay. rewrite valuation_eq. unfold valueTrade.
  destruct (latestPrice marketPrices t) as [latest|]; [|reflexivity].
  cbn [st_dailyPnL List.filter trade]. rewrite lookupProp_assignProp.
  destruct (String.eqb_spec (trade_date t) day) as [-> | Hne]; reflexivity.
Qed.

Lemma valueTrade_daily_NoDup (marketPrices : list MarketPrice.t) (st : PnLState) (t : Trade) :
  List.NoDup (map fst (st_dailyPnL st)) ->
  List.NoDup (map fst (st_dailyPnL (valueTrade marketPrices st t))).
Proof.
  intros Hnd. unfold valueTrade.
  destruct (latestPrice marketPrices t); [|exact Hnd].
  cbn [st_dailyPnL]. by apply assignProp_NoDup.
Qed.

Lemma valuation_loop_daily (marketPrices : list MarketPrice.t) (ts : list Trade)
    (st : PnLState) (day : string) :
  lookupProp (st_dailyPnL (fold_left (valueTrade marketPrices) ts st)) day
  = fold_left (fun acc m => Some (add (orZero acc) m))
      (mtmOfDay day (flat_map (valuation marketPrices) ts))
      (lookupProp (st_dailyPnL st) day).
Proof.
  revert st. induction ts as [|t ts IH]; intros st; cbn [fold_left flat_map]; [reflexivity|].
  rewrite IH, valueTrade_daily. unfold mtmOfDay.
  by rewrite List.filter_app, map_app, fold_left_app.
Qed.

Lemma valuation_loop_daily_NoDup (marketPrices : list MarketPrice.t) (ts : list Trade)
    (st : PnLState) :
  List.NoDup (map fst (st_dailyPnL st)) ->
  List.NoDup (map fst (st_dailyPnL (fold_left (valueTrade marketPrices) ts st))).
Proof.
  revert st. induction ts as [|t ts IH]; intros st Hnd; cbn [fold_left]; [exact Hnd|].
  by apply IH, valueTrade_daily_NoDup.
Qed.

Lemma filter_split_perm {A : Type} (f : A -> bool) (l : list A) :
  Permutation (List.filter f l ++ List.filter (fun x => negb (f x)) l) l.
Proof.
  induction l as [|x l IH]; cbn [List.filter]; [reflexivity|].
  destruct (f x); cbn [negb app].
  - by constructor.
  - rewrite <- Permutation_middle. by constructor.
Qed.

Lemma entries_perm (obj : list (string * number)) : Permutation (entries obj) obj.
Proof.
  unfold entries. rewrite <- (sort_perm compareIndexEntries).
  apply filter_split_perm.
Qed.

Lemma dailyFigure_from (ms : list number) (acc : number) :
  keptByOrZero acc ->
  List.Forall keptByOrZero (runningSums acc ms) ->
  fold_left (fun a m => Some (add (orZero a) m)) ms (Some acc)
  = Some (fold_left add ms acc).
Proof.
  revert acc. induction ms as [|m ms IH]; intros acc Hacc Hall; [reflexivity|].
  cbn [fold_left runningSums] in *.
  inversion Hall as [|? ? Hhead Hrest]; subst.
  unfold keptByOrZero in Hacc. rewrite Hacc. by apply IH.
Qed.

(** With no running sum changed by [|| 0], the daily figure is the plain
    sum. *)
Lemma dailyFigure_plain (ms : list number) :
  List.Forall keptByOrZero (runningSums zero ms) ->
  dailyFigure ms = match ms with [] => None | _ => Some (sumNumbers ms) end.
Proof.
  unfold dailyFigure, sumNumbers.
  destruct ms as [|m ms]; [reflexivity|].
  cbn [fold_left runningSums orZero]. intros H.
  inversion H as [|? ? Hm Hrest]; subst.
  by apply dailyFigure_from.
Qed.

End DailyRollup.

Section DailyRollupTheorem.

Context {runtime : Runtime}.

Import Num.

Lemma dailyEntry_In (obj : list (string * number)) (d : string) (x : number) :
  In {| date := d; pnl := x |}
     (map (fun kv => {| date := fst kv; pnl := snd kv |}) obj)
  <-> In (d, x) obj.
Proof.
  rewrite in_map_iff. split.
  - intros ([k v] & [= -> ->] & Hin). exact Hin.
  - intros Hin. by exists (d, x).
Qed.

(** X26.  When no filtered trade is dated with a name that objects
    inherit ([constructor], [toString], [__proto__] and the like), the
    daily rollup holds one figure per day that has a valued trade, the
    figure of a day being built from the MtM values of its valued trades
    in order, each added to the figure so far read through [|| 0]; that is
    their plain sum whenever no running sum is NaN or negative zero.  When
    every day is a valid date the rollup is in ascending order of time. *)
Theorem computePnL_daily (q : PnLQuery) (s : Store) :
  forallb (fun t => negb (inheritedName (trade_date t)))
    (filterForPnL q (storedTrades s)) = true ->
  exists body : PnLBody,
    computePnL q s = (Json body, s, [KvGet "trades"; KvGet "market_prices"])
    /\ List.NoDup (map date (dailyPnL body))
    /\ (forall d x,
          In {| date := d; pnl := x |} (dailyPnL body)
          <-> dailyFigure (mtmOfDay d (pnl_trades body)) = Some x)
    /\ (forall d x,
          In {| date := d; pnl := x |} (dailyPnL body) ->
          List.Forall keptByOrZero (runningSums zero (mtmOfDay d (pnl_trades body))) ->
          x = sumNumbers (mtmOfDay d (pnl_trades body)))
    /\ ((forall e, In e (dailyPnL body) ->
           exists ms, getTime (Some (date e)) = IntNum.IInt ms) ->
        StronglySorted (fun a b => dayTime a <= dayTime b) (dailyPnL body)).
Proof.
  intros _.
  set (filtered := filterForPnL q (storedTrades s)).
  set (prices := storedPrices s).
  set (final := fold_left (valueTrade prices) filtered initialState).
  set (mk := fun kv : string * number => {| date := fst kv; pnl := snd kv |}).
  pose proof (valuation_loop_trades prices filtered initialState) as Htrades.
  cbn [app initialState st_tradesPnL] in Htrades. fold final in Htrades.
  assert (Hnd : List.NoDup (map fst (st_dailyPnL final))).
  { apply valuation_loop_daily_NoDup. constructor. }
  assert (Hlook : forall d, lookupProp (st_dailyPnL final) d
                            = dailyFigure (mtmOfDay d (st_tradesPnL final))).
  { intros d. rewrite Htrades. apply (valuation_loop_daily prices filtered initialState). }
  assert (Hperm : Permutation (JsArray.sort compareDaily (map mk (entries (st_dailyPnL final))))
                    (map mk (st_dailyPnL final))).
  { rewrite <- (sort_perm compareDaily). apply Permutation_map, entries_perm. }
  assert (Hin : forall d x,
             In {| date := d; pnl := x |}
                (JsArray.sort compareDaily (map mk (entries (st_dailyPnL final))))
             <-> dailyFigure (mtmOfDay d (st_tradesPnL final)) = Some x).
  { intros d x. rewrite <- Hlook, <- (lookupProp_In _ _ _ Hnd), <- dailyEntry_In.
    split; apply Permutation_in; [exact Hperm | symmetry; exact Hperm]. }
  eexists. split; [apply computePnL_run |].
  cbn [dailyPnL pnl_trades]. fold prices filtered final mk.
  split.
  { apply (Permutation_NoDup (l := map date (map mk (st_dailyPnL final)))).
    - apply Permutation_map. symmetry. exact Hperm.
    - rewrite map_map. exact Hnd. }
  split; [exact Hin |].
  split.
  { intros d x Hx Hkept. apply Hin in Hx.
    rewrite (dailyFigure_plain _ Hkept) in Hx.
    destruct (mtmOfDay d (st_tradesPnL final)); [discriminate | congruence]. }
  intros Hvalid. apply sort_sorted.
  intros a b Ha Hb.
  apply (sort_In compareDaily) in Ha, Hb.
  destruct (Hvalid a Ha) as [ta Hta]. destruct (Hvalid b Hb) as [tb Htb].
  unfold compareDaily, dayTime. rewrite Hta, Htb. apply sortSign_sub.
Qed.

End DailyRollupTheorem.

(** The two crude trades of 15 January are valued, the purchase at 500
    and the sale at -500: one daily figure, for that day. *)
Lemma computePnL_daily_witness :
  exists body : PnLBody,
    @computePnL Engine.engine Engine.allPnL Engine.crudeStore
      = (Json body, Engine.crudeStore, [KvGet "trades"; KvGet "market_prices"])
    /\ map date (dailyPnL body) = ["2025-01-15"]
    /\ List.NoDup (map date (dailyPnL body)).
Proof.
  destruct (@computePnL_daily Engine.engine Engine.allPnL Engine.crudeStore)
    as (body & Hrun & Hdays & _); [vm_compute; reflexivity |].
  exists body. split; [exact Hrun |]. split; [| exact Hdays].
  pose proof (f_equal (fun reply => fst (fst reply)) Hrun) as Hbody.
  cbn [fst] in Hbody. vm_compute in Hbody. injection Hbody as <-.
  reflexivity.
Defined.

(** * Further properties of the server *)

Import Handlers Terms.

(** ** White space and line ends in a CSV file *)

Section TrimFacts.

Lemma append_cons (c : ascii) (s t : string) :
  String.append (String c s) t = String c (String.append s t).
Proof. reflexivity. Qed.

Lemma append_nil (t : string) : String.append EmptyString t = t.
Proof. reflexivity. Qed.

Lemma trimStart_allWhiteSpace (w : string) :
  allWhiteSpace w = true -> trimStart w = EmptyString.
Proof.
  induction w as [|c w IH]; [reflexivity|]. cbn [allWhiteSpace trimStart].
  intros H. apply andb_true_iff in H as [Hc Hw]. rewrite Hc. by apply IH.
Qed.

Lemma trimEnd_allWhiteSpace (w : string) :
  allWhiteSpace w = true -> trimEnd w = EmptyString.
Proof.
  induction w as [|c w IH]; [reflexivity|]. cbn [allWhiteSpace trimEnd].
  intros H. apply andb_true_iff in H as [Hc Hw]. by rewrite (IH Hw), Hc.
Qed.

Lemma trimStart_padded (w s : string) :
  allWhiteSpace w = true -> trimStart (String.append w s) = trimStart s.
Proof.
  induction w as [|c w IH]; [reflexivity|]. rewrite append_cons.
  cbn [allWhiteSpace trimStart]. intros H. apply andb_true_iff in H as [Hc Hw]. rewrite Hc. by apply IH.
Qed.

Lemma trimEnd_padded (s w : string) :
  allWhiteSpace w = true -> trimEnd (String.append s w) = trimEnd s.
Proof.
  intros Hw. induction s as [|c s IH]; rewrite ?append_nil, ?append_cons; cbn [trimEnd].
  - by apply trimEnd_allWhiteSpace.
  - by rewrite IH.
Qed.

Lemma trimStart_append (s w : string) :
  trimStart (String.append s w)
  = if allWhiteSpace s then trimStart w else String.append (trimStart s) w.
Proof.
  induction s as [|c s IH]; [reflexivity|]. rewrite append_cons.
  cbn [trimStart allWhiteSpace].
  destruct (isWhiteSpace c); [exact IH | reflexivity].
Qed.

Lemma trim_padded (a s b : string) :
  allWhiteSpace a = true -> allWhiteSpace b = true ->
  trim (String.append a (String.append s b)) = trim s.
Proof.
  intros Ha Hb. unfold trim. rewrite (trimStart_padded a _ Ha), trimStart_append.
  destruct (allWhiteSpace s) eqn:Hs.
  - rewrite (trimStart_allWhiteSpace b Hb), (trimStart_allWhiteSpace s Hs). reflexivity.
  - by apply trimEnd_padded.
Qed.

Lemma trim_padded_end (s w : string) :
  allWhiteSpace w = true -> trim (String.append s w) = trim s.
Proof. intros Hw. by apply (trim_padded EmptyString s w). Qed.

Lemma trimStart_fixed (s : string) : trimStart (trimStart s) = trimStart s.
Proof.
  induction s as [|c s IH]; [reflexivity|]. cbn [trimStart].
  destruct (isWhiteSpace c) eqn:Hc; [exact IH|]. cbn [trimStart]. by rewrite Hc.
Qed.

Lemma trimEnd_step (c : ascii) (s : string) :
  trimEnd (String c s)
  = match trimEnd s with
    | EmptyString => if isWhiteSpace c then EmptyString else String c EmptyString
    | t => String c t
    end.
Proof. reflexivity. Qed.

Lemma trimEnd_fixed (s : string) : trimEnd (trimEnd s) = trimEnd s.
Proof.
  induction s as [|c s IH]; [reflexivity|]. rewrite trimEnd_step.
  destruct (trimEnd s) as [|d t] eqn:E.
  - destruct (isWhiteSpace c) eqn:Hc; [reflexivity|]. cbn [trimEnd]. by rewrite Hc.
  - rewrite trimEnd_step, IH. reflexivity.
Qed.

Lemma trimStart_length (s : string) :
  (String.length (trimStart s) <= String.length s)%nat.
Proof.
  induction s as [|d s IH]; cbn [trimStart String.length]; [lia|].
  destruct (isWhiteSpace d); cbn [String.length]; lia.
Qed.

Lemma trimStart_trimEnd (s : string) :
  trimStart s = s -> trimStart (trimEnd s) = trimEnd s.
Proof.
  destruct s as [|c s]; [reflexivity|]. cbn [trimStart trimEnd].
  destruct (isWhiteSpace c) eqn:Hc.
  - intros H. exfalso. pose proof (trimStart_length s) as Hlen.
    rewrite H in Hlen. cbn [String.length] in Hlen. lia.
  - intros _. destruct (trimEnd s); cbn [trimStart]; by rewrite Hc.
Qed.

Lemma trim_fixed (s : string) : trim (trim s) = trim s.
Proof.
  unfold trim. rewrite (trimStart_trimEnd _ (trimStart_fixed s)). apply trimEnd_fixed.
Qed.

Lemma hasChar_trimStart (c : ascii) (s : string) :
  hasChar c s = false -> hasChar c (trimStart s) = false.
Proof.
  induction s as [|d s IH]; [reflexivity|]. cbn [trimStart hasChar].
  intros H. apply orb_false_iff in H as [Hd Hs].
  destruct (isWhiteSpace d); [by apply IH|]. cbn [hasChar]. by rewrite Hd, Hs.
Qed.

Lemma hasChar_trimEnd (c : ascii) (s : string) :
  hasChar c s = false -> hasChar c (trimEnd s) = false.
Proof.
  induction s as [|d s IH]; [reflexivity|]. cbn [trimEnd hasChar].
  intros H. apply orb_false_iff in H as [Hd Hs]. specialize (IH Hs).
  destruct (trimEnd s) as [|e t].
  - destruct (isWhiteSpace d); [reflexivity|]. cbn [hasChar]. by rewrite Hd.
  - cbn [hasChar] in IH |- *. by rewrite Hd, IH.
Qed.

Lemma hasChar_trim (c : ascii) (s : string) :
  hasChar c s = false -> hasChar c (trim s) = false.
Proof. intros H. by apply hasChar_trimEnd, hasChar_trimStart. Qed.

End TrimFacts.

Section SplitFacts.

Lemma split_cons (sep : ascii) (s : string) :
  exists piece rest, split sep s = piece :: rest.
Proof.
  pose proof (split_nonempty sep s) as H.
  destruct (split sep s) as [|piece rest]; [congruence | eauto].
Qed.

Lemma split_step (sep c : ascii) (s : string) :
  split sep (String c s)
  = if Ascii.eqb c sep then EmptyString :: split sep s
    else String c (hd EmptyString (split sep s)) :: tl (split sep s).
Proof.
  cbn [split]. destruct (Ascii.eqb c sep); [reflexivity|].
  destruct (split_cons sep s) as (piece & rest & ->). reflexivity.
Qed.

(** No piece holds the separator, nor a character the text does not
    hold. *)
Lemma split_pieces (sep c : ascii) (s piece : string) :
  In piece (split sep s) ->
  hasChar sep piece = false /\ (hasChar c s = false -> hasChar c piece = false).
Proof.
  revert piece. induction s as [|d s IH]; intros piece.
  - cbn [split]. intros [<- | []]. split; reflexivity.
  - rewrite split_step. destruct (split_cons sep s) as (p0 & rest & E).
    rewrite E in *. cbn [hd tl hasChar].
    destruct (Ascii.eqb d sep) eqn:Hd.
    + intros [<- | Hin]; [split; reflexivity|].
      destruct (IH piece Hin) as [H1 H2]. split; [exact H1|].
      intros H. apply orb_false_iff in H as [_ H]. by apply H2.
    + intros [<- | Hin].
      * destruct (IH p0 (or_introl eq_refl)) as [H1 H2]. cbn [hasChar].
        split; [by rewrite Hd, H1|].
        intros H. apply orb_false_iff in H as [Hdc H]. by rewrite Hdc, (H2 H).
      * destruct (IH piece (or_intror Hin)) as [H1 H2]. split; [exact H1|].
        intros H. apply orb_false_iff in H as [_ H]. by apply H2.
Qed.

(** A text without the separator is one piece. *)
Lemma split_single (sep : ascii) (s : string) :
  hasChar sep s = false -> split sep s = [s].
Proof.
  induction s as [|d s IH]; [reflexivity|]. cbn [hasChar]. intros H.
  apply orb_false_iff in H as [Hd Hs]. rewrite split_step, Hd, (IH Hs). reflexivity.
Qed.

Lemma split_length_single (sep : ascii) (s : string) :
  (length (split sep s) < 2)%nat <-> hasChar sep s = false.
Proof.
  split; [|intros H; rewrite (split_single _ _ H); simpl; lia].
  induction s as [|d s IH]; [reflexivity|]. rewrite split_step. cbn [hasChar].
  destruct (split_cons sep s) as (p0 & rest & E). rewrite E in *. cbn [hd tl].
  destruct (Ascii.eqb d sep); cbn [length orb]; [lia|].
  intros H. apply IH. cbn [length]. lia.
Qed.

(** Text without the separator, put behind, stays in the last piece. *)
Lemma split_append (sep : ascii) (s w : string) :
  hasChar sep w = false ->
  split sep (String.append s w) = appendLast (split sep s) w.
Proof.
  intros Hsep. induction s as [|d s IH].
  - rewrite append_nil. cbn [split appendLast]. by apply split_single.
  - rewrite append_cons, !split_step, IH.
    destruct (split_cons sep s) as (p & r & E). rewrite E. cbn [hd tl].
    destruct (Ascii.eqb d sep).
    + reflexivity.
    + destruct r as [|p1 r]; reflexivity.
Qed.

Lemma appendLast_trim (pieces : list string) (w : string) :
  allWhiteSpace w = true -> map trim (appendLast pieces w) = map trim pieces.
Proof.
  intros Hw. induction pieces as [|p [|p1 r] IH]; [reflexivity | |].
  - cbn [appendLast map]. by rewrite (trim_padded_end p w Hw).
  - change (appendLast (p :: p1 :: r) w) with (p :: appendLast (p1 :: r) w).
    cbn [map] in *. by rewrite IH.
Qed.

Lemma whiteSpace_no_comma (w : string) :
  allWhiteSpace w = true -> hasChar COMMA w = false.
Proof.
  induction w as [|c w IH]; [reflexivity|]. cbn [allWhiteSpace hasChar].
  intros H. apply andb_true_iff in H as [Hc Hw]. rewrite (IH Hw), orb_false_r.
  destruct c as [[] [] [] [] [] [] [] []]; vm_compute in Hc |- *; congruence.
Qed.

(** White space at the end of a line changes none of its trimmed
    values. *)
Lemma values_padded (line w : string) :
  allWhiteSpace w = true ->
  map trim (split COMMA (String.append line w)) = map trim (split COMMA line).
Proof.
  intros Hw. rewrite (split_append _ _ _ (whiteSpace_no_comma w Hw)).
  by apply appendLast_trim.
Qed.

Lemma parseLine_padded (headers : list string) (line w : string) :
  allWhiteSpace w = true ->
  parseLine headers (String.append line w) = parseLine headers line.
Proof. intros Hw. unfold parseLine. by rewrite (values_padded line w Hw). Qed.

End SplitFacts.

Section LineEnds.

Lemma toCRLF_empty (s : string) : toCRLF s = EmptyString -> s = EmptyString.
Proof.
  destruct s as [|c s]; [reflexivity|]. cbn [toCRLF].
  destruct (Ascii.eqb c LF); discriminate.
Qed.

Lemma LF_whiteSpace (c : ascii) : Ascii.eqb c LF = true -> isWhiteSpace c = true.
Proof. intros H. apply Ascii.eqb_eq in H. subst c. reflexivity. Qed.

Lemma trimStart_toCRLF (s : string) : trimStart (toCRLF s) = toCRLF (trimStart s).
Proof.
  induction s as [|c s IH]; [reflexivity|]. cbn [toCRLF trimStart].
  destruct (Ascii.eqb c LF) eqn:Hc.
  - rewrite (LF_whiteSpace c Hc). cbn [trimStart].
    replace (isWhiteSpace CR) with true by reflexivity.
    replace (isWhiteSpace LF) with true by reflexivity. exact IH.
  - cbn [trimStart]. destruct (isWhiteSpace c); [exact IH|].
    cbn [toCRLF]. by rewrite Hc.
Qed.

Lemma toCRLF_step (c : ascii) (s : string) :
  toCRLF (String c s)
  = if Ascii.eqb c LF then String CR (String LF (toCRLF s)) else String c (toCRLF s).
Proof. reflexivity. Qed.

Lemma trimEnd_toCRLF (s : string) : trimEnd (toCRLF s) = toCRLF (trimEnd s).
Proof.
  induction s as [|c s IH]; [reflexivity|].
  rewrite (toCRLF_step c s), (trimEnd_step c s).
  destruct (Ascii.eqb c LF) eqn:Hc.
  - rewrite !trimEnd_step, IH, (LF_whiteSpace c Hc).
    destruct (trimEnd s) as [|d t] eqn:E; [reflexivity|].
    rewrite (toCRLF_step c (String d t)), Hc.
    destruct (toCRLF (String d t)) as [|e u] eqn:E'; [|reflexivity].
    apply toCRLF_empty in E'. discriminate.
  - rewrite trimEnd_step, IH.
    destruct (trimEnd s) as [|d t] eqn:E.
    + cbn [toCRLF]. destruct (isWhiteSpace c); [reflexivity|].
      cbn [toCRLF]. by rewrite Hc.
    + rewrite (toCRLF_step c (String d t)), Hc.
      destruct (toCRLF (String d t)) as [|e u] eqn:E'; [|reflexivity].
      apply toCRLF_empty in E'. discriminate.
Qed.

Lemma trim_toCRLF (s : string) : trim (toCRLF s) = toCRLF (trim s).
Proof. unfold trim. by rewrite trimStart_toCRLF, trimEnd_toCRLF. Qed.

(** The lines of the text with Windows line ends are the lines of the
    text, each but the last followed by a carriage return. *)
Lemma split_toCRLF (s : string) :
  split LF (toCRLF s) = appendInner (split LF s) (String CR EmptyString).
Proof.
  induction s as [|c s IH]; [reflexivity|]. cbn [toCRLF].
  destruct (Ascii.eqb c LF) eqn:Hc.
  - rewrite (split_step LF c), Hc.
    rewrite (split_step LF CR). replace (Ascii.eqb CR LF) with false by reflexivity.
    rewrite (split_step LF LF). replace (Ascii.eqb LF LF) with true by reflexivity.
    cbn [hd tl]. rewrite IH.
    destruct (split_cons LF s) as (p & r & E). rewrite E. reflexivity.
  - rewrite !(split_step LF c), Hc, IH.
    destruct (split_cons LF s) as (p & r & E). rewrite E.
    destruct r as [|p1 r]; reflexivity.
Qed.

Lemma appendInner_values (f : string -> RawRow) (lines : list string) (w : string) :
  (forall line, f (String.append line w) = f line) ->
  map f (appendInner lines w) = map f lines.
Proof.
  intros Hf. induction lines as [|p [|p1 r] IH]; [reflexivity | reflexivity |].
  change (appendInner (p :: p1 :: r) w) with (String.append p w :: appendInner (p1 :: r) w).
  cbn [map] in *. by rewrite Hf, IH.
Qed.

End LineEnds.

Section CsvText.

(** X1.  White space and empty lines before and after the text of a file
    change nothing: the parser returns the same rows, so the two upload
    handlers answer and store the same. *)
Theorem parseCSV_ignores_surrounding_space (before csvText after : string) :
  allWhiteSpace before = true -> allWhiteSpace after = true ->
  let padded := String.append before (String.append csvText after) in
  parseCSV padded = parseCSV csvText
  /\ uploadTrades (Some padded) = uploadTrades (Some csvText)
  /\ uploadMarketPrices (Some padded) = uploadMarketPrices (Some csvText).
Proof.
  intros Hb Ha padded.
  assert (H : parseCSV padded = parseCSV csvText).
  { unfold parseCSV, padded. by rewrite (trim_padded before csvText after Hb Ha). }
  split; [exact H |]. unfold uploadTrades, uploadMarketPrices. by rewrite H.
Qed.

(** X2.  A file with Windows line ends (carriage return and line feed) is
    parsed as the same file with line feeds only: the carriage returns
    end up at the end of the last value of a line, where [trim] removes
    them. *)
Theorem parseCSV_accepts_CRLF (csvText : string) :
  parseCSV (toCRLF csvText) = parseCSV csvText
  /\ uploadTrades (Some (toCRLF csvText)) = uploadTrades (Some csvText)
  /\ uploadMarketPrices (Some (toCRLF csvText)) = uploadMarketPrices (Some csvText).
Proof.
  assert (H : parseCSV (toCRLF csvText) = parseCSV csvText).
  { rewrite !parseCSV_unfold, trim_toCRLF, split_toCRLF.
    destruct (split LF (trim csvText)) as [|l0 [|l1 rest]]; [reflexivity | reflexivity |].
    change (appendInner (l0 :: l1 :: rest) (String CR EmptyString))
      with (String.append l0 (String CR EmptyString)
            :: appendInner (l1 :: rest) (String CR EmptyString)).
    destruct (appendInner (l1 :: rest) (String CR EmptyString)) as [|m0 ms] eqn:E.
    { destruct rest; discriminate. }
    rewrite <- E, (values_padded l0 (String CR EmptyString) eq_refl).
    apply appendInner_values. intros line. by apply parseLine_padded. }
  split; [exact H |]. unfold uploadTrades, uploadMarketPrices. by rewrite H.
Qed.

Lemma assignFields_value (headers : list string) (index : nat)
    (values : list string) (r : RawRow) (k v : string) :
  assignFields headers index values r !! k = Some (Some v) ->
  In v values \/ r !! k = Some (Some v).
Proof.
  revert index r. induction headers as [|h rest IH]; intros index r; cbn [assignFields].
  - by right.
  - intros H. apply IH in H as [H | H]; [by left|].
    destruct (decide (k = h)) as [-> | Hne].
    + rewrite lookup_insert_eq in H. injection H as H. left.
      apply list_elem_of_lookup_2 in H. by apply list_elem_of_In.
    + rewrite lookup_insert_ne in H by done. by right.
Qed.

Lemma parseCSV_value (csvText : string) (r : RawRow) (k v : string) :
  In r (parseCSV csvText) -> field r k = Some v ->
  exists line piece,
    In line (split LF (trim csvText)) /\ In piece (split COMMA line) /\ v = trim piece.
Proof.
  rewrite parseCSV_unfold. intros Hr Hv.
  destruct (split LF (trim csvText)) as [|l0 [|l1 rest]] eqn:E; [destruct Hr | destruct Hr |].
  apply in_map_iff in Hr as (line & <- & Hline).
  unfold field in Hv.
  destruct (parseLine (map trim (split COMMA l0)) line !! k) as [w|] eqn:Hk; [|discriminate].
  subst w. unfold parseLine in Hk. apply assignFields_value in Hk as [Hin | Habs].
  - apply in_map_iff in Hin as (piece & <- & Hpiece).
    exists line, piece. split; [by right | by split].
  - rewrite lookup_empty in Habs. discriminate.
Qed.

(** X3.  Every value of every parsed row is trimmed and holds neither a
    comma nor a line feed: the parser knows no quoting, so a comma always
    separates two values. *)
Theorem parseCSV_values_are_clean (csvText : string) (r : RawRow) (k v : string) :
  In r (parseCSV csvText) -> field r k = Some v ->
  trim v = v /\ hasChar COMMA v = false /\ hasChar LF v = false.
Proof.
  intros Hr Hv.
  destruct (parseCSV_value csvText r k v Hr Hv) as (line & piece & Hline & Hpiece & ->).
  split; [apply trim_fixed |].
  destruct (split_pieces LF LF (trim csvText) line Hline) as [HnoLF _].
  destruct (split_pieces COMMA LF line piece Hpiece) as [HnoComma Hkeep].
  split; apply hasChar_trim; [exact HnoComma | by apply Hkeep].
Qed.

(** X4.  A request that carries no file, and a file whose trimmed text is
    a single line (an empty file, or a header line with no row under it),
    are refused with status 400 by both upload handlers, which then make
    no call to the store. *)
Theorem uploads_refuse_empty_file (csvText : string) (s : Store) :
  hasChar LF (trim csvText) = false ->
  uploadTrades None s = (Failure 400 "No file provided", s, [])
  /\ uploadMarketPrices None s = (Failure 400 "No file provided", s, [])
  /\ uploadTrades (Some csvText) s = (Failure 400 "CSV file is empty or invalid", s, [])
  /\ uploadMarketPrices (Some csvText) s
     = (Failure 400 "CSV file is empty or invalid", s, []).
Proof.
  intros H.
  assert (Hrows : parseCSV csvText = []).
  { rewrite parseCSV_unfold, (split_single LF _ H). reflexivity. }
  unfold uploadTrades, uploadMarketPrices. rewrite Hrows. by repeat split.
Qed.

End CsvText.

Lemma parseCSV_ignores_surrounding_space_witness :
  parseCSV (String.append (String LF " ")
              (String.append Engine.pricesCsv (String LF (String LF EmptyString))))
  = parseCSV Engine.pricesCsv.
Proof.
  apply (parseCSV_ignores_surrounding_space (String LF " ") Engine.pricesCsv
           (String LF (String LF EmptyString))); reflexivity.
Defined.

Lemma parseCSV_values_are_clean_witness :
  trim "76.00" = "76.00" /\ hasChar COMMA "76.00" = false /\ hasChar LF "76.00" = false.
Proof.
  apply (parseCSV_values_are_clean Engine.pricesCsv
           (hd ∅ (parseCSV Engine.pricesCsv)) "close_price" "76.00").
  - assert (H : (0 < length (parseCSV Engine.pricesCsv))%nat) by (vm_compute; lia).
    destruct (parseCSV Engine.pricesCsv); [simpl in H; lia | left; reflexivity].
  - vm_compute. reflexivity.
Defined.

Lemma uploads_refuse_empty_file_witness :
  uploadTrades (Some Engine.tradesHeader) Engine.emptyStore
  = (Failure 400 "CSV file is empty or invalid", Engine.emptyStore, []).
Proof.
  apply (uploads_refuse_empty_file Engine.tradesHeader Engine.emptyStore).
  vm_compute. reflexivity.
Defined.


(** ** Adding trades: POST /trades and the uploads *)

Section CreateTrade.

Lemma amountTruthy_text (v : option string) :
  amountTruthy (option_map AmountText v) = JsString.truthy v.
Proof. by destruct v. Qed.

Lemma parseFloatAmount_text (v : option string) :
  parseFloatAmount (option_map AmountText v) = Num.parseFloatValue v.
Proof. by destruct v. Qed.

(** On a body made of strings the validator and the normalisation are
    those of the CSV rows. *)
Lemma validateJson_jsonOfRow (r : RawRow) : validateJson (jsonOfRow r) = validateTrade r.
Proof.
  unfold validateJson, validateTrade, jsonOfRow.
  cbn [json_trade_id json_trade_date json_instrument json_side json_quantity
       json_trade_price].
  by rewrite !amountTruthy_text, !parseFloatAmount_text.
Qed.

Lemma newTradeOf_jsonOfRow (r : RawRow) : newTradeOf (jsonOfRow r) = normalizeTrade r.
Proof.
  unfold newTradeOf, normalizeTrade, jsonOfRow.
  cbn [json_trade_id json_trade_date json_instrument json_side json_quantity
       json_trade_price json_trader json_currency].
  by rewrite !parseFloatAmount_text.
Qed.

Lemma validateJson_errors_eq (b : TradeJson) :
  errors (validateJson b) = map snd (List.filter fst (jsonChecks b)).
Proof.
  unfold validateJson, jsonChecks. cbn [errors].
  generalize (negb (JsString.truthy (json_trade_id b))),
             (negb (JsString.truthy (json_trade_date b))),
             (negb (JsString.truthy (json_instrument b))),
             (negb (JsString.truthy (json_side b)) || negb (sideListed (json_side b))),
             (negb (amountTruthy (json_quantity b))
              || Num.isNaN (parseFloatAmount (json_quantity b))),
             (negb (amountTruthy (json_trade_price b))
              || Num.isNaN (parseFloatAmount (json_trade_price b))).
  intros b1 b2 b3 b4 b5 b6.
  destruct b1, b2, b3, b4, b5, b6; reflexivity.
Qed.

Lemma validateJson_valid_iff (b : TradeJson) :
  valid (validateJson b) = true <->
  JsString.truthy (json_trade_id b) = true
  /\ JsString.truthy (json_trade_date b) = true
  /\ JsString.truthy (json_instrument b) = true
  /\ sideListed (json_side b) = true
  /\ (amountTruthy (json_quantity b) = true
      /\ Num.isNaN (parseFloatAmount (json_quantity b)) = false)
  /\ (amountTruthy (json_trade_price b) = true
      /\ Num.isNaN (parseFloatAmount (json_trade_price b)) = false).
Proof.
  replace (valid (validateJson b))
    with (length (errors (validateJson b)) =? 0)%nat by reflexivity.
  rewrite Nat.eqb_eq, length_zero_iff_nil, validateJson_errors_eq, no_violation_iff.
  unfold jsonChecks. rewrite !List.Forall_cons_iff. cbn [fst].
  rewrite !orb_false_iff, !negb_false_iff.
  pose proof (sideListed_truthy (json_side b)) as Hside.
  split; intros H; decompose [and] H; repeat split; auto using List.Forall_nil.
Qed.

Lemma createTrade_run (b : TradeJson) (s : Store) :
  createTrade b s =
  if valid (validateJson b)
  then (Created (newTradeOf b),
        {| kv_trades := Some (storedTrades s ++ [newTradeOf b]);
           kv_market_prices := kv_market_prices s |},
        [KvGet "trades"; KvSet "trades"])
  else (Rejected 400 "Invalid trade data" (errors (validateJson b)), s, []).
Proof. unfold createTrade. by destruct (valid (validateJson b)). Qed.

Lemma uploadTrades_stored (file : option string) (s : Store) :
  storedTrades (storeAfter (uploadTrades file) s) = storedTrades s ++ uploadedTrades file
  /\ kv_market_prices (storeAfter (uploadTrades file) s) = kv_market_prices s.
Proof.
  unfold storeAfter. destruct file as [csvText|]; cbn [uploadedTrades].
  - destruct (Nat.eq_dec (length (parseCSV csvText)) 0%nat) as [Hz | Hnz].
    + apply length_zero_iff_nil in Hz. unfold uploadTrades. rewrite Hz.
      cbn [length Nat.eqb ret fst snd List.filter map]. by rewrite app_nil_r.
    + rewrite uploadTrades_run by lia. cbn [fst snd].
      destruct (map normalizeTrade (List.filter isValidRow (parseCSV csvText)));
        [by rewrite app_nil_r | by split].
  - cbn [uploadTrades ret fst snd]. by rewrite app_nil_r.
Qed.

(** X5.  Adding a trade with POST /trades, the body holding the fields of
    a CSV row as strings, leaves the same store as uploading a file whose
    only row it is: a valid row is normalised in the same way and put
    behind the stored trades.  The answers differ for an invalid row:
    POST /trades refuses it with status 400 and the error list, while the
    upload answers success with no valid and one invalid trade. *)
Theorem createTrade_stores_as_upload (csvText : string) (r : RawRow) (s : Store) :
  parseCSV csvText = [r] ->
  storeAfter (createTrade (jsonOfRow r)) s = storeAfter (uploadTrades (Some csvText)) s
  /\ (isValidRow r = true ->
      createTrade (jsonOfRow r) s
      = (Created (normalizeTrade r),
         {| kv_trades := Some (storedTrades s ++ [normalizeTrade r]);
            kv_market_prices := kv_market_prices s |},
         [KvGet "trades"; KvSet "trades"]))
  /\ (isValidRow r = false ->
      createTrade (jsonOfRow r) s
      = (Rejected 400 "Invalid trade data" (errors (validateTrade r)), s, [])
      /\ exists body : UploadTradesBody,
           uploadTrades (Some csvText) s = (Json body, s, [])
           /\ success body = true /\ validCount body = 0%nat
           /\ invalidCount body = 1%nat).
Proof.
  intros Hrows.
  pose proof (createTrade_run (jsonOfRow r) s) as Hc.
  rewrite validateJson_jsonOfRow, newTradeOf_jsonOfRow in Hc.
  pose proof (uploadTrades_run csvText s) as Hu. rewrite Hrows in Hu.
  specialize (Hu ltac:(simpl; lia)). cbv zeta in Hu. cbn [List.filter] in Hu.
  unfold isValidRow in *.
  destruct (valid (validateTrade r)) eqn:Hv; cbn [negb map length firstn] in Hu.
  - split; [unfold storeAfter; by rewrite Hc, Hu |].
    split; [intros _; exact Hc | discriminate].
  - split; [unfold storeAfter; by rewrite Hc, Hu |].
    split; [discriminate | intros _]. split; [exact Hc |].
    eexists. split; [exact Hu |]. by repeat split.
Qed.

(** X6.  A quantity of zero is refused when the body gives it as a
    Number, and accepted when it gives it as the text [0], as a CSV row
    always does: the validator tests the value itself before it parses
    it, and the Number zero is falsy where the string is not. *)
Theorem createTrade_zero_quantity (b : TradeJson) (s : Store) (negative : bool) :
  valid (validateJson b) = true ->
  createTrade (withQuantity b (AmountNumber (S754_zero negative))) s
  = (Rejected 400 "Invalid trade data" ["quantity must be a valid number"], s, [])
  /\ exists t : Trade,
       createTrade (withQuantity b (AmountText "0")) s
       = (Created t,
          {| kv_trades := Some (storedTrades s ++ [t]);
             kv_market_prices := kv_market_prices s |},
          [KvGet "trades"; KvSet "trades"])
       /\ quantity t = Num.zero.
Proof.
  intros Hv. apply validateJson_valid_iff in Hv.
  destruct Hv as (H1 & H2 & H3 & H4 & _ & H6 & H7).
  pose proof (sideListed_truthy _ H4) as H4'.
  split.
  - rewrite createTrade_run.
    assert (He : errors (validateJson (withQuantity b (AmountNumber (S754_zero negative))))
                 = ["quantity must be a valid number"]).
    { rewrite validateJson_errors_eq. unfold jsonChecks, withQuantity.
      cbn [json_trade_id json_trade_date json_instrument json_side json_quantity
           json_trade_price].
      rewrite H1, H2, H3, H4, H4', H6, H7. reflexivity. }
    replace (valid (validateJson (withQuantity b (AmountNumber (S754_zero negative)))))
      with (length (errors (validateJson
                              (withQuantity b (AmountNumber (S754_zero negative))))) =? 0)%nat
      by reflexivity.
    rewrite He. reflexivity.
  - eexists. rewrite createTrade_run.
    assert (Hv : valid (validateJson (withQuantity b (AmountText "0"))) = true).
    { apply validateJson_valid_iff. unfold withQuantity.
      cbn [json_trade_id json_trade_date json_instrument json_side json_quantity
           json_trade_price].
      repeat split; try assumption; reflexivity. }
    rewrite Hv. split; [reflexivity |]. vm_compute. reflexivity.
Qed.

Lemma present_nonempty (v : option string) :
  JsString.truthy v = true -> negb (String.eqb (present v) "") = true.
Proof. destruct v as [x|]; [intros H; exact H | discriminate]. Qed.

Lemma orDefault_nonempty (v : option string) (dflt : string) :
  negb (String.eqb dflt "") = true -> negb (String.eqb (orDefault v dflt) "") = true.
Proof.
  intros Hd. destruct v as [x|]; cbn [orDefault]; [|exact Hd].
  destruct (String.eqb x "") eqn:E; [exact Hd | by rewrite E].
Qed.

Lemma sideListed_side (v : option string) :
  sideListed v = true ->
  String.eqb (toUpperCase (present v)) "BUY"
  || String.eqb (toUpperCase (present v)) "SELL" = true.
Proof.
  destruct v as [x|]; [|discriminate]. cbn [sideListed existsb present].
  by rewrite orb_false_r.
Qed.

(** What [createTrade] stores passes [wellFormed]. *)
Lemma newTradeOf_wellFormed (b : TradeJson) :
  valid (validateJson b) = true -> wellFormed (newTradeOf b) = true.
Proof.
  intros Hv. apply validateJson_valid_iff in Hv.
  destruct Hv as (H1 & H2 & H3 & H4 & [_ H5] & [_ H6]).
  unfold wellFormed, newTradeOf.
  cbn [trade_id trade_date instrument side quantity trade_price trader currency].
  rewrite (present_nonempty _ H1), (present_nonempty _ H2), (present_nonempty _ H3).
  rewrite (sideListed_side _ H4), H5, H6.
  by rewrite !orDefault_nonempty.
Qed.

Lemma normalizeTrade_wellFormed (r : RawRow) :
  isValidRow r = true -> wellFormed (normalizeTrade r) = true.
Proof.
  unfold isValidRow. rewrite <- validateJson_jsonOfRow, <- newTradeOf_jsonOfRow.
  apply newTradeOf_wellFormed.
Qed.

Lemma uploadedTrades_wellFormed (file : option string) :
  forallb wellFormed (uploadedTrades file) = true.
Proof.
  apply forallb_forall. intros t Ht. destruct file as [csvText|]; [|destruct Ht].
  cbn [uploadedTrades] in Ht. apply in_map_iff in Ht as (r & <- & Hr).
  apply filter_In in Hr as [_ Hr]. by apply normalizeTrade_wellFormed.
Qed.

Lemma forallb_app_true {A : Type} (f : A -> bool) (l1 l2 : list A) :
  forallb f l1 = true -> forallb f l2 = true -> forallb f (l1 ++ l2) = true.
Proof. intros H1 H2. rewrite forallb_app, H1, H2. reflexivity. Qed.

(** X7.  Whatever is sent to the handlers that write, every stored trade
    keeps the shape validation and normalisation give it: a non-empty
    identifier, date and instrument, the side BUY or SELL in capitals,
    a quantity and a price that are not NaN, and a non-empty trader and
    currency. *)
Theorem stored_trades_stay_well_formed (s : Store) (file : option string) (b : TradeJson) :
  forallb wellFormed (storedTrades s) = true ->
  forallb wellFormed (storedTrades (storeAfter (uploadTrades file) s)) = true
  /\ forallb wellFormed (storedTrades (storeAfter (createTrade b) s)) = true
  /\ forallb wellFormed (storedTrades (storeAfter (uploadMarketPrices file) s)) = true
  /\ forallb wellFormed (storedTrades (storeAfter clearTrades s)) = true
  /\ forallb wellFormed (storedTrades (storeAfter clearMarketPrices s)) = true
  /\ forallb wellFormed (storedTrades (storeAfter clearAllData s)) = true.
Proof.
  intros Hs. split; [| split; [| split]].
  - rewrite (proj1 (uploadTrades_stored file s)).
    apply forallb_app_true; [exact Hs | apply uploadedTrades_wellFormed].
  - unfold storeAfter. rewrite createTrade_run.
    destruct (valid (validateJson b)) eqn:Hv; cbn [fst snd]; [|exact Hs].
    unfold storedTrades at 1. cbn [kv_trades].
    apply forallb_app_true; [exact Hs |].
    cbn [forallb]. by rewrite (newTradeOf_wellFormed b Hv).
  - unfold storeAfter. destruct file as [csvText|]; [|exact Hs].
    unfold uploadMarketPrices.
    destruct (length (parseCSV csvText) =? 0)%nat; exact Hs.
  - repeat split; try reflexivity. exact Hs.
Qed.

(** X8.  Uploads of trades add up: after two uploads the collection holds
    the trades stored before, then the valid trades of the first file,
    then those of the second, each in file order; the prices are left as
    they were.  Nothing compares a new trade with a stored one, so a file
    uploaded twice is stored twice. *)
Theorem uploadTrades_accumulates (first second : option string) (s : Store) :
  let s1 := storeAfter (uploadTrades first) s in
  let s2 := storeAfter (uploadTrades second) s1 in
  let twice := storeAfter (uploadTrades first) s1 in
  storedTrades s2 = storedTrades s ++ uploadedTrades first ++ uploadedTrades second
  /\ storedTrades twice = storedTrades s ++ uploadedTrades first ++ uploadedTrades first
  /\ kv_market_prices s2 = kv_market_prices s.
Proof.
  intros s1 s2 twice. subst s1 s2 twice.
  destruct (uploadTrades_stored first s) as [H1 P1].
  destruct (uploadTrades_stored second (storeAfter (uploadTrades first) s)) as [H2 P2].
  destruct (uploadTrades_stored first (storeAfter (uploadTrades first) s)) as [H3 _].
  rewrite H2, H3, H1, P2, P1, <- !app_assoc. by repeat split.
Qed.

Lemma uploadMarketPrices_trades (file : option string) (s : Store) :
  kv_trades (storeAfter (uploadMarketPrices file) s) = kv_trades s.
Proof.
  unfold storeAfter. destruct file as [csvText|]; [|reflexivity].
  unfold uploadMarketPrices. by destruct (length (parseCSV csvText) =? 0)%nat.
Qed.

(** X9.  An upload of market prices that parses at least one row discards
    whatever prices were stored, those of an earlier upload included, and
    GET /market-prices then answers the rows of the file in file order,
    one price a row and none of them checked; the trades are left as
    they were. *)
Theorem uploadMarketPrices_last_upload_wins
    (earlier : option string) (csvText : string) (s : Store) :
  (0 < length (parseCSV csvText))%nat ->
  let s1 := storeAfter (uploadMarketPrices earlier) s in
  let s2 := storeAfter (uploadMarketPrices (Some csvText)) s1 in
  s2 = storeAfter (uploadMarketPrices (Some csvText)) s
  /\ listMarketPrices s2
     = (Json (map priceOfRow (parseCSV csvText)), s2, [KvGet "market_prices"])
  /\ kv_trades s2 = kv_trades s.
Proof.
  intros Hrows s1 s2. subst s1 s2.
  pose proof (uploadMarketPrices_trades earlier s) as Ht.
  unfold storeAfter in *. rewrite !uploadMarketPrices_run by exact Hrows.
  cbn [fst snd kv_trades]. rewrite Ht. by repeat split.
Qed.

End CreateTrade.

Lemma createTrade_stores_as_upload_witness :
  storeAfter (createTrade (jsonOfRow infinityRow)) Engine.emptyStore
  = storeAfter
      (uploadTrades
         (Some (Engine.joinLines
                  [ "trade_id,trade_date,instrument,side,quantity,trade_price";
                    "T001,2025-01-15,WTI-CRUDE,buy,Infinity,75.50" ])))
      Engine.emptyStore.
Proof.
  apply (createTrade_stores_as_upload
           (Engine.joinLines
              [ "trade_id,trade_date,instrument,side,quantity,trade_price";
                "T001,2025-01-15,WTI-CRUDE,buy,Infinity,75.50" ])
           infinityRow Engine.emptyStore).
  vm_compute. reflexivity.
Defined.

Lemma createTrade_zero_quantity_witness :
  createTrade (withQuantity (jsonOfRow infinityRow) (AmountNumber Num.zero))
    Engine.emptyStore
  = (Rejected 400 "Invalid trade data" ["quantity must be a valid number"],
     Engine.emptyStore, []).
Proof.
  apply (createTrade_zero_quantity (jsonOfRow infinityRow) Engine.emptyStore false).
  vm_compute. reflexivity.
Defined.

Lemma stored_trades_stay_well_formed_witness :
  forallb wellFormed
    (storedTrades (storeAfter (uploadTrades (Some Engine.mixedTradesCsv)) Engine.crudeStore))
  = true.
Proof.
  apply (stored_trades_stay_well_formed Engine.crudeStore (Some Engine.mixedTradesCsv)
           (jsonOfRow infinityRow)).
  vm_compute. reflexivity.
Defined.

Lemma uploadMarketPrices_last_upload_wins_witness :
  storeAfter (uploadMarketPrices (Some Engine.pricesCsv))
    (storeAfter (uploadMarketPrices (Some Engine.undatedPriceCsv)) Engine.sameDayTrades)
  = storeAfter (uploadMarketPrices (Some Engine.pricesCsv)) Engine.sameDayTrades.
Proof.
  apply (uploadMarketPrices_last_upload_wins (Some Engine.undatedPriceCsv)
           Engine.pricesCsv Engine.sameDayTrades).
  vm_compute. lia.
Defined.


(** ** Reading the collections: instruments, traders and statistics *)

Section SetFacts.

Lemma setAdd_In (elements : list string) (x y : string) :
  In y (setAdd elements x) <-> In y elements \/ y = x.
Proof.
  unfold setAdd. destruct (existsb (String.eqb x) elements) eqn:E.
  - split; [by left | intros [H | ->]; [exact H |]].
    apply existsb_exists in E as (z & Hz & Hxz). apply String.eqb_eq in Hxz. by subst z.
  - rewrite in_app_iff. cbn [In]. intuition.
Qed.

Lemma setAdd_NoDup (elements : list string) (x : string) :
  List.NoDup elements -> List.NoDup (setAdd elements x).
Proof.
  intros Hnd. unfold setAdd. destruct (existsb (String.eqb x) elements) eqn:E; [exact Hnd|].
  apply List.NoDup_app; [exact Hnd | repeat constructor; by intros [] |].
  intros y Hy [<- | []].
  assert (existsb (String.eqb x) elements = true); [|congruence].
  apply existsb_exists. exists x. split; [exact Hy | apply String.eqb_refl].
Qed.

Lemma setAdd_length (elements : list string) (x : string) :
  (length elements <= length (setAdd elements x) <= S (length elements))%nat.
Proof.
  unfold setAdd. destruct (existsb (String.eqb x) elements); [lia|].
  rewrite length_app. cbn [length]. lia.
Qed.

Lemma newSet_from (values elements : list string) :
  let set := fold_left setAdd values elements in
  (List.NoDup elements -> List.NoDup set)
  /\ (forall y, In y set <-> In y elements \/ In y values)
  /\ (length elements <= length set <= length elements + length values)%nat.
Proof.
  revert elements. induction values as [|x values IH]; intros elements; cbn [fold_left].
  - cbn zeta. split; [auto|]. split; [intros y; cbn [In]; tauto | cbn [length]; lia].
  - destruct (IH (setAdd elements x)) as (Hnd & Hin & Hlen). cbn zeta in *.
    pose proof (setAdd_length elements x) as Hl.
    split; [intros H; by apply Hnd, setAdd_NoDup |].
    split; [|cbn [length]; lia].
    intros y. rewrite Hin, setAdd_In. cbn [In]. intuition.
Qed.

(** The elements of the Set: each value once. *)
Lemma newSet_spec (values : list string) :
  List.NoDup (newSet values)
  /\ (forall y, In y (newSet values) <-> In y values)
  /\ (length (newSet values) <= length values)%nat
  /\ (values <> [] -> (0 < length (newSet values))%nat).
Proof.
  destruct (newSet_from values []) as (Hnd & Hin & Hlen). cbn zeta in *.
  fold (newSet values) in *. cbn [length] in Hlen.
  split; [apply Hnd; constructor |].
  split; [intros y; rewrite Hin; cbn [In]; tauto |].
  split; [lia |].
  intros Hne. destruct values as [|x values]; [congruence|].
  assert (Hx : In x (newSet (x :: values))) by (apply Hin; right; by left).
  destruct (newSet (x :: values)); [destruct Hx | cbn [length]; lia].
Qed.

End SetFacts.

Section Listings.

Context {runtime : Runtime}.

(** X10.  GET /instruments answers every instrument of the stored trades
    exactly once, and GET /traders every trader exactly once; neither
    writes to the store.  Names are compared as they are stored, so two
    spellings that differ in letter case are two instruments. *)
Theorem listInstruments_lists_each_once (s : Store) :
  exists instruments traders : list string,
    listInstruments s = (Json instruments, s, [KvGet "trades"])
    /\ listTraders s = (Json traders, s, [KvGet "trades"])
    /\ List.NoDup instruments
    /\ (forall x, In x instruments <-> exists t, In t (storedTrades s) /\ instrument t = x)
    /\ List.NoDup traders
    /\ (forall x, In x traders <-> exists t, In t (storedTrades s) /\ trader t = x).
Proof.
  exists (newSet (map instrument (storedTrades s))), (newSet (map trader (storedTrades s))).
  destruct (newSet_spec (map instrument (storedTrades s))) as (Hnd1 & Hin1 & _).
  destruct (newSet_spec (map trader (storedTrades s))) as (Hnd2 & Hin2 & _).
  split; [reflexivity |]. split; [reflexivity |].
  split; [exact Hnd1 |].
  split; [intros x; rewrite Hin1, in_map_iff; split; intros (t & H1 & H2); eauto |].
  split; [exact Hnd2 |].
  intros x; rewrite Hin2, in_map_iff; split; intros (t & H1 & H2); eauto.
Qed.

Lemma getStats_run (s : Store) :
  getStats s =
  (Json {| totalTrades := length (storedTrades s);
           uniqueInstruments := length (newSet (map instrument (storedTrades s)));
           uniqueTraders := length (newSet (map trader (storedTrades s)));
           totalVolume :=
             fold_left Num.add (map volumeOf (storedTrades s)) Num.zero;
           totalNotional :=
             fold_left Num.add (map notionalOf (storedTrades s)) Num.zero;
           marketPricesCount := length (storedPrices s) |},
   s, [KvGet "trades"; KvGet "market_prices"]).
Proof.
  unfold getStats, getTrades, getMarketPrices, bind, ret. cbn [app].
  fold (storedTrades s). fold (storedPrices s).
  do 3 f_equal. f_equal.
  - generalize Num.zero. induction (storedTrades s) as [|t ts IH]; intros z; [reflexivity|].
    cbn [fold_left map]. apply IH.
  - generalize Num.zero. induction (storedTrades s) as [|t ts IH]; intros z; [reflexivity|].
    cbn [fold_left map]. apply IH.
Qed.

Lemma filterIf_absent {A : Type} (keep : string -> A -> bool) (l : list A) :
  filterIf None keep l = l.
Proof. reflexivity. Qed.

(** X11.  The statistics agree with what the other read handlers answer
    for the same store: the number of trades is the total of an
    unfiltered listing, the numbers of instruments and of traders are
    the lengths of the lists of GET /instruments and GET /traders, and the
    number of prices is the length of the list of GET /market-prices.
    There are no more instruments or traders than trades, and at least
    one of each once there is a trade. *)
Theorem getStats_agrees_with_listings (page limit : option string) (s : Store) :
  exists (stats : Stats) (body : TradesBody) (instruments traders : list string)
         (prices : list MarketPrice.t),
    getStats s = (Json stats, s, [KvGet "trades"; KvGet "market_prices"])
    /\ listTrades (Engine.pageQuery page limit) s = (Json body, s, [KvGet "trades"])
    /\ listInstruments s = (Json instruments, s, [KvGet "trades"])
    /\ listTraders s = (Json traders, s, [KvGet "trades"])
    /\ listMarketPrices s = (Json prices, s, [KvGet "market_prices"])
    /\ totalTrades stats = total (pagination body)
    /\ uniqueInstruments stats = length instruments
    /\ uniqueTraders stats = length traders
    /\ marketPricesCount stats = length prices
    /\ (uniqueInstruments stats <= totalTrades stats)%nat
    /\ (uniqueTraders stats <= totalTrades stats)%nat
    /\ ((0 < totalTrades stats)%nat ->
        (0 < uniqueInstruments stats)%nat /\ (0 < uniqueTraders stats)%nat).
Proof.
  destruct (newSet_spec (map instrument (storedTrades s))) as (_ & _ & Hle1 & Hpos1).
  destruct (newSet_spec (map trader (storedTrades s))) as (_ & _ & Hle2 & Hpos2).
  rewrite length_map in Hle1, Hle2.
  eexists _, _, _, _, _.
  split; [apply getStats_run |]. split; [apply listTrades_run |].
  split; [reflexivity |]. split; [reflexivity |]. split; [reflexivity |].
  cbn [totalTrades uniqueInstruments uniqueTraders marketPricesCount pagination total].
  rewrite sort_length.
  replace (filterTrades (Engine.pageQuery page limit) (storedTrades s))
    with (storedTrades s) by reflexivity.
  split; [reflexivity |]. split; [reflexivity |]. split; [reflexivity |].
  split; [reflexivity |]. split; [exact Hle1 |]. split; [exact Hle2 |].
  intros Hpos.
  split; [apply Hpos1 | apply Hpos2]; destruct (storedTrades s);
    try discriminate; simpl in Hpos; lia.
Qed.

(** X12.  An upload of trades moves the statistics by what it stored: the
    number of trades grows by the number of valid rows, and the total
    volume and the total notional are the former totals with the
    quantities, and the products of quantity and price, of the new trades
    added one after the other in file order; the number of prices stays
    as it was. *)
Theorem getStats_after_upload (file : option string) (s : Store) :
  let s' := storeAfter (uploadTrades file) s in
  exists before after : Stats,
    getStats s = (Json before, s, [KvGet "trades"; KvGet "market_prices"])
    /\ getStats s' = (Json after, s', [KvGet "trades"; KvGet "market_prices"])
    /\ totalTrades after = (totalTrades before + length (uploadedTrades file))%nat
    /\ totalVolume after
       = fold_left Num.add (map volumeOf (uploadedTrades file)) (totalVolume before)
    /\ totalNotional after
       = fold_left Num.add (map notionalOf (uploadedTrades file)) (totalNotional before)
    /\ marketPricesCount after = marketPricesCount before.
Proof.
  intros s'. destruct (uploadTrades_stored file s) as [Htr Hpr]. fold s' in Htr, Hpr.
  eexists _, _. split; [apply getStats_run |]. split; [apply getStats_run |].
  cbn [totalTrades totalVolume totalNotional marketPricesCount].
  unfold storedPrices. rewrite Htr, Hpr, !map_app, !fold_left_app, length_app.
  by repeat split.
Qed.

Lemma filterIf_nil {A : Type} (param : option string) (keep : string -> A -> bool) :
  filterIf param keep [] = [].
Proof. unfold filterIf. by destruct (JsString.truthy param). Qed.

Lemma slice_nil {A : Type} (a b : IntNum.intnum) : JsArray.slice (@nil A) a b = [].
Proof. unfold JsArray.slice. rewrite skipn_nil. apply firstn_nil. Qed.

(** X13.  DELETE /all-data leaves two empty collections, as DELETE /trades
    followed by DELETE /market-prices does (each of these two leaves the
    other collection alone).  From then on the statistics are all zero, a
    listing holds no trade and counts none whatever its filters and its
    page, the P&L is zero with no daily figure, and there is no
    instrument, trader or price to list. *)
Theorem clearAllData_resets (q : TradesQuery) (pq : PnLQuery) (s : Store) :
  let s0 := storeAfter clearAllData s in
  s0 = {| kv_trades := Some []; kv_market_prices := Some [] |}
  /\ s0 = storeAfter clearMarketPrices (storeAfter clearTrades s)
  /\ storeAfter clearTrades s
     = {| kv_trades := Some []; kv_market_prices := kv_market_prices s |}
  /\ storeAfter clearMarketPrices s
     = {| kv_trades := kv_trades s; kv_market_prices := Some [] |}
  /\ getStats s0
     = (Json {| totalTrades := 0; uniqueInstruments := 0; uniqueTraders := 0;
                totalVolume := Num.zero; totalNotional := Num.zero;
                marketPricesCount := 0 |},
        s0, [KvGet "trades"; KvGet "market_prices"])
  /\ (exists body : TradesBody,
        listTrades q s0 = (Json body, s0, [KvGet "trades"])
        /\ trades body = [] /\ total (pagination body) = 0%nat)
  /\ computePnL pq s0
     = (Json {| totalPnL := Num.zero; dailyPnL := []; tradeCount := 0;
                valuedTradeCount := 0; pnl_trades := [] |},
        s0, [KvGet "trades"; KvGet "market_prices"])
  /\ listInstruments s0 = (Json [], s0, [KvGet "trades"])
  /\ listTraders s0 = (Json [], s0, [KvGet "trades"])
  /\ listMarketPrices s0 = (Json [], s0, [KvGet "market_prices"]).
Proof.
  intros s0. subst s0. unfold storeAfter.
  cbn [clearAllData clearTrades clearMarketPrices bind ret setTrades setMarketPrices
       fst snd kv_trades kv_market_prices].
  split; [reflexivity |]. split; [reflexivity |]. split; [reflexivity |].
  split; [reflexivity |]. split; [reflexivity |].
  split.
  { eexists. split; [apply listTrades_run |]. cbn [trades pagination total].
    unfold storedTrades. cbn [kv_trades].
    assert (Hnil : filterTrades q [] = []) by (unfold filterTrades; by rewrite !filterIf_nil).
    rewrite Hnil. split; [apply slice_nil | reflexivity]. }
  split.
  { rewrite computePnL_run. cbv zeta. unfold storedTrades, storedPrices.
    cbn [kv_trades kv_market_prices].
    assert (Hnil : filterForPnL pq [] = []) by (unfold filterForPnL; by rewrite !filterIf_nil).
    rewrite Hnil. reflexivity. }
  by repeat split.
Qed.

End Listings.

(** ** Pages of the listing *)

Section PageNumbers.

Import IntNum.

Lemma digitsOnly_string_of_uint (d : Decimal.uint) :
  digitsOnly (NilEmpty.string_of_uint d) = true.
Proof. induction d; cbn [NilEmpty.string_of_uint digitsOnly]; [reflexivity | exact IHd ..]. Qed.

Lemma digitsValueFrom_string_of_uint (d : Decimal.uint) (acc : nat) :
  Num.digitsValueFrom (Z.of_nat acc) (NilEmpty.string_of_uint d)
  = Z.of_nat (Nat.of_uint_acc d acc).
Proof.
  revert acc.
  induction d as [|d IH|d IH|d IH|d IH|d IH|d IH|d IH|d IH|d IH|d IH]; intros acc;
    cbn [NilEmpty.string_of_uint Num.digitsValueFrom Nat.of_uint_acc];
    [reflexivity | rewrite <- IH; f_equal; rewrite ?Nat2Z.inj_succ, Nat.tail_mul_spec;
                   cbn [nat_of_ascii]; vm_compute (Z.of_nat (nat_of_ascii _)); lia ..].
Qed.

Lemma showCount_digits (n : nat) :
  digitsOnly (showCount n) = true
  /\ showCount n <> EmptyString
  /\ Num.digitsValue (showCount n) = Z.of_nat n.
Proof.
  unfold showCount. split; [apply digitsOnly_string_of_uint |]. split.
  - intros H.
    assert (Hnil : Nat.to_uint n = Decimal.Nil)
      by (destruct (Nat.to_uint n); [reflexivity | discriminate ..]).
    pose proof (DecimalNat.Unsigned.of_to n) as Hn. rewrite Hnil in Hn.
    cbn in Hn. subst n. discriminate.
  - unfold Num.digitsValue.
    change 0 with (Z.of_nat 0). rewrite digitsValueFrom_string_of_uint.
    f_equal. apply DecimalNat.Unsigned.of_to.
Qed.

(** The decimal text of a count reads back as the count. *)
Lemma parseInt_showCount (n : nat) :
  Z.of_nat n < 2 ^ 53 -> parseInt (showCount n) = IInt (Z.of_nat n).
Proof.
  intros Hn. destruct (showCount_digits n) as (Hd & Hne & Hv).
  rewrite (parseInt_digits _ Hd), Hv.
  destruct (String.eqb_spec (showCount n) ""); [congruence|].
  apply round53_small. lia.
Qed.

Lemma orDefault_showCount (n : nat) (dflt : string) :
  orDefault (Some (showCount n)) dflt = showCount n.
Proof.
  destruct (showCount_digits n) as (_ & Hne & _). cbn [orDefault].
  destruct (String.eqb_spec (showCount n) ""); [congruence | reflexivity].
Qed.

End PageNumbers.

Section Pages.

Context {runtime : Runtime}.

Import IntNum.

Lemma firstn_plus {A : Type} (a b : nat) (l : list A) :
  firstn (a + b) l = firstn a l ++ firstn b (skipn a l).
Proof.
  revert l. induction a as [|a IH]; intros l; [reflexivity|].
  destruct l as [|x l]; cbn [Nat.add firstn skipn app]; [by rewrite firstn_nil | by rewrite IH].
Qed.

(** Consecutive windows of the same width, put end to end. *)
Lemma windows_concat {A : Type} (width pages : nat) (l : list A) :
  concat (map (fun k => firstn width (skipn ((k - 1) * width) l)) (seq 1 pages))
  = firstn (pages * width) l.
Proof.
  induction pages as [|n IH]; [reflexivity|].
  rewrite seq_S, map_app, concat_app, IH. cbn [map concat].
  rewrite app_nil_r. replace (1 + n - 1)%nat with n by lia.
  replace (S n * width)%nat with (n * width + width)%nat by lia.
  by rewrite firstn_plus.
Qed.

(** The page a request returns, for a page and a limit that are positive
    integers in the exact range. *)
Lemma pageOf_window (q : TradesQuery) (s : Store) (p l : Z) :
  parseInt (orDefault (q_page q) "1") = IInt p ->
  parseInt (orDefault (q_limit q) "50") = IInt l ->
  1 <= p -> 1 <= l -> l < 2 ^ 53 -> p * l < 2 ^ 53 ->
  pageOf q s
  = firstn (Z.to_nat l)
      (skipn (Z.to_nat ((p - 1) * l))
         (JsArray.sort compareTrades (filterTrades q (storedTrades s)))).
Proof.
  intros Hpage Hlimit Hp Hl Hl53 Hpl.
  unfold pageOf, replyOf. rewrite listTrades_run. cbv zeta. cbn [fst trades].
  rewrite Hpage, Hlimit.
  destruct (page_offsets p l ltac:(lia) Hl Hl53 Hpl) as [-> ->].
  replace (p * l) with ((p - 1) * l + l) by lia.
  apply slice_window; nia.
Qed.

(** The pages up to the last, put end to end, and the page of each
    number. *)
Lemma pages_concat (q : TradesQuery) (s : Store) (l : Z) :
  let sorted := JsArray.sort compareTrades (filterTrades q (storedTrades s)) in
  let n := Z.of_nat (length sorted) in
  let pages := Z.to_nat ((n + l - 1) / l) in
  let request (k : nat) := withPage q (Some (showCount k)) in
  parseInt (orDefault (q_limit q) "50") = IInt l ->
  1 <= l -> n + l < 2 ^ 53 ->
  concat (map (fun k => pageOf (request k) s) (seq 1 pages)) = sorted
  /\ Z.of_nat pages = (n + l - 1) / l
  /\ (forall k, (1 <= k <= pages)%nat ->
        pageOf (request k) s
        = firstn (Z.to_nat l) (skipn ((k - 1) * Z.to_nat l) sorted)).
Proof.
  intros sorted n pages request Hlimit Hl Hbound.
  assert (Hn : 0 <= n) by (subst n; lia).
  pose proof (ceil_bounds n l Hn Hl) as Hceil.
  assert (Hpages : Z.of_nat pages = (n + l - 1) / l).
  { subst pages. apply Z2Nat.id. apply Z.div_pos; lia. }
  rewrite <- Hpages in Hceil.
  assert (Hwin : forall k, (1 <= k <= pages)%nat ->
                   pageOf (request k) s
                   = firstn (Z.to_nat l) (skipn ((k - 1) * Z.to_nat l) sorted)).
  { intros k Hk.
    rewrite (pageOf_window (request k) s (Z.of_nat k) l).
    - replace (Z.to_nat ((Z.of_nat k - 1) * l)) with ((k - 1) * Z.to_nat l)%nat by nia.
      reflexivity.
    - cbn [request withPage q_page]. rewrite orDefault_showCount.
      apply parseInt_showCount. nia.
    - exact Hlimit.
    - lia.
    - exact Hl.
    - lia.
    - nia. }
  split; [| split; [exact Hpages | exact Hwin]].
  rewrite (map_ext_in _ (fun k => firstn (Z.to_nat l)
                                    (skipn ((k - 1) * Z.to_nat l) sorted))).
  - rewrite windows_concat. apply firstn_all2. subst n. nia.
  - intros k Hk. apply in_seq in Hk. apply Hwin. lia.
Qed.

(** X14.  The pages partition the listing.  For a limit [l >= 1], the
    requests for the pages 1, 2, ... up to the number of pages the
    handler reports, with the same filters and limit, return pieces that
    put end to end are the whole sorted listing, each trade on one page;
    every page before the last holds [l] trades and no page holds
    more.  Each of these requests reports that number of pages. *)
Theorem listTrades_pages_cover (q : TradesQuery) (s : Store) (l : Z) :
  let sorted := JsArray.sort compareTrades (filterTrades q (storedTrades s)) in
  let n := Z.of_nat (length sorted) in
  let pages := Z.to_nat ((n + l - 1) / l) in
  let request (k : nat) := withPage q (Some (showCount k)) in
  parseInt (orDefault (q_limit q) "50") = IInt l ->
  1 <= l -> n + l < 2 ^ 53 ->
  concat (map (fun k => pageOf (request k) s) (seq 1 pages)) = sorted
  /\ (forall k, (1 <= k < pages)%nat -> Z.of_nat (length (pageOf (request k) s)) = l)
  /\ (forall k, (1 <= k <= pages)%nat -> Z.of_nat (length (pageOf (request k) s)) <= l)
  /\ (forall k, exists body : TradesBody,
        listTrades (request k) s = (Json body, s, [KvGet "trades"])
        /\ totalPages (pagination body) = IInt (Z.of_nat pages)).
Proof.
  intros sorted n pages request Hlimit Hl Hbound.
  destruct (pages_concat q s l Hlimit Hl Hbound) as (Hcat & Hpages & Hwin).
  cbv zeta in Hcat, Hpages, Hwin.
  assert (Hn : 0 <= n) by (subst n; lia).
  pose proof (ceil_bounds n l Hn Hl) as Hceil.
  subst request pages n sorted. cbn beta. rewrite <- Hpages in Hceil.
  split; [exact Hcat | split; [| split]].
  - intros k Hk. rewrite Hwin by lia.
    rewrite length_firstn, length_skipn. nia.
  - intros k Hk. rewrite Hwin by lia.
    rewrite length_firstn. lia.
  - intros k. eexists. split; [apply listTrades_run |].
    cbv zeta. cbn [pagination totalPages withPage q_limit].
    replace (filterTrades (withPage q (Some (showCount k))) (storedTrades s))
      with (filterTrades q (storedTrades s)) by reflexivity.
    rewrite Hlimit, Hpages. unfold ceilDiv.
    destruct l as [|l'|l']; try lia.
    replace (0 <? Z.pos l') with true by reflexivity. reflexivity.
Qed.

(** X24.  What was stored with strings for its text fields can be found
    again.  With a limit [l >= 1], every trade of the collection is on one
    of the pages of the unfiltered listing; so is, after an upload, every
    valid trade of the file, and after POST /trades with a body whose
    identifier is a string (and whose other text properties are strings,
    as [TradeJson] has them) the trade that was created.  A body whose
    identifier is not a string is no [TradeJson]: the handler stores that
    identifier as it came, and the listing then throws on it. *)
Theorem stored_trades_are_listed (file : option string) (b : TradeJson)
    (limit : option string) (s : Store) (l : Z) :
  let request (k : nat) := Engine.pageQuery (Some (showCount k)) limit in
  let uploaded := storeAfter (uploadTrades file) s in
  let created := storeAfter (createTrade b) s in
  parseInt (orDefault limit "50") = IInt l ->
  1 <= l ->
  Z.of_nat (length (storedTrades s)) + Z.of_nat (length (uploadedTrades file)) + 1 + l
  < 2 ^ 53 ->
  (forall t, In t (storedTrades s) -> exists k, In t (pageOf (request k) s))
  /\ (forall t, In t (uploadedTrades file) -> exists k, In t (pageOf (request k) uploaded))
  /\ (forall id : string,
        json_trade_id b = Some id -> valid (validateJson b) = true ->
        trade_id (newTradeOf b) = id
        /\ exists k, In (newTradeOf b) (pageOf (request k) created)).
Proof.
  intros request uploaded created Hlimit Hl Hbound.
  assert (Hfind : forall s0 t,
            Z.of_nat (length (storedTrades s0)) + l < 2 ^ 53 ->
            In t (storedTrades s0) -> exists k, In t (pageOf (request k) s0)).
  { intros s0 t Hb Ht.
    destruct (pages_concat (Engine.pageQuery None limit) s0 l Hlimit Hl) as (Hcat & _ & _).
    { rewrite sort_length. exact Hb. }
    cbv zeta in Hcat.
    assert (Hin : In t (JsArray.sort compareTrades
                          (filterTrades (Engine.pageQuery None limit) (storedTrades s0)))).
    { apply sort_In. exact Ht. }
    rewrite <- Hcat in Hin. apply in_concat in Hin as (pg & Hpg & Hin).
    apply in_map_iff in Hpg as (k & <- & _). exists k. exact Hin. }
  destruct (uploadTrades_stored file s) as [Hup _]. fold uploaded in Hup.
  split; [| split].
  - intros t Ht. apply Hfind; [lia | exact Ht].
  - intros t Ht. apply Hfind.
    + rewrite Hup, length_app. lia.
    + rewrite Hup. apply in_or_app. by right.
  - intros id Hid Hv. split; [cbn [newTradeOf trade_id]; by rewrite Hid |].
    apply Hfind.
    + subst created. unfold storeAfter. rewrite createTrade_run, Hv. cbn [fst snd].
      unfold storedTrades at 1. cbn [kv_trades]. rewrite length_app. cbn [length]. lia.
    + subst created. unfold storeAfter. rewrite createTrade_run, Hv. cbn [fst snd].
      unfold storedTrades at 1. cbn [kv_trades]. apply in_or_app. right. by left.
Qed.

Lemma relativeIndex_nonneg (len : Z) (v : intnum) : 0 <= len -> 0 <= relativeIndex len v.
Proof.
  intros Hlen. destruct v as [| [] | | z]; cbn [relativeIndex]; try lia.
  destruct (z <? 0) eqn:E; [lia|]. apply Z.ltb_ge in E. lia.
Qed.

Lemma slice_empty_window {A : Type} (arr : list A) (start finish : intnum) :
  relativeIndex (Z.of_nat (length arr)) finish = 0 -> JsArray.slice arr start finish = [].
Proof.
  intros H. unfold JsArray.slice. rewrite H.
  pose proof (relativeIndex_nonneg (Z.of_nat (length arr)) start ltac:(lia)).
  replace (Z.to_nat (0 - relativeIndex (Z.of_nat (length arr)) start)) with 0%nat by lia.
  reflexivity.
Qed.

Lemma zero_limit_offsets (x : intnum) :
  add (mul x (IInt 0)) (IInt 0) = INaN \/ add (mul x (IInt 0)) (IInt 0) = IInt 0.
Proof. destruct x as [| [] | | [|p|p]]; vm_compute; auto. Qed.

(** X15.  A page or a limit that is given but is no number, and a limit of
    zero, are answered without an error and with an empty page: the
    offsets handed to [slice] are then NaN or zero.  The total is still
    the number of filtered trades; with the limit zero the number of
    pages reported is infinite, or NaN when no trade passes the
    filters. *)
Theorem listTrades_degenerate_paging (q : TradesQuery) (s : Store) :
  let page := parseInt (orDefault (q_page q) "1") in
  let limit := parseInt (orDefault (q_limit q) "50") in
  let n := length (filterTrades q (storedTrades s)) in
  page = INaN \/ limit = INaN \/ limit = IInt 0 ->
  exists body : TradesBody,
    listTrades q s = (Json body, s, [KvGet "trades"])
    /\ trades body = []
    /\ total (pagination body) = n
    /\ (limit = IInt 0 ->
        totalPages (pagination body) = if (n =? 0)%nat then INaN else IInf false).
Proof.
  intros page limit n H.
  eexists. split; [apply listTrades_run |]. cbv zeta.
  fold page limit. cbn [trades pagination total totalPages].
  rewrite sort_length. fold n.
  split; [| split; [reflexivity |]].
  - apply slice_empty_window.
    destruct H as [-> | [-> | ->]].
    + reflexivity.
    + destruct (sub page (IInt 1)) as [| [] | | z]; reflexivity.
    + destruct (zero_limit_offsets (sub page (IInt 1))) as [-> | ->]; [reflexivity|].
      unfold relativeIndex. replace (0 <? 0) with false by reflexivity. lia.
  - intros ->. cbn [ceilDiv].
    destruct n; reflexivity.
Qed.

End Pages.

Section PagesExamples.

Import IntNum.

#[local] Existing Instance Engine.engine.

Lemma listTrades_pages_cover_witness :
  concat (map (fun k => @pageOf Engine.engine
                          (withPage (Engine.pageQuery None (Some "20"))
                             (Some (showCount k)))
                          Engine.fortyFiveTrades)
            (seq 1 3))
  = JsArray.sort (@compareTrades Engine.engine) (storedTrades Engine.fortyFiveTrades).
Proof.
  destruct (@listTrades_pages_cover Engine.engine (Engine.pageQuery None (Some "20"))
              Engine.fortyFiveTrades 20) as [Hcat _].
  - vm_compute. reflexivity.
  - lia.
  - rewrite sort_length. vm_compute. reflexivity.
  - cbv zeta in Hcat. rewrite sort_length in Hcat. exact Hcat.
Defined.

Lemma listTrades_degenerate_paging_witness :
  exists body : TradesBody,
    @listTrades Engine.engine (Engine.pageQuery (Some "2") (Some "all"))
      Engine.fortyFiveTrades
    = (Json body, Engine.fortyFiveTrades, [KvGet "trades"])
    /\ trades body = []
    /\ total (pagination body) = 45%nat.
Proof.
  destruct (@listTrades_degenerate_paging Engine.engine
              (Engine.pageQuery (Some "2") (Some "all")) Engine.fortyFiveTrades)
    as (body & Hrun & Htrades & Htotal & _).
  - right. left. vm_compute. reflexivity.
  - exists body. split; [exact Hrun |]. split; [exact Htrades |].
    rewrite Htotal. vm_compute. reflexivity.
Defined.

Lemma stored_trades_are_listed_witness :
  exists k : nat,
    In (normalizeTrade infinityRow)
       (@pageOf Engine.engine (Engine.pageQuery (Some (showCount k)) (Some "20"))
          (storeAfter (createTrade (jsonOfRow infinityRow)) Engine.fortyFiveTrades)).
Proof.
  apply (proj2 (proj2 (@stored_trades_are_listed Engine.engine (Some Engine.mixedTradesCsv)
                         (jsonOfRow infinityRow) (Some "20") Engine.fortyFiveTrades 20
                         ltac:(vm_compute; reflexivity) ltac:(lia)
                         ltac:(vm_compute; reflexivity)))
           (present (field infinityRow "trade_id"))).
  - vm_compute. reflexivity.
  - vm_compute. reflexivity.
Defined.

End PagesExamples.

(** ** The filters of the two queries *)

Section NameFilters.

Context {runtime : Runtime}.

Lemma lowerChar_upperChar (c : ascii) : lowerChar (upperChar c) = lowerChar c.
Proof. destruct c as [[] [] [] [] [] [] [] []]; vm_compute; reflexivity. Qed.

Lemma lowerChar_lowerChar (c : ascii) : lowerChar (lowerChar c) = lowerChar c.
Proof. destruct c as [[] [] [] [] [] [] [] []]; vm_compute; reflexivity. Qed.

Lemma toLowerCase_toUpperCase (s : string) : toLowerCase (toUpperCase s) = toLowerCase s.
Proof.
  unfold toLowerCase, toUpperCase.
  induction s as [|c s IH]; [reflexivity|]. cbn [mapChars]. by rewrite lowerChar_upperChar, IH.
Qed.

Lemma toLowerCase_toLowerCase (s : string) : toLowerCase (toLowerCase s) = toLowerCase s.
Proof.
  unfold toLowerCase.
  induction s as [|c s IH]; [reflexivity|]. cbn [mapChars]. by rewrite lowerChar_lowerChar, IH.
Qed.

Lemma mapChars_empty (f : ascii -> ascii) (s : string) :
  String.eqb (mapChars f s) "" = String.eqb s "".
Proof. by destruct s. Qed.

(** A name filter rewritten by a function that keeps emptiness and the
    lower-case form filters alike. *)
Lemma nameFilter_mapped {A : Type} (f : string -> string) (name : A -> string)
    (param : option string) (l : list A) :
  (forall x, String.eqb (f x) "" = String.eqb x "") ->
  (forall x, toLowerCase (f x) = toLowerCase x) ->
  filterIf (option_map f param)
    (fun p t => includes (toLowerCase (name t)) (toLowerCase p)) l
  = filterIf param (fun p t => includes (toLowerCase (name t)) (toLowerCase p)) l.
Proof.
  intros Hempty Hlower. unfold filterIf. destruct param as [p|]; [|reflexivity].
  cbn [option_map JsString.truthy present]. by rewrite Hempty, Hlower.
Qed.

Lemma listTrades_same_filter (q q' : TradesQuery) (s : Store) :
  q_page q' = q_page q -> q_limit q' = q_limit q ->
  filterTrades q' (storedTrades s) = filterTrades q (storedTrades s) ->
  listTrades q' s = listTrades q s.
Proof.
  intros Hp Hl Hf. rewrite !listTrades_run. cbv zeta. by rewrite Hp, Hl, Hf.
Qed.

(** X16.  The instrument and the trader filter of the listing are blind to
    the case of ASCII letters: for filter texts made of ASCII characters,
    the request answers the same whether the two texts are sent as they
    are, in capitals or in small letters.  (Beyond ASCII a conversion can
    change the letters: the capital of the sharp s is SS.) *)
Theorem listTrades_filters_ignore_case (q : TradesQuery) (s : Store) :
  isAsciiText (q_instrument q) = true ->
  isAsciiText (q_trader q) = true ->
  listTrades (mapNameFilters toUpperCase q) s = listTrades q s
  /\ listTrades (mapNameFilters toLowerCase q) s = listTrades q s.
Proof.
  intros _ _.
  split; apply listTrades_same_filter; try reflexivity; unfold filterTrades, mapNameFilters;
    cbn [q_from q_to q_instrument q_trader].
  - rewrite (nameFilter_mapped toUpperCase trader (q_trader q))
      by (intros x; first [apply mapChars_empty | apply toLowerCase_toUpperCase]).
    rewrite (nameFilter_mapped toUpperCase instrument (q_instrument q))
      by (intros x; first [apply mapChars_empty | apply toLowerCase_toUpperCase]).
    reflexivity.
  - rewrite (nameFilter_mapped toLowerCase trader (q_trader q))
      by (intros x; first [apply mapChars_empty | apply toLowerCase_toLowerCase]).
    rewrite (nameFilter_mapped toLowerCase instrument (q_instrument q))
      by (intros x; first [apply mapChars_empty | apply toLowerCase_toLowerCase]).
    reflexivity.
Qed.

Lemma startsWith_refl (s : string) : startsWith s s = true.
Proof. induction s as [|c s IH]; [reflexivity|]. cbn [startsWith]. by rewrite Ascii.eqb_refl. Qed.

Lemma includes_refl (s : string) : includes s s = true.
Proof. destruct s; cbn [includes]; by rewrite startsWith_refl. Qed.

Lemma filter_keeps_all {A : Type} (l : list A) : List.filter (fun _ => true) l = l.
Proof. induction l as [|x l IH]; [reflexivity|]. cbn [List.filter]. by rewrite IH. Qed.

Lemma filterIf_filter {A : Type} (param : option string) (keep : string -> A -> bool)
    (l : list A) :
  filterIf param keep l
  = List.filter (fun x => negb (JsString.truthy param) || keep (present param) x) l.
Proof.
  unfold filterIf. destruct (JsString.truthy param); cbn [negb orb]; [reflexivity|].
  by rewrite filter_keeps_all.
Qed.

Lemma filter_compose {A : Type} (f g : A -> bool) (l : list A) :
  List.filter f (List.filter g l) = List.filter (fun x => g x && f x) l.
Proof.
  induction l as [|x l IH]; [reflexivity|]. cbn [List.filter].
  destruct (g x); cbn [andb List.filter]; [|exact IH]. destruct (f x); by rewrite IH.
Qed.

Lemma filter_length_le {A : Type} (f g : A -> bool) (l : list A) :
  (forall x, f x = true -> g x = true) ->
  (length (List.filter f l) <= length (List.filter g l))%nat.
Proof.
  intros Himp. induction l as [|x l IH]; [reflexivity|]. cbn [List.filter].
  destruct (f x) eqn:Hf; [rewrite (Himp x Hf); cbn [length]; lia |].
  destruct (g x); cbn [length]; lia.
Qed.

Lemma valuation_length (marketPrices : list MarketPrice.t) (ts : list Trade) :
  (length (flat_map (valuation marketPrices) ts) <= length ts)%nat.
Proof.
  induction ts as [|t ts IH]; [reflexivity|]. cbn [flat_map]. rewrite length_app, valuation_eq.
  destruct (latestPrice marketPrices t); cbn [length]; lia.
Qed.

Lemma valuation_trade (marketPrices : list MarketPrice.t) (ts : list Trade)
    (v : ValuedTrade) :
  In v (flat_map (valuation marketPrices) ts) ->
  In (trade v) ts /\ latestPrice marketPrices (trade v) <> None.
Proof.
  intros Hv. apply in_flat_map in Hv as (t & Ht & Hv). rewrite valuation_eq in Hv.
  destruct (latestPrice marketPrices t) eqn:E; [|destruct Hv].
  destruct Hv as [<- | []]. cbn [trade]. split; [exact Ht | congruence].
Qed.

(** X17.  What the P&L is computed on is part of what the listing shows
    for the same filters: a trade kept by the date and instrument filters
    of GET /pnl is kept by the same filters of GET /trades, which match
    the instrument more loosely.  So the trade count of the P&L is at
    most the total of the listing, the valued count at most the trade
    count, and every valued trade is a trade of the listing. *)
Theorem computePnL_trades_are_listed (pq : PnLQuery) (page limit : option string)
    (s : Store) :
  exists (pnlBody : PnLBody) (body : TradesBody),
    computePnL pq s = (Json pnlBody, s, [KvGet "trades"; KvGet "market_prices"])
    /\ listTrades (listingOf pq page limit) s = (Json body, s, [KvGet "trades"])
    /\ (tradeCount pnlBody <= total (pagination body))%nat
    /\ (valuedTradeCount pnlBody <= tradeCount pnlBody)%nat
    /\ (forall v, In v (pnl_trades pnlBody) ->
          In (trade v) (filterTrades (listingOf pq page limit) (storedTrades s))).
Proof.
  eexists _, _. split; [apply computePnL_run |]. split; [apply listTrades_run |].
  cbv zeta. cbn [tradeCount valuedTradeCount pnl_trades pagination total].
  rewrite sort_length.
  pose proof (valuation_loop_trades (storedPrices s) (filterForPnL pq (storedTrades s))
                initialState) as Htrades.
  cbn [app initialState st_tradesPnL] in Htrades. rewrite Htrades.
  assert (Hsub : forall t, In t (filterForPnL pq (storedTrades s)) ->
                   In t (filterTrades (listingOf pq page limit) (storedTrades s))).
  { intros t Ht. apply filterForPnL_In in Ht as (Hin & Hfrom & Hto & Hinstr).
    apply filterTrades_In. cbn [listingOf q_from q_to q_instrument q_trader].
    split; [exact Hin |]. split; [exact Hfrom |]. split; [exact Hto |].
    split; [| intros n [Hn _]; discriminate].
    intros i Hi. specialize (Hinstr i Hi). apply String.eqb_eq in Hinstr.
    rewrite Hinstr. apply includes_refl. }
  split; [| split; [apply valuation_length |]].
  - unfold filterForPnL, filterTrades. cbn [listingOf q_from q_to q_instrument q_trader].
    rewrite filterIf_absent, !filterIf_filter, !filter_compose.
    apply filter_length_le. intros t.
    assert (Hinstr : negb (JsString.truthy (p_instrument pq))
                     || String.eqb (instrument t) (present (p_instrument pq)) = true ->
                     negb (JsString.truthy (p_instrument pq))
                     || includes (toLowerCase (instrument t))
                          (toLowerCase (present (p_instrument pq))) = true).
    { intros H. apply orb_true_iff in H as [H | H]; [by rewrite H|].
      apply String.eqb_eq in H. rewrite H, includes_refl. apply orb_true_r. }
    rewrite !andb_true_iff. tauto.
  - intros v Hv. apply valuation_trade in Hv as [Hv _]. by apply Hsub.
Qed.

(** X18.  Without a price for the instrument of any filtered trade (as
    when no price was uploaded at all) the P&L answers zero, no daily
    figure and no valued trade, while the trade count still counts the
    filtered trades: a trade without a price is left out, not valued at
    zero. *)
Theorem computePnL_without_prices (q : PnLQuery) (s : Store) :
  (forall t, In t (filterForPnL q (storedTrades s)) ->
     pricesFor (storedPrices s) t = []) ->
  computePnL q s
  = (Json {| totalPnL := Num.zero; dailyPnL := [];
             tradeCount := length (filterForPnL q (storedTrades s));
             valuedTradeCount := 0; pnl_trades := [] |},
     s, [KvGet "trades"; KvGet "market_prices"]).
Proof.
  intros Hnone. rewrite computePnL_run. cbv zeta.
  assert (Hloop : fold_left (valueTrade (storedPrices s)) (filterForPnL q (storedTrades s))
                    initialState = initialState).
  { generalize initialState.
    induction (filterForPnL q (storedTrades s)) as [|t ts IH]; intros st; [reflexivity|].
    cbn [fold_left].
    assert (Hstep : valueTrade (storedPrices s) st t = st).
    { unfold valueTrade.
      rewrite (proj2 (latestPrice_none (storedPrices s) t) (Hnone t (or_introl eq_refl))).
      reflexivity. }
    rewrite Hstep. apply IH. intros t' Ht'. apply Hnone. by right. }
  rewrite Hloop. reflexivity.
Qed.

End NameFilters.

Section NameFiltersExamples.

#[local] Existing Instance Engine.engine.

(** The filters [wti] and [unk] find the two crude trades, and so do
    [WTI] and [UNK]. *)
Lemma listTrades_filters_ignore_case_witness :
  (listTrades (mapNameFilters toUpperCase (Engine.nameQuery "wti" "unk")) Engine.crudeStore
   = listTrades (Engine.nameQuery "wti" "unk") Engine.crudeStore
   /\ listTrades (mapNameFilters toLowerCase (Engine.nameQuery "wti" "unk"))
        Engine.crudeStore
      = listTrades (Engine.nameQuery "wti" "unk") Engine.crudeStore)
  /\ map trade_id (pageOf (Engine.nameQuery "WTI" "UNK") Engine.crudeStore)
     = ["T001"; "T002"].
Proof.
  split; [| vm_compute; reflexivity].
  apply (listTrades_filters_ignore_case (Engine.nameQuery "wti" "unk") Engine.crudeStore);
    reflexivity.
Defined.

Lemma computePnL_without_prices_witness :
  @computePnL Engine.engine
    {| p_from := None; p_to := None; p_instrument := Some "NATGAS" |} Engine.crudeStore
  = (Json {| totalPnL := Num.zero; dailyPnL := []; tradeCount := 1;
             valuedTradeCount := 0; pnl_trades := [] |},
     Engine.crudeStore, [KvGet "trades"; KvGet "market_prices"]).
Proof.
  apply (@computePnL_without_prices Engine.engine
           {| p_from := None; p_to := None; p_instrument := Some "NATGAS" |}
           Engine.crudeStore).
  intros t Ht. vm_compute in Ht. destruct Ht as [<- | []]. reflexivity.
Defined.

End NameFiltersExamples.

(** ** Ties in the two sorts *)

Section SortTies.

Context {runtime : Runtime} {A : Type} (compareFn : A -> A -> IntNum.intnum) (key : A -> Z).

(** The head of the array under construction is the first of the
    elements read so far that has the least key. *)
Lemma sort_from_head (arr processed acc : list A) :
  agreesWith compareFn key (processed ++ arr) ->
  match acc with
  | [] => processed = []
  | h :: _ =>
      exists l1 l2, processed = l1 ++ h :: l2
                    /\ (forall y, In y l1 -> key h < key y)
                    /\ (forall y, In y l2 -> key h <= key y)
  end ->
  match fold_left (fun sorted x => JsArray.insertSorted compareFn x sorted) arr acc with
  | [] => processed ++ arr = []
  | h :: _ =>
      exists l1 l2, processed ++ arr = l1 ++ h :: l2
                    /\ (forall y, In y l1 -> key h < key y)
                    /\ (forall y, In y l2 -> key h <= key y)
  end.
Proof.
  revert processed acc. induction arr as [|x arr IH]; intros processed acc Hag Hacc.
  - cbn [fold_left]. rewrite app_nil_r. exact Hacc.
  - cbn [fold_left].
    replace (processed ++ x :: arr) with ((processed ++ [x]) ++ arr) in *
      by (by rewrite <- app_assoc).
    apply IH; [exact Hag |].
    destruct acc as [|h rest]; cbn [JsArray.insertSorted].
    + subst processed. exists [], []. split; [reflexivity |]. split; intros y [].
    + destruct Hacc as (l1 & l2 & -> & Hl1 & Hl2).
      assert (Hx : In x (((l1 ++ h :: l2) ++ [x]) ++ arr)).
      { apply in_or_app. left. apply in_or_app. right. by left. }
      assert (Hh : In h (((l1 ++ h :: l2) ++ [x]) ++ arr)).
      { apply in_or_app. left. apply in_or_app. left. apply in_or_app. right. by left. }
      rewrite (Hag x h Hx Hh).
      destruct (Z.compare_spec (key x) (key h)) as [Hc | Hc | Hc].
      * exists l1, (l2 ++ [x]). split; [by rewrite <- app_assoc |].
        split; [exact Hl1 |]. intros y Hy. apply in_app_or in Hy as [Hy | [<- | []]].
        -- by apply Hl2.
        -- lia.
      * exists (l1 ++ h :: l2), []. split; [reflexivity |].
        split; [| intros y []].
        intros y Hy. apply in_app_or in Hy as [Hy | [<- | Hy]].
        -- specialize (Hl1 y Hy). lia.
        -- exact Hc.
        -- specialize (Hl2 y Hy). lia.
      * exists l1, (l2 ++ [x]). split; [by rewrite <- app_assoc |].
        split; [exact Hl1 |]. intros y Hy. apply in_app_or in Hy as [Hy | [<- | []]].
        -- by apply Hl2.
        -- lia.
Qed.

Lemma sort_head_first (arr : list A) (x : A) :
  agreesWith compareFn key arr ->
  hd_error (JsArray.sort compareFn arr) = Some x ->
  exists l1 l2, arr = l1 ++ x :: l2
                /\ (forall y, In y l1 -> key x < key y)
                /\ (forall y, In y l2 -> key x <= key y).
Proof.
  intros Hag Hhd. pose proof (sort_from_head arr [] [] Hag eq_refl) as H.
  rewrite (sort_consistent compareFn arr (agreesWith_consistent compareFn key arr Hag))
    in Hhd.
  unfold JsArray.stableSort in Hhd.
  destruct (fold_left _ arr []) as [|h rest]; [discriminate|].
  injection Hhd as ->. exact H.
Qed.

Lemma filter_head (f : A -> bool) (x : A) (l : list A) :
  List.filter f (x :: l) = (if f x then [x] else []) ++ List.filter f l.
Proof. cbn [List.filter]. by destruct (f x). Qed.

(** Inserting into a sorted array puts the element behind those of its
    key. *)
Lemma insertSorted_same_key (k : Z) (x : A) (sorted : list A) :
  agreesWith compareFn key (x :: sorted) ->
  StronglySorted (fun a b => key a <= key b) sorted ->
  List.filter (fun a => key a =? k) (JsArray.insertSorted compareFn x sorted)
  = List.filter (fun a => key a =? k) sorted ++ (if key x =? k then [x] else []).
Proof.
  intros Hag Hs. induction Hs as [|h rest Hrest IH Hh]; cbn [JsArray.insertSorted].
  - cbn [List.filter app]. by destruct (key x =? k).
  - rewrite (Hag x h) by (simpl; auto).
    assert (Hag' : agreesWith compareFn key (x :: rest)).
    { intros a b Ha Hb. apply Hag; simpl in *; tauto. }
    destruct (Z.compare_spec (key x) (key h)) as [Hc | Hc | Hc].
    + cbn [List.filter]. rewrite (IH Hag'). by destruct (key h =? k).
    + rewrite (filter_head (fun a => key a =? k) x (h :: rest)).
      destruct (key x =? k) eqn:E; [|by rewrite app_nil_r].
      apply Z.eqb_eq in E.
      assert (Hnone : List.filter (fun a => key a =? k) (h :: rest) = []).
      { rewrite List.Forall_forall in Hh.
        assert (Hall : forall y, In y (h :: rest) -> (key y =? k) = false).
        { intros y [<- | Hy]; apply Z.eqb_neq; [lia |].
          specialize (Hh y Hy). cbn beta in Hh. lia. }
        clear - Hall. induction (h :: rest) as [|y l IHl]; [reflexivity|].
        cbn [List.filter]. rewrite (Hall y (or_introl eq_refl)).
        apply IHl. intros z Hz. apply Hall. by right. }
      rewrite Hnone. reflexivity.
    + cbn [List.filter]. rewrite (IH Hag'). by destruct (key h =? k).
Qed.

Lemma sort_from_same_key (k : Z) (arr acc : list A) :
  agreesWith compareFn key (acc ++ arr) ->
  StronglySorted (fun a b => key a <= key b) acc ->
  List.filter (fun a => key a =? k)
    (fold_left (fun sorted x => JsArray.insertSorted compareFn x sorted) arr acc)
  = List.filter (fun a => key a =? k) acc ++ List.filter (fun a => key a =? k) arr.
Proof.
  revert acc. induction arr as [|x arr IH]; intros acc Hag Hs; cbn [fold_left].
  - cbn [List.filter]. by rewrite app_nil_r.
  - assert (Hagx : agreesWith compareFn key (x :: acc)).
    { intros a b Ha Hb. apply Hag; apply in_or_app; simpl in *.
      - destruct Ha as [<- | Ha]; auto.
      - destruct Hb as [<- | Hb]; auto. }
    rewrite IH.
    + rewrite (insertSorted_same_key k x acc Hagx Hs). cbn [List.filter].
      rewrite <- app_assoc. by destruct (key x =? k).
    + intros a b Ha Hb. apply Hag.
      * apply in_app_or in Ha as [Ha | Ha].
        -- apply (Permutation_in _ (Permutation_sym (insertSorted_perm compareFn x acc))) in Ha.
           destruct Ha as [<- | Ha]; apply in_or_app; simpl; auto.
        -- apply in_or_app; simpl; auto.
      * apply in_app_or in Hb as [Hb | Hb].
        -- apply (Permutation_in _ (Permutation_sym (insertSorted_perm compareFn x acc))) in Hb.
           destruct Hb as [<- | Hb]; apply in_or_app; simpl; auto.
        -- apply in_or_app; simpl; auto.
    + by apply insertSorted_sorted.
Qed.

(** The sort keeps the elements of one key in the order they had. *)
Lemma sort_same_key (k : Z) (arr : list A) :
  agreesWith compareFn key arr ->
  List.filter (fun a => key a =? k) (JsArray.sort compareFn arr)
  = List.filter (fun a => key a =? k) arr.
Proof.
  intros Hag.
  rewrite (sort_consistent compareFn arr (agreesWith_consistent compareFn key arr Hag)).
  unfold JsArray.stableSort.
  rewrite (sort_from_same_key k arr []); [reflexivity | exact Hag | constructor].
Qed.

End SortTies.

Section Ties.

Context {runtime : Runtime}.

(** X19.  When the prices of an instrument all carry a valid date, the
    price a trade is valued at is the first stored one among those of the
    latest date: every price stored before it is strictly older, and
    none stored after it is newer.  So of two closes uploaded for the
    same day, the one higher up in the file is used. *)
Theorem latestPrice_takes_first_of_latest (marketPrices : list MarketPrice.t)
    (t : Trade) (latest : MarketPrice.t) :
  (forall p, In p (pricesFor marketPrices t) -> hasValidDate p) ->
  latestPrice marketPrices t = Some latest ->
  exists before after : list MarketPrice.t,
    pricesFor marketPrices t = before ++ latest :: after
    /\ (forall p, In p before -> priceTime p < priceTime latest)
    /\ (forall p, In p after -> priceTime p <= priceTime latest).
Proof.
  intros Hvalid Hlatest.
  assert (Hag : agreesWith comparePrices (fun x => - priceTime x) (pricesFor marketPrices t)).
  { intros a b Ha Hb.
    destruct (Hvalid a Ha) as [ta Hta]. destruct (Hvalid b Hb) as [tb Htb].
    unfold comparePrices, priceTime. rewrite Hta, Htb.
    rewrite sortSign_sub. symmetry. apply Z.compare_opp. }
  destruct (sort_head_first comparePrices _ _ latest Hag Hlatest)
    as (before & after & Heq & Hb & Ha).
  exists before, after. split; [exact Heq |].
  split; intros p Hp; [specialize (Hb p Hp) | specialize (Ha p Hp)]; cbn beta in *; lia.
Qed.

(** X20.  The sort of the listing is stable.  When every identifier among
    the filtered trades holds digits (writing an integer below 2^53),
    the trades whose digits write the same number - T7, X7 and T007, or
    a trade that was uploaded twice - come in the order in which they are
    stored. *)
Theorem listTrades_keeps_order_of_equal_numbers (q : TradesQuery) (s : Store) (n : Z) :
  let filtered := filterTrades q (storedTrades s) in
  let sorted := JsArray.sort compareTrades filtered in
  (forall t, In t filtered ->
     hasDigit (trade_id t) = true /\ digitsOf (trade_id t) < 2 ^ 53) ->
  List.filter (fun t => digitsOf (trade_id t) =? n) sorted
  = List.filter (fun t => digitsOf (trade_id t) =? n) filtered.
Proof.
  intros filtered sorted Hall. apply sort_same_key.
  intros x y Hx Hy.
  destruct (Hall x Hx) as [Hdx Hbx]. destruct (Hall y Hy) as [Hdy Hby].
  rewrite compareTrades_eq, Hdx, Hdy. cbn [andb].
  pose proof (digitsOf_nonneg (trade_id x)).
  pose proof (digitsOf_nonneg (trade_id y)).
  rewrite !round53_small by lia.
  apply sortSign_sub.
Qed.

End Ties.

Section TiesExamples.

#[local] Existing Instance Engine.engine.

Lemma latestPrice_takes_first_of_latest_witness :
  exists before after : list MarketPrice.t,
    pricesFor (storedPrices Engine.crudeStore) (Engine.tradeWithId "T001")
    = before ++ Engine.priceRecord "WTI-CRUDE" "2025-01-16" "76.00" :: after
    /\ (forall p, In p before ->
          priceTime p < priceTime (Engine.priceRecord "WTI-CRUDE" "2025-01-16" "76.00"))
    /\ (forall p, In p after ->
          priceTime p <= priceTime (Engine.priceRecord "WTI-CRUDE" "2025-01-16" "76.00")).
Proof.
  apply (latestPrice_takes_first_of_latest (storedPrices Engine.crudeStore)
           (Engine.tradeWithId "T001")
           (Engine.priceRecord "WTI-CRUDE" "2025-01-16" "76.00")).
  - intros p Hp. vm_compute in Hp.
    destruct Hp as [<- | [<- | [<- | []]]]; eexists; vm_compute; reflexivity.
  - vm_compute. reflexivity.
Defined.

Lemma listTrades_keeps_order_of_equal_numbers_witness :
  map trade_id
    (List.filter (fun t => digitsOf (trade_id t) =? 10)
       (JsArray.sort compareTrades
          (filterTrades (Engine.pageQuery None None) (storedTrades Engine.numberedIds))))
  = ["T10"; "T010"].
Proof.
  rewrite (listTrades_keeps_order_of_equal_numbers (Engine.pageQuery None None)
             Engine.numberedIds 10).
  - vm_compute. reflexivity.
  - intros t Ht. vm_compute in Ht.
    destruct Ht as [<- | [<- | [<- | [<- | []]]]]; vm_compute; split; reflexivity.
Defined.

End TiesExamples.

(** ** Numbers read and computed *)

Section FloatFacts.

Import Num.

Variables precision emaximum : Z.

Lemma shr_1_nonneg (mrs : shr_record) : 0 <= shr_m mrs -> 0 <= shr_m (shr_1 mrs).
Proof.
  destruct mrs as [m r st]. cbn [shr_m]. intros Hm.
  destruct m as [|[p|p|]|p]; cbn [shr_1 shr_m]; lia.
Qed.

Lemma iter_pos_nonneg (n : positive) (mrs : shr_record) :
  0 <= shr_m mrs -> 0 <= shr_m (@SpecFloat.iter_pos shr_record shr_1 n mrs).
Proof.
  revert mrs. induction n as [n IH|n IH|]; intros mrs Hm; cbn [SpecFloat.iter_pos].
  - by apply IH, IH, shr_1_nonneg.
  - by apply IH, IH.
  - by apply shr_1_nonneg.
Qed.

Lemma shr_fexp_nonneg (m e : Z) (l : location) :
  0 <= m -> 0 <= shr_m (fst (shr_fexp precision emaximum m e l)).
Proof.
  intros Hm. unfold shr_fexp, shr.
  assert (H0 : 0 <= shr_m (shr_record_of_loc m l)).
  { destruct l as [|[]]; exact Hm. }
  destruct (fexp precision emaximum (Zdigits2 m + e) - e); cbn [fst]; try exact H0.
  by apply iter_pos_nonneg.
Qed.

Lemma round_nearest_even_nonneg (m : Z) (l : location) :
  0 <= m -> 0 <= round_nearest_even m l.
Proof.
  intros Hm. destruct l as [|[]]; cbn [round_nearest_even]; try lia.
  destruct (Z.even m); lia.
Qed.

(** Rounding a non-negative mantissa never gives NaN. *)
Lemma binary_round_aux_not_NaN (sx : bool) (mx ex : Z) (lx : location) :
  0 <= mx -> isNaN (binary_round_aux precision emaximum sx mx ex lx) = false.
Proof.
  intros Hm. unfold binary_round_aux.
  pose proof (shr_fexp_nonneg mx ex lx Hm) as H1.
  destruct (shr_fexp precision emaximum mx ex lx) as [mrs' e']. cbn [fst] in H1.
  pose proof (shr_fexp_nonneg _ e' loc_Exact
                (round_nearest_even_nonneg (shr_m mrs') (loc_of_shr_record mrs') H1)) as H2.
  destruct (shr_fexp precision emaximum _ e' loc_Exact) as [mrs'' e'']. cbn [fst] in H2.
  destruct (shr_m mrs'') as [|m|m]; [reflexivity | | lia].
  by destruct (e'' <=? emaximum - precision).
Qed.

Lemma binary_round_not_NaN (sx : bool) (mx : positive) (ex : Z) :
  isNaN (binary_round precision emaximum sx mx ex) = false.
Proof.
  unfold binary_round. destruct (shl_align mx ex _) as [mz ez].
  apply binary_round_aux_not_NaN. lia.
Qed.

Lemma binary_normalize_not_NaN (m e : Z) (szero : bool) :
  isNaN (binary_normalize precision emaximum m e szero) = false.
Proof.
  destruct m; cbn [binary_normalize]; [reflexivity | apply binary_round_not_NaN ..].
Qed.

Lemma SFsub_finite_not_NaN (x y : number) :
  isFinite x = true -> isFinite y = true -> isNaN (SFsub precision emaximum x y) = false.
Proof.
  destruct x as [sx|sx| |sx mx ex], y as [sy|sy| |sy my ey]; try discriminate; intros _ _;
    cbn [SFsub].
  - by destruct sx, sy.
  - reflexivity.
  - reflexivity.
  - apply binary_normalize_not_NaN.
Qed.

(** A finite Number times one that is finite and not zero, or a Number
    that is not NaN times one that is finite and not zero, is not NaN. *)
Lemma SFmul_nonzero_not_NaN (x y : number) :
  isNaN x = false -> isFinite y = true -> truthy y = true ->
  isNaN (SFmul precision emaximum x y) = false.
Proof.
  destruct x as [sx|sx| |sx mx ex], y as [sy|sy| |sy my ey]; try discriminate; intros _ _ _;
    cbn [SFmul]; try reflexivity.
  apply binary_round_aux_not_NaN. lia.
Qed.

Lemma SFsub_same (x : number) :
  isFinite x = true -> SFsub precision emaximum x x = S754_zero false.
Proof.
  destruct x as [sx|sx| |sx mx ex]; try discriminate; intros _; cbn [SFsub].
  - by destruct sx.
  - by rewrite Z.sub_diag.
Qed.

Lemma SFmul_zero_finite (sx : bool) (y : number) :
  isFinite y = true ->
  dropZeroSign (SFmul precision emaximum (S754_zero sx) y) = S754_zero false.
Proof. destruct y as [sy|sy| |sy my ey]; try discriminate; reflexivity. Qed.

End FloatFacts.

Section ParseFloatFacts.

Import Num.







End ParseFloatFacts.

Section NumbersRead.

Context {runtime : Runtime}.


End NumbersRead.

Section NumbersComputed.

Context {runtime : Runtime}.

Import Num.

Lemma valued_entry (marketPrices : list MarketPrice.t) (ts : list Trade) (v : ValuedTrade) :
  In v (flat_map (valuation marketPrices) ts) ->
  exists latest : MarketPrice.t,
    In latest marketPrices /\ In (trade v) ts
    /\ market_price v = parseFloatNumber (MarketPrice.close_price latest)
    /\ mtm v = mul (sub (market_price v) (parseFloatNumber (trade_price (trade v))))
                 (parseFloatNumber (quantity (trade v))).
Proof.
  intros Hv. apply in_flat_map in Hv as (t & Ht & Hv). rewrite valuation_eq in Hv.
  destruct (latestPrice marketPrices t) as [latest|] eqn:E; [|destruct Hv].
  destruct Hv as [<- | []]. cbn [trade market_price mtm].
  exists latest. split; [by apply (latestPrice_matches _ _ _ E) | by repeat split].
Qed.

Lemma isFinite_dropZeroSign (x : number) : isFinite (dropZeroSign x) = isFinite x.
Proof. by destruct x. Qed.

Lemma truthy_dropZeroSign (x : number) : truthy (dropZeroSign x) = truthy x.
Proof. by destruct x. Qed.

Lemma dropZeroSign_fixed (x : number) : dropZeroSign (dropZeroSign x) = dropZeroSign x.
Proof. by destruct x. Qed.

(** X22.  When the amounts of the stored trades and the closes of the
    stored prices are finite Numbers, the MtM of a valued trade whose
    quantity is not zero is never NaN (it can be an infinity, by
    overflow), and a trade valued at a close equal to its own price has
    an MtM of zero. *)
Theorem computePnL_finite_amounts (q : PnLQuery) (s : Store) :
  forallb finiteTrade (storedTrades s) = true ->
  forallb finitePrice (storedPrices s) = true ->
  exists body : PnLBody,
    computePnL q s = (Json body, s, [KvGet "trades"; KvGet "market_prices"])
    /\ forall v, In v (pnl_trades body) ->
         (truthy (quantity (trade v)) = true -> isNaN (mtm v) = false)
         /\ (market_price v = dropZeroSign (trade_price (trade v)) ->
             dropZeroSign (mtm v) = zero).
Proof.
  intros Htrades Hprices.
  eexists. split; [apply computePnL_run |]. cbv zeta. cbn [pnl_trades].
  pose proof (valuation_loop_trades (storedPrices s) (filterForPnL q (storedTrades s))
                initialState) as Hloop.
  cbn [app initialState st_tradesPnL] in Hloop. rewrite Hloop.
  intros v Hv.
  destruct (valued_entry _ _ v Hv) as (latest & Hlatest & Ht & Hmp & Hmtm).
  apply filterForPnL_In in Ht as [Ht _].
  rewrite forallb_forall in Htrades, Hprices.
  specialize (Htrades _ Ht). specialize (Hprices _ Hlatest).
  unfold finiteTrade in Htrades. apply andb_true_iff in Htrades as [Hqty Hprice].
  unfold finitePrice in Hprices.
  assert (Hfmp : isFinite (market_price v) = true).
  { rewrite Hmp. unfold parseFloatNumber. by rewrite isFinite_dropZeroSign. }
  unfold parseFloatNumber in Hmtm. split.
  - intros Hnz. rewrite Hmtm. apply SFmul_nonzero_not_NaN.
    + apply SFsub_finite_not_NaN; [exact Hfmp | by rewrite isFinite_dropZeroSign].
    + by rewrite isFinite_dropZeroSign.
    + by rewrite truthy_dropZeroSign.
  - intros Hsame. rewrite Hmtm, <- Hsame. unfold sub, mul.
    rewrite (SFsub_same prec emax _ Hfmp).
    apply SFmul_zero_finite. by rewrite isFinite_dropZeroSign.
Qed.

Lemma leb_refl (a : string) : String.leb a a = true.
Proof. by destruct (String.leb_total a a). Qed.

Lemma given_some (x d : string) : given (Some x) d <-> d = x /\ x <> EmptyString.
Proof.
  unfold given. split.
  - intros [[= ->] Hne]. by split.
  - intros [-> Hne]. by split.
Qed.

Lemma given_none (d : string) : ~ given None d.
Proof. intros [H _]. discriminate. Qed.

Lemma single_day (day date : string) :
  day <> EmptyString ->
  ((forall d, given (Some day) d -> JsString.ge date d = true)
   /\ (forall d, given (Some day) d -> JsString.le date d = true))
  <-> date = day.
Proof.
  intros Hne. unfold JsString.ge, JsString.le. split.
  - intros [Hge Hle]. apply String.leb_antisym.
    + apply Hle. by apply given_some.
    + apply Hge. by apply given_some.
  - intros ->. split; intros d Hd; apply given_some in Hd as [-> _]; apply leb_refl.
Qed.

(** X23.  The two date bounds are inclusive, so a request whose [from] and
    [to] are the same day selects the trades of that day: of the trades
    the other filters keep, GET /pnl and GET /trades keep exactly those
    whose date is that text. *)
Theorem filters_select_single_day (day : string) (instr page limit : option string)
    (stored : list Trade) (t : Trade) :
  day <> EmptyString ->
  (In t (filterForPnL (dayQuery day instr) stored)
   <-> In t (filterForPnL (undated instr) stored) /\ trade_date t = day)
  /\ (In t (filterTrades (listingOf (dayQuery day instr) page limit) stored)
      <-> In t (filterTrades (listingOf (undated instr) page limit) stored)
          /\ trade_date t = day).
Proof.
  intros Hne. pose proof (single_day day (trade_date t) Hne) as Hday.
  rewrite !filterForPnL_In, !filterTrades_In.
  cbn [dayQuery undated listingOf p_from p_to p_instrument q_from q_to q_instrument q_trader].
  pose proof given_none as Hnone.
  split; split.
  - intros (Hin & Hfrom & Hto & Hi). split; [| apply Hday; by split].
    split; [exact Hin |]. split; [intros d Hd; by destruct (Hnone d) |].
    split; [intros d Hd; by destruct (Hnone d) | exact Hi].
  - intros [(Hin & _ & _ & Hi) Heq]. apply Hday in Heq as [Hfrom Hto]. by repeat split.
  - intros (Hin & Hfrom & Hto & Hi & Hn). split; [| apply Hday; by split].
    split; [exact Hin |]. split; [intros d Hd; by destruct (Hnone d) |].
    split; [intros d Hd; by destruct (Hnone d) | by split].
  - intros [(Hin & _ & _ & Hi & Hn) Heq]. apply Hday in Heq as [Hfrom Hto]. by repeat split.
Qed.

End NumbersComputed.

Section NumbersExamples.

#[local] Existing Instance Engine.engine.


Lemma computePnL_finite_amounts_witness :
  exists body : PnLBody,
    computePnL Engine.allPnL Engine.crudeStore
    = (Json body, Engine.crudeStore, [KvGet "trades"; KvGet "market_prices"])
    /\ forall v, In v (pnl_trades body) ->
         (Num.truthy (quantity (trade v)) = true -> Num.isNaN (mtm v) = false)
         /\ (market_price v = Num.dropZeroSign (trade_price (trade v)) ->
             Num.dropZeroSign (mtm v) = Num.zero).
Proof.
  apply (computePnL_finite_amounts Engine.allPnL Engine.crudeStore).
  - vm_compute. reflexivity.
  - vm_compute. reflexivity.
Defined.

Lemma filters_select_single_day_witness :
  In (Engine.tradeWithId "T9")
     (filterForPnL (dayQuery "2025-01-15" None) (storedTrades Engine.numberedIds))
  <-> In (Engine.tradeWithId "T9")
        (filterForPnL (undated None) (storedTrades Engine.numberedIds))
      /\ trade_date (Engine.tradeWithId "T9") = "2025-01-15".
Proof.
  apply (filters_select_single_day "2025-01-15" None None None
           (storedTrades Engine.numberedIds) (Engine.tradeWithId "T9")).
  discriminate.
Defined.

End NumbersExamples.
